(** * Dual spectrum-analyzer viewer: the instrument engine of [main.py]

    A shallow embedding of the instrument-facing part of [DualSAViewer]
    (connection toggle, sweep configuration, single and continuous sweep,
    ASCII trace decoding, peak hold, frequency-range resolution) together
    with the properties its specification states about it.

    Conventions.
    - A Python [str] is a list of characters ([str]), a character being
      one of the 256 code points of Latin-1; a Python [float] is an
      IEEE-754 binary64 value, taken from the [SpecFloat] formalisation
      (53 bits of precision, [emax = 1024], a single NaN).
    - Code that performs I/O runs in the monad [M]: it threads a [world]
      holding the attributes of the viewer, the answers the transports are
      going to give, the handlers the Tk main thread runs meanwhile, and a
      log of everything observable. A run returns, raises, or is
      [Unfinished] when the fuel of its [while] loop is spent.
    - A worker thread shares [self.inst...] and [self.continuous...] with
      the main thread. Before every step of a worker that reads one of
      them or uses a transport, the main thread may run handlers (button
      presses); the [arrivals] of the world say which, step by step.
    - [connect1]/[connect2], [_update_plot1]/[_update_plot2] and so on are
      the same text up to the digit; they are embedded once, indexed by a
      session identifier [sid].
    - Beside the engine the file embeds the network reset, the connect
      handler of the panel, the marker and the zoom of [SpectrumPlot]
      and the handlers of the divider between the plots. Their
      properties, and further ones of the engine, are read off the code
      and make up the second part of the properties. *)

From Stdlib Require Import Ascii String.
From Stdlib Require Import List ZArith NArith Lia Bool SpecFloat.
Import ListNotations.

(* ================================================================= *)
(** ** Python strings *)

Module Py.

Definition str := list ascii.

(** String literals of the source are written [lit "..."]. *)
Definition lit (s : string) : str := list_ascii_of_string s.

Definition code (c : ascii) : N := N_of_ascii c.

Definition between (lo hi : N) (c : ascii) : bool :=
  ((lo <=? code c) && (code c <=? hi))%N.

Definition is_digit (c : ascii) : bool := between 48 57 c.

Definition digit_val (c : ascii) : Z := Z.of_N (code c) - 48.

(** White space as the number parsers [float()] and [int()] see it:
    the C [isspace] set, plus the two Latin-1 spaces NEL and NBSP. *)
Definition isspace_num (c : ascii) : bool :=
  between 9 13 c || between 32 32 c || between 133 133 c || between 160 160 c.

(** White space as [str.strip()] sees it: [str.isspace], which also counts
    the four separator controls FS, GS, RS, US. *)
Definition isspace (c : ascii) : bool :=
  isspace_num c || between 28 31 c.

Fixpoint lstrip_by (sp : ascii -> bool) (x : str) : str :=
  match x with
  | [] => []
  | c :: r => if sp c then lstrip_by sp r else x
  end.

Definition rstrip_by (sp : ascii -> bool) (x : str) : str :=
  rev (lstrip_by sp (rev x)).

Definition strip_by (sp : ascii -> bool) (x : str) : str :=
  rstrip_by sp (lstrip_by sp x).

(** [x.strip()] *)
Definition strip : str -> str := strip_by isspace.

(** [x.startswith(c)] for a one-character prefix. *)
Definition startswith (c : ascii) (x : str) : bool :=
  match x with
  | d :: _ => Ascii.eqb d c
  | [] => false
  end.

(** [x.split(sep)] for a one-character separator: never empty. *)
Fixpoint split (sep : ascii) (x : str) : list str :=
  match x with
  | [] => [[]]
  | c :: r =>
      if Ascii.eqb c sep then [] :: split sep r
      else match split sep r with
           | t :: ts => (c :: t) :: ts
           | [] => [[c]]
           end
  end.

(** [x.replace(c, by)] for a one-character pattern. *)
Definition replace (c : ascii) (by_ : str) (x : str) : str :=
  flat_map (fun d => if Ascii.eqb d c then by_ else [d]) x.

(** [sep.join(parts)] *)
Fixpoint join (sep : ascii) (parts : list str) : str :=
  match parts with
  | [] => []
  | [t] => t
  | t :: ts => t ++ sep :: join sep ts
  end.

(** [x[i:j]] with Python's treatment of negative and overlong bounds. *)
Definition clamp_index (len i : Z) : Z :=
  if (i <? 0)%Z then Z.max 0 (len + i) else Z.min len i.

Definition slice (x : str) (i j : Z) : str :=
  let len := Z.of_nat (length x) in
  let a := clamp_index len i in
  let b := clamp_index len j in
  firstn (Z.to_nat (b - a)) (skipn (Z.to_nat a) x).

(** *** Exceptions and results *)

Inductive exn : Type :=
| ValueError | IndexError | AttributeError | OverflowError | RuntimeError
| VisaIOError | InvalidSession.

Inductive result (A : Type) : Type :=
| Ok (a : A)
| Raise (e : exn).
Arguments Ok {A} a.
Arguments Raise {A} e.

Definition rbind {A B} (r : result A) (k : A -> result B) : result B :=
  match r with
  | Ok a => k a
  | Raise e => Raise e
  end.

Fixpoint rmap {A B} (f : A -> result B) (l : list A) : result (list B) :=
  match l with
  | [] => Ok []
  | a :: r => rbind (f a) (fun b => rbind (rmap f r) (fun bs => Ok (b :: bs)))
  end.

(** [x[i]] for a non-negative index. *)
Definition index (x : str) (i : nat) : result ascii :=
  match nth_error x i with
  | Some c => Ok c
  | None => Raise IndexError
  end.

(* ================================================================= *)
(** ** Numbers: [int()] and [float()] *)

Definition float := spec_float.

Definition prec : Z := 53.
Definition emax : Z := 1024.

Definition fadd : float -> float -> float := SFadd prec emax.
Definition fsub : float -> float -> float := SFsub prec emax.
Definition fmul : float -> float -> float := SFmul prec emax.
Definition fdiv : float -> float -> float := SFdiv prec emax.
Definition fltb : float -> float -> bool := SFltb.
Definition fleb : float -> float -> bool := SFleb.
Definition feqb : float -> float -> bool := SFeqb.

Definition is_nan (x : float) : bool :=
  match x with S754_nan => true | _ => false end.

(** [float(n)] of an integer. *)
Definition float_of_Z (n : Z) : float := binary_normalize prec emax n 0 false.

(** The binary64 value nearest to [m * 10^e] (ties to even), for [0 <= m].
    The quotient is taken with 64 significant bits and its remainder is
    passed on as the rounding location. *)
Definition float_of_decimal (neg : bool) (m e : Z) : float :=
  if (m <=? 0)%Z then S754_zero neg
  else if (400 <? e)%Z then S754_infinity neg
  else if (e <? - 400 - Z.log2 m - 1)%Z then S754_zero neg
  else
    let n := (m * 10 ^ Z.max e 0)%Z in
    let d := (10 ^ Z.max (- e) 0)%Z in
    let k := (Z.log2 n - Z.log2 d - 64)%Z in
    let num := (if k <? 0 then n * 2 ^ (- k) else n)%Z in
    let den := (if k <? 0 then d else d * 2 ^ k)%Z in
    let q := (num / den)%Z in
    let r := (num mod den)%Z in
    let loc := if (r =? 0)%Z then loc_Exact
               else loc_Inexact (2 * r ?= den)%Z in
    binary_round_aux prec emax neg q k loc.

Fixpoint span_digits (x : str) : str * str :=
  match x with
  | c :: r => if is_digit c
              then let (ds, rest) := span_digits r in (c :: ds, rest)
              else ([], x)
  | [] => ([], [])
  end.

Definition digits_value (ds : str) : Z :=
  fold_left (fun a c => 10 * a + digit_val c)%Z ds 0%Z.

Definition take_sign (x : str) : bool * str :=
  match x with
  | c :: r => if Ascii.eqb c "-" then (true, r)
              else if Ascii.eqb c "+" then (false, r)
              else (false, x)
  | [] => (false, [])
  end.

(** Underscores are digit-group separators: each must stand between two
    digits. [prev] tells whether the previous character was a digit. *)
Fixpoint drop_underscores (prev : bool) (x : str) : option str :=
  match x with
  | [] => Some []
  | c :: r =>
      if Ascii.eqb c "_" then
        match r with
        | d :: _ => if prev && is_digit d then drop_underscores false r
                    else None
        | [] => None
        end
      else option_map (cons c) (drop_underscores (is_digit c) r)
  end.

Definition lower (c : ascii) : ascii :=
  if between 65 90 c then ascii_of_N (code c + 32) else c.

Fixpoint str_eqb (x y : str) : bool :=
  match x, y with
  | [], [] => true
  | c :: r, d :: t => Ascii.eqb c d && str_eqb r t
  | _, _ => false
  end.

(** [digits [. digits] [(e|E) [sign] digits]] with at least one mantissa
    digit; the answer is the integer mantissa and the decimal exponent. *)
Definition scan_decimal (x : str) : option (Z * Z) :=
  let (ip, r1) := span_digits x in
  let (fp, r2) := match r1 with
                  | c :: r => if Ascii.eqb c "." then span_digits r
                              else ([], r1)
                  | [] => ([], r1)
                  end in
  match ip ++ fp with
  | [] => None
  | _ :: _ =>
      let m := digits_value (ip ++ fp) in
      let sh := Z.of_nat (length fp) in
      match r2 with
      | [] => Some (m, (- sh)%Z)
      | c :: r3 =>
          if Ascii.eqb (lower c) "e" then
            let (eneg, r4) := take_sign r3 in
            match span_digits r4 with
            | ((_ :: _) as ed, []) =>
                let ev := digits_value ed in
                Some (m, ((if eneg then - ev else ev) - sh)%Z)
            | _ => None
            end
          else None
      end
  end.

(** [float(x)] *)
Definition float_ (x : str) : result float :=
  match drop_underscores false (strip_by isspace_num x) with
  | None => Raise ValueError
  | Some b =>
      let (neg, body) := take_sign b in
      let low := map lower body in
      if str_eqb low (lit "inf") || str_eqb low (lit "infinity")
      then Ok (S754_infinity neg)
      else if str_eqb low (lit "nan") then Ok S754_nan
      else match scan_decimal body with
           | Some (m, e) => Ok (float_of_decimal neg m e)
           | None => Raise ValueError
           end
  end.

(** [int(x)] in base ten. *)
Definition int_ (x : str) : result Z :=
  match drop_underscores false (strip_by isspace_num x) with
  | None => Raise ValueError
  | Some b =>
      let (neg, body) := take_sign b in
      match body with
      | [] => Raise ValueError
      | _ :: _ =>
          if forallb is_digit body
          then Ok (if neg then - digits_value body else digits_value body)%Z
          else Raise ValueError
      end
  end.

(** The builtin [max(a, b)] of two floats: the first maximal argument. *)
Definition max_ (a b : float) : float := if fltb a b then b else a.

End Py.

(* ================================================================= *)
(** ** The NumPy operations the viewer uses *)

Module Np.
Import Py.

(** [np.maximum] on two scalars: the first argument when it is at least
    the second or is NaN, the second otherwise; a NaN on either side is
    propagated. *)
Definition maximum1 (x y : float) : float :=
  if fleb y x || is_nan x then x else y.

(** [np.maximum(a, b)] on two arrays of one length. *)
Definition maximum (a b : list float) : list float :=
  map (fun p => maximum1 (fst p) (snd p)) (combine a b).

(** [np.arange(0, num)] as floats. *)
Definition arange (num : nat) : list float :=
  map (fun i => float_of_Z (Z.of_nat i)) (seq 0 num).

(** [y[-1] = v] *)
Definition set_last (y : list float) (v : float) : list float :=
  match y with
  | [] => []
  | _ :: _ => removelast y ++ [v]
  end.

(** [np.linspace(start, stop, num=num)] with its default [endpoint=True]:
    the ramp [0 .. num-1] is scaled by the step, shifted by [start], and
    the last point is then overwritten with [stop]. A step that rounds to
    zero is applied as a division followed by a multiplication. *)
Definition linspace (start stop : float) (num : nat) : list float :=
  let div := (Z.of_nat num - 1)%Z in
  let delta := fsub stop start in
  let ramp := arange num in
  let scaled :=
    if (0 <? div)%Z then
      let step := fdiv delta (float_of_Z div) in
      if feqb step (S754_zero false)
      then map (fun v => fmul (fdiv v (float_of_Z div)) delta) ramp
      else map (fun v => fmul v step) ramp
    else map (fun v => fmul v delta) ramp in
  let y := map (fun v => fadd v start) scaled in
  if (1 <? num)%nat then set_last y stop else y.

End Np.

(* ================================================================= *)
(** ** Data of the viewer *)

Import Py.

(** The two analyzers: every attribute [x1]/[x2] of [DualSAViewer] is the
    attribute [x] of session [SA1]/[SA2]. *)
Inductive sid : Type := SA1 | SA2.

Definition other (k : sid) : sid :=
  match k with SA1 => SA2 | SA2 => SA1 end.

Definition handle := nat.

(** [SpectrumAnalyzerPanel.freq_mode] *)
Inductive mode : Type := start_stop | center_span.

(** The entries and option menus of a [SpectrumAnalyzerPanel]. *)
Record panel : Type := {
  freq_mode : mode;
  center_entry : str;
  span_entry : str;
  start_entry : str;
  stop_entry : str;
  points_var : str;
  bw_res_var : str;
  bw_vid_var : str
}.

(** Per-analyzer attributes of [DualSAViewer]: [inst1], [continuous1],
    [max_vals1], [max_freqs1], [sa1_panel], and of its plot the one
    attribute the viewer looks at, [plot1.line_max is not None]. *)
Record session : Type := {
  inst : option handle;
  continuous : bool;
  max_vals : option (list float);
  max_freqs : option (list float);
  sa_panel : panel;
  line_max : bool
}.

Record viewer : Type := {
  rm : bool;          (** [self.rm is not None] *)
  sa1 : session;
  sa2 : session
}.

Definition sess (k : sid) (v : viewer) : session :=
  match k with SA1 => sa1 v | SA2 => sa2 v end.

Definition upd_sess (k : sid) (f : session -> session) (v : viewer) : viewer :=
  match k with
  | SA1 => {| rm := rm v; sa1 := f (sa1 v); sa2 := sa2 v |}
  | SA2 => {| rm := rm v; sa1 := sa1 v; sa2 := f (sa2 v) |}
  end.

Definition set_rm (b : bool) (v : viewer) : viewer :=
  {| rm := b; sa1 := sa1 v; sa2 := sa2 v |}.

Definition set_inst (i : option handle) (x : session) : session :=
  {| inst := i; continuous := continuous x; max_vals := max_vals x;
     max_freqs := max_freqs x; sa_panel := sa_panel x;
     line_max := line_max x |}.

Definition set_continuous (b : bool) (x : session) : session :=
  {| inst := inst x; continuous := b; max_vals := max_vals x;
     max_freqs := max_freqs x; sa_panel := sa_panel x;
     line_max := line_max x |}.

Definition set_max (fs vs : option (list float)) (x : session) : session :=
  {| inst := inst x; continuous := continuous x; max_vals := vs;
     max_freqs := fs; sa_panel := sa_panel x; line_max := line_max x |}.

Definition set_line_max (b : bool) (x : session) : session :=
  {| inst := inst x; continuous := continuous x; max_vals := max_vals x;
     max_freqs := max_freqs x; sa_panel := sa_panel x; line_max := b |}.

(** The protocol commands, one constructor per command text:
    [":BAND:RES:AUTO ON"], [":BAND:RES {hz}"], [":FREQ:STAR {hz}"],
    [":FREQ:STOP {hz}"], [":FREQ:CENT {hz}"], [":FREQ:SPAN {hz}"],
    [":SWE:POIN {n}"], [":BAND:VID {hz}"], [":DET POS"],
    [":FORM:TRAC:DATA ASCii"], [":INIT:CONT OFF"], [":INIT"],
    [":SWE:TIME?"], [":SWE:POIN?"], [":FREQ:STAR?"], [":FREQ:STOP?"],
    [":TRAC:DATA? TRACE1"], ["*IDN?"]. *)
Inductive scpi : Type :=
| BAND_RES_AUTO_ON
| BAND_RES (hz : float)
| FREQ_STAR (hz : float)
| FREQ_STOP (hz : float)
| FREQ_CENT (hz : float)
| FREQ_SPAN (hz : float)
| SWE_POIN (n : Z)
| BAND_VID (hz : float)
| DET_POS
| FORM_TRAC_DATA_ASCii
| INIT_CONT_OFF
| INIT
| SWE_TIME_q
| SWE_POIN_q
| FREQ_STAR_q
| FREQ_STOP_q
| TRAC_DATA_q_TRACE1
| IDN_q.

(** Calls on the widgets of one analyzer (its panel, its plot, its
    message boxes). *)
Inductive ui : Type :=
| set_connected (connected : bool) (idn : str)
| set_message (message : string) (is_error : bool)
| set_continuous_active (active : bool)
| set_sweeping (sweeping : bool)
| plot_clear
| plot_update_data (freqs_mhz vals max_freqs_mhz max_vals : list float)
| plot_remove_line_max
| showerror (message : string)
| showerror_exn (e : exn).

(** What [self.after(0, ...)] hands to the main thread. *)
Inductive callback : Type :=
| cb_update_plot (freqs vals : list float)
| cb_ui (u : ui).

(** The messages of [print]. *)
Inductive printed : Type :=
| connect_note (k : sid) (note : string)
| connection_error (k : sid) (e : exn)
| rm_note (note : string)
| configuring_error (e : exn)
| points_warning (expected : Z) (got : nat)
| sweep_error (sweep_count : nat) (e : exn)
| setup_error (e : exn).

(** The handlers the Tk main thread may run: the three panel buttons and
    the window's close button. *)
Inductive action : Type :=
| click_connect (k : sid) (ip : string)
| click_continuous (k : sid)
| click_reset (k : sid)
| close_window.

(** The two kinds of worker thread, named after their bodies. *)
Inductive thread : Type := sweep_thread | continuous_thread.

(** Everything observable, newest first in the log. *)
Inductive event : Type :=
| EWrite (h : handle) (c : scpi) (ok : bool)
| ERead (h : handle) (ok : bool)
| EOpen (ip : string) (ok : bool)
| EClose (h : handle) (ok : bool)
| ESetTimeout (h : handle) (ms : Z)
| ESleep (seconds : float)
| EPrint (p : printed)
| EUi (k : sid) (u : ui)
| EAfter (k : sid) (c : callback)
| ESpawn (k : sid) (t : thread)
| EMain (a : action).

(** One answer of a transport: the text it returns (ignored by a write),
    or the error it raises. *)
Inductive io : Type :=
| Good (text : str)
| Bad (e : exn).

Record world : Type := {
  app : viewer;
  wire : list io;                 (** answers still to come, in order *)
  closed : list handle;           (** handles already closed *)
  timeouts : list (handle * Z);   (** [inst.timeout], latest first *)
  fresh : handle;                 (** next handle [open_resource] returns *)
  arrivals : list (list action);  (** main-thread handlers, per worker step *)
  log : list event
}.

Definition with_app (f : viewer -> viewer) (w : world) : world :=
  {| app := f (app w); wire := wire w; closed := closed w;
     timeouts := timeouts w; fresh := fresh w; arrivals := arrivals w;
     log := log w |}.

Definition with_wire (l : list io) (w : world) : world :=
  {| app := app w; wire := l; closed := closed w; timeouts := timeouts w;
     fresh := fresh w; arrivals := arrivals w; log := log w |}.

Definition with_closed (l : list handle) (w : world) : world :=
  {| app := app w; wire := wire w; closed := l; timeouts := timeouts w;
     fresh := fresh w; arrivals := arrivals w; log := log w |}.

Definition with_timeouts (l : list (handle * Z)) (w : world) : world :=
  {| app := app w; wire := wire w; closed := closed w; timeouts := l;
     fresh := fresh w; arrivals := arrivals w; log := log w |}.

Definition with_fresh (h : handle) (w : world) : world :=
  {| app := app w; wire := wire w; closed := closed w;
     timeouts := timeouts w; fresh := h; arrivals := arrivals w;
     log := log w |}.

Definition with_arrivals (l : list (list action)) (w : world) : world :=
  {| app := app w; wire := wire w; closed := closed w;
     timeouts := timeouts w; fresh := fresh w; arrivals := l;
     log := log w |}.

Definition emit (e : event) (w : world) : world :=
  {| app := app w; wire := wire w; closed := closed w;
     timeouts := timeouts w; fresh := fresh w; arrivals := arrivals w;
     log := e :: log w |}.

Definition is_closed (h : handle) (w : world) : bool :=
  existsb (Nat.eqb h) (closed w).

(* ================================================================= *)
(** ** The monad of the viewer's code *)

(** A run either returns, raises, or is still inside a loop when its
    fuel is spent. *)
Inductive outcome (A : Type) : Type :=
| Returns (a : A) (w : world)
| Raises (e : exn) (w : world)
| Unfinished (w : world).
Arguments Returns {A} a w.
Arguments Raises {A} e w.
Arguments Unfinished {A} w.

Definition M (A : Type) : Type := world -> outcome A.

Definition ret {A} (a : A) : M A := fun w => Returns a w.

Definition raise {A} (e : exn) : M A := fun w => Raises e w.

Definition bind {A B} (m : M A) (k : A -> M B) : M B :=
  fun w =>
    match m w with
    | Returns a w1 => k a w1
    | Raises e w1 => Raises e w1
    | Unfinished w1 => Unfinished w1
    end.

Declare Scope viewer_scope.
Delimit Scope viewer_scope with viewer.

Notation "x <- m ;; k" := (bind m (fun x => k))
  (at level 61, m at next level, right associativity) : viewer_scope.
Notation "m ;; k" := (bind m (fun _ => k))
  (at level 61, right associativity) : viewer_scope.
Notation "' p <- m ;; k" := (bind m (fun x => match x with p => k end))
  (at level 61, p pattern, m at next level, right associativity)
  : viewer_scope.

Local Open Scope viewer_scope.

(** The value or the exception of a pure computation. *)
Definition lift {A} (r : result A) : M A :=
  match r with
  | Ok a => ret a
  | Raise e => raise e
  end.

(** [try: m / except Exception as e: h e] *)
Definition try_except {A} (m : M A) (h : exn -> M A) : M A :=
  fun w =>
    match m w with
    | Raises e w1 => h e w1
    | o => o
    end.

(** [try: m / finally: fin] *)
Definition try_finally {A} (m : M A) (fin : M unit) : M A :=
  fun w =>
    match m w with
    | Returns a w1 => (fin ;; ret a) w1
    | Raises e w1 => (fin ;; raise e) w1
    | Unfinished w1 => Unfinished w1
    end.

(** The world a run leaves behind. *)
Definition world_of {A} (o : outcome A) : world :=
  match o with
  | Returns _ w => w
  | Raises _ w => w
  | Unfinished w => w
  end.

Definition modify (f : world -> world) : M unit := fun w => Returns tt (f w).

Definition record (e : event) : M unit := modify (emit e).

Definition print (p : printed) : M unit := record (EPrint p).

(** A direct call on a widget, and one deferred with [self.after]. *)
Definition call (k : sid) (u : ui) : M unit := record (EUi k u).
Definition after (k : sid) (c : callback) : M unit := record (EAfter k c).

(** Reading and writing the attributes of [self]. *)
Definition attr {A} (k : sid) (f : session -> A) : M A :=
  fun w => Returns (f (sess k (app w))) w.

Definition assign (k : sid) (f : session -> session) : M unit :=
  modify (with_app (upd_sess k f)).

(** *** Float constants of the source *)

Definition dec (m e : Z) : float := float_of_decimal false m e.

Definition f0_1 : float := Eval vm_compute in dec 1 (-1).
Definition f0_15 : float := Eval vm_compute in dec 15 (-2).
Definition f0_2 : float := Eval vm_compute in dec 2 (-1).
Definition f0_3 : float := Eval vm_compute in dec 3 (-1).
Definition f0_5 : float := Eval vm_compute in dec 5 (-1).
Definition f1_1 : float := Eval vm_compute in dec 11 (-1).
Definition f1_2 : float := Eval vm_compute in dec 12 (-1).
Definition f1_5 : float := Eval vm_compute in dec 15 (-1).
Definition f2 : float := Eval vm_compute in dec 2 0.
Definition f1e6 : float := Eval vm_compute in dec 1 6.
Definition f1e9 : float := Eval vm_compute in dec 1 9.
Definition f2p62 : float := Eval vm_compute in float_of_Z (2 ^ 62).
Definition f2p63 : float := Eval vm_compute in float_of_Z (2 ^ 63).
Definition fm2p63 : float := Eval vm_compute in float_of_Z (- 2 ^ 63).

(** The argument check of [time.sleep(d)], as CPython 3.11 does it: the
    exception it raises, if any. A NaN is refused with [ValueError]. The
    delay is turned into nanoseconds, [d * 1e9], which must lie between
    the bounds of the 64-bit clock taken as floats, [-2^63] and [2^63],
    both included: outside of them the call raises [OverflowError]. The
    count is then made an integer, and a negative one is refused with
    [ValueError]; [2^63] itself, one more than the clock can hold, comes
    out of that conversion (on x86-64) as the most negative count and is
    refused in the same way. *)
Definition sleep_check (d : float) : option exn :=
  let ns := fmul d f1e9 in
  if is_nan d then Some ValueError
  else if negb (fleb fm2p63 ns && fleb ns f2p63) then Some OverflowError
  else if fltb ns (S754_zero false) || feqb ns f2p63 then Some ValueError
  else None.

(** [time.sleep(d)]: the check, then the sleep itself, which the system
    is taken to grant. (Linux refuses a deadline beyond the end of its
    monotonic clock with [OSError]; a delay reaches it when it passes
    the check by less than the time since boot. Where a property says
    that a delay computed from an answer is slept, it keeps the delay
    within [2^62] nanoseconds, half the range of the clock.) *)
Definition sleep (d : float) : M unit :=
  fun w =>
    match sleep_check d with
    | None => Returns tt (emit (ESleep d) w)
    | Some e => Raises e w
    end.

(** *** Transport operations, as the main thread performs them *)

(** The next answer of the wire; a wire that has gone silent times out. *)
Definition answer (w : world) : io * world :=
  match wire w with
  | a :: rest => (a, with_wire rest w)
  | [] => (Bad VisaIOError, w)
  end.

(** [inst.write(c)] *)
Definition raw_write (h : handle) (c : scpi) : M unit :=
  fun w =>
    if is_closed h w then Raises InvalidSession (emit (EWrite h c false) w)
    else match answer w with
         | (Good _, w1) => Returns tt (emit (EWrite h c true) w1)
         | (Bad e, w1) => Raises e (emit (EWrite h c false) w1)
         end.

(** [inst.read()] *)
Definition raw_read (h : handle) : M str :=
  fun w =>
    if is_closed h w then Raises InvalidSession (emit (ERead h false) w)
    else match answer w with
         | (Good text, w1) => Returns text (emit (ERead h true) w1)
         | (Bad e, w1) => Raises e (emit (ERead h false) w1)
         end.

(** [inst.close()]: closing twice is harmless. *)
Definition raw_close (h : handle) : M unit :=
  fun w =>
    if is_closed h w then Returns tt w
    else match answer w with
         | (Good _, w1) =>
             Returns tt (emit (EClose h true) (with_closed (h :: closed w1) w1))
         | (Bad e, w1) => Raises e (emit (EClose h false) w1)
         end.

Fixpoint lookup_timeout (h : handle) (l : list (handle * Z)) : Z :=
  match l with
  | [] => 2000%Z
  | (h', ms) :: r => if Nat.eqb h h' then ms else lookup_timeout h r
  end.

(** [inst.timeout] and [inst.timeout = ms] *)
Definition raw_get_timeout (h : handle) : M Z :=
  fun w =>
    if is_closed h w then Raises InvalidSession w
    else Returns (lookup_timeout h (timeouts w)) w.

Definition raw_set_timeout (h : handle) (ms : Z) : M unit :=
  fun w =>
    if is_closed h w then Raises InvalidSession w
    else Returns tt (emit (ESetTimeout h ms)
                       (with_timeouts ((h, ms) :: timeouts w) w)).

(** [rm.open_resource(f"TCPIP::{ip}::INSTR")] *)
Definition open_resource (ip : string) : M handle :=
  fun w =>
    match answer w with
    | (Good _, w1) =>
        Returns (fresh w1) (emit (EOpen ip true) (with_fresh (S (fresh w1)) w1))
    | (Bad e, w1) => Raises e (emit (EOpen ip false) w1)
    end.

(** A call that consumes one answer and keeps nothing of it, such as
    [pyvisa.ResourceManager()] or [rm.list_resources()]. *)
Definition library_call : M unit :=
  fun w =>
    match answer w with
    | (Good _, w1) => Returns tt w1
    | (Bad e, w1) => Raises e w1
    end.

(* ================================================================= *)
(** ** Handlers of the main thread *)

(** [DualSAViewer._get_rm] *)
Definition _get_rm : M unit :=
  fun w =>
    if rm (app w) then Returns tt w
    else
      try_except
        (library_call ;;
         modify (with_app (set_rm true)) ;;
         try_except library_call (fun _ => ret tt) ;;
         print (rm_note "Using default VISA ResourceManager()"))
        (fun _ =>
           print (rm_note "default ResourceManager() failed") ;;
           try_except
             (library_call ;;
              modify (with_app (set_rm true)) ;;
              try_except library_call (fun _ => ret tt) ;;
              print (rm_note "Using pyvisa-py ResourceManager('@py')"))
             (fun _ =>
                print (rm_note "pyvisa-py ResourceManager('@py') failed") ;;
                modify (with_app (set_rm false)) ;;
                raise RuntimeError))
        w.

(** [DualSAViewer.connect1] / [connect2] *)
Definition connect (k : sid) (ip : string) : M unit :=
  if String.eqb ip "" then
    call k (showerror "Please enter a valid IP address")
  else
    i <- attr k inst ;;
    match i with
    | Some h =>
        assign k (set_continuous false) ;;
        call k (set_continuous_active false) ;;
        try_except (raw_close h) (fun _ => ret tt) ;;
        assign k (set_inst None) ;;
        call k (set_connected false []) ;;
        call k (set_message "Disconnected" false) ;;
        assign k (set_max None None) ;;
        call k plot_clear ;;
        assign k (set_line_max false)
    | None =>
        try_except
          (print (connect_note k "Attempting to connect") ;;
           _get_rm ;;
           print (connect_note k "Resource manager created, opening resource") ;;
           h <- open_resource ip ;;
           assign k (set_inst (Some h)) ;;
           print (connect_note k "Resource opened, setting timeout to 120000ms") ;;
           raw_set_timeout h 120000 ;;
           print (connect_note k "Waiting for device to stabilize") ;;
           sleep f2 ;;
           print (connect_note k "Querying device ID") ;;
           raw_write h IDN_q ;;
           sleep f0_5 ;;
           idn <- raw_read h ;;
           print (connect_note k "Device ID") ;;
           call k (set_connected true (strip idn)) ;;
           call k (set_message "Connected successfully" false))
          (fun e =>
             print (connection_error k e) ;;
             assign k (set_inst None) ;;
             call k (set_connected false []) ;;
             call k (set_message "Connection failed" true) ;;
             call k (showerror_exn e))
    end.

Definition connect1 : string -> M unit := connect SA1.
Definition connect2 : string -> M unit := connect SA2.

(** [DualSAViewer._start_continuous1] / [_start_continuous2]: the thread
    it starts runs [do_continuous], defined below. *)
Definition _start_continuous (k : sid) : M unit :=
  c <- attr k continuous ;;
  i <- attr k inst ;;
  match c, i with
  | true, Some _ => record (ESpawn k continuous_thread)
  | _, _ => ret tt
  end.

(** [DualSAViewer.toggle_continuous1] / [toggle_continuous2] *)
Definition toggle_continuous (k : sid) : M unit :=
  i <- attr k inst ;;
  match i with
  | None => call k (showerror "not connected")
  | Some _ =>
      c <- attr k continuous ;;
      assign k (set_continuous (negb c)) ;;
      call k (set_continuous_active (negb c)) ;;
      if negb c then _start_continuous k else ret tt
  end.

Definition toggle_continuous1 : M unit := toggle_continuous SA1.
Definition toggle_continuous2 : M unit := toggle_continuous SA2.

(** [DualSAViewer.reset_peak1] / [reset_peak2] (the definition that is in
    force: the later one of the class body). *)
Definition reset_peak (k : sid) : M unit :=
  assign k (set_max None None) ;;
  l <- attr k line_max ;;
  (if l then
     call k plot_remove_line_max ;;
     assign k (set_line_max false)
   else ret tt) ;;
  call k (set_message "Peak hold reset" false).

Definition reset_peak1 : M unit := reset_peak SA1.
Definition reset_peak2 : M unit := reset_peak SA2.

(** [SpectrumPlot.update_data], as far as the viewer depends on it: it
    reads [freqs_mhz[0]], so it raises on an empty trace, and it leaves a
    max-hold line behind. *)
Definition update_data (k : sid) (freqs_mhz vals max_freqs_mhz max_vals_ : list float)
  : M unit :=
  match freqs_mhz with
  | [] => raise IndexError
  | _ :: _ =>
      assign k (set_line_max true) ;;
      call k (plot_update_data freqs_mhz vals max_freqs_mhz max_vals_)
  end.

Definition to_mhz (fs : list float) : list float :=
  map (fun f => fdiv f f1e6) fs.

(** The peak-hold step of [_update_plot1]: the new [(max_freqs, max_vals)]
    from the old ones and the incoming trace. *)
Definition hold (mf mv : option (list float)) (freqs vals : list float)
  : list float * list float :=
  match mv, mf with
  | Some held, Some held_freqs =>
      if Nat.eqb (length held) (length vals)
      then (held_freqs, Np.maximum held vals)
      else (freqs, vals)
  | _, _ => (freqs, vals)
  end.

(** [DualSAViewer._update_plot1] / [_update_plot2] *)
Definition _update_plot (k : sid) (freqs vals : list float) : M unit :=
  let freqs_mhz := to_mhz freqs in
  mv <- attr k max_vals ;;
  mf <- attr k max_freqs ;;
  let (new_freqs, new_vals) := hold mf mv freqs vals in
  assign k (set_max (Some new_freqs) (Some new_vals)) ;;
  update_data k freqs_mhz vals (to_mhz new_freqs) new_vals.

Definition _update_plot1 : list float -> list float -> M unit := _update_plot SA1.
Definition _update_plot2 : list float -> list float -> M unit := _update_plot SA2.

(** [DualSAViewer._on_closing], as far as the sessions and the resource
    manager go: the running flags are cleared, then each transport and
    the manager are closed and forgotten. The handler also sets the
    footer text, lets Tk run with [self.update()] and ends with
    [self.destroy()]; these act on the window, of which the world holds
    nothing. In particular [after] goes on succeeding once this handler
    has run, where [self.after] of a destroyed window raises: a property
    of a worker that rests on [self.after] succeeding is stated for a
    window that stays open. *)
Definition close_inst (k : sid) : M unit :=
  i <- attr k inst ;;
  match i with
  | Some h =>
      try_except (raw_close h) (fun _ => ret tt) ;;
      assign k (set_inst None)
  | None => ret tt
  end.

Definition _on_closing : M unit :=
  assign SA1 (set_continuous false) ;;
  assign SA2 (set_continuous false) ;;
  close_inst SA1 ;;
  close_inst SA2 ;;
  r <- (fun w => Returns (rm (app w)) w) ;;
  if r : bool then
    try_except library_call (fun _ => ret tt) ;;
    modify (with_app (set_rm false))
  else ret tt.

(** ** The worker threads' view of the main thread *)

Definition handler (a : action) : M unit :=
  match a with
  | click_connect k ip => connect k ip
  | click_continuous k => toggle_continuous k
  | click_reset k => reset_peak k
  | close_window => _on_closing
  end.

(** The main thread runs a handler to its end; what it raises is reported
    by Tk and goes no further. *)
Definition run_action (w : world) (a : action) : world :=
  world_of (handler a (emit (EMain a) w)).

(** Before each of its steps that looks at shared state, a worker lets the
    main thread run the handlers that arrived in the meantime. *)
Definition yield : M unit :=
  fun w =>
    match arrivals w with
    | [] => Returns tt w
    | acts :: rest => Returns tt (fold_left run_action acts (with_arrivals rest w))
    end.

(* ================================================================= *)
(** ** Code of the worker threads *)

(** [inst.write(c)], [inst.read()], [inst.timeout] on a worker thread,
    where [inst] may be [None]. *)
Definition on_inst {A} (i : option handle) (f : handle -> M A) : M A :=
  yield ;;
  match i with
  | Some h => f h
  | None => raise AttributeError
  end.

Definition write (i : option handle) (c : scpi) : M unit :=
  on_inst i (fun h => raw_write h c).

Definition read (i : option handle) : M str :=
  on_inst i raw_read.

Definition get_timeout (i : option handle) : M Z :=
  on_inst i raw_get_timeout.

Definition set_timeout (i : option handle) (ms : Z) : M unit :=
  on_inst i (fun h => raw_set_timeout h ms).

(** [self.inst1] and [self.continuous1] read on a worker thread. *)
Definition self_inst (k : sid) : M (option handle) := yield ;; attr k inst.
Definition self_continuous (k : sid) : M bool := yield ;; attr k continuous.

(** [float(entry.get().replace(",", "."))] *)
Definition entry_float (entry : str) : result float :=
  float_ (replace "," (lit ".") entry).

(** [DualSAViewer._get_freq_range_for_panel] *)
Definition _get_freq_range_for_panel (p : panel) : result (float * float) :=
  match freq_mode p with
  | center_span =>
      rbind (entry_float (center_entry p)) (fun center =>
      rbind (entry_float (span_entry p)) (fun span =>
      let start := fsub center (fdiv span f2) in
      let stop := fadd center (fdiv span f2) in
      Ok (start, stop)))
  | start_stop =>
      rbind (entry_float (start_entry p)) (fun start =>
      rbind (entry_float (stop_entry p)) (fun stop =>
      Ok (start, stop)))
  end.

(** [float(bw.replace('k', 'e3').replace('M', 'e6'))] *)
Definition bandwidth_hz (bw : str) : result float :=
  float_ (replace "M" (lit "e6") (replace "k" (lit "e3") bw)).

(** [DualSAViewer._configure_sa] *)
Definition _configure_sa (i : option handle) (start_mhz stop_mhz : float)
    (points : Z) (bw_res bw_vid : str) : M unit :=
  let start_hz := fmul start_mhz f1e6 in
  let stop_hz := fmul stop_mhz f1e6 in
  let center_hz := fdiv (fadd start_hz stop_hz) f2 in
  let span_hz := fsub stop_hz start_hz in
  try_except
    ((if str_eqb bw_res (lit "auto")
      then write i BAND_RES_AUTO_ON
      else bw_res_hz <- lift (bandwidth_hz bw_res) ;;
           write i (BAND_RES bw_res_hz)) ;;
     bw_vid_hz <- lift (bandwidth_hz bw_vid) ;;
     write i (FREQ_STAR start_hz) ;;
     sleep f0_1 ;;
     write i (FREQ_STOP stop_hz) ;;
     sleep f0_1 ;;
     write i (FREQ_CENT center_hz) ;;
     sleep f0_1 ;;
     write i (FREQ_SPAN span_hz) ;;
     sleep f0_1 ;;
     write i (SWE_POIN points) ;;
     sleep f0_1 ;;
     write i (BAND_VID bw_vid_hz) ;;
     sleep f0_1 ;;
     write i DET_POS ;;
     sleep f0_1 ;;
     write i FORM_TRAC_DATA_ASCii ;;
     sleep f0_1)
    (fun e => print (configuring_error e)).

(** [DualSAViewer._single_sweep] *)
Definition _single_sweep (i : option handle) : M unit :=
  write i INIT_CONT_OFF ;;
  sleep f0_1 ;;
  write i INIT ;;
  st <- try_except
          (write i SWE_TIME_q ;;
           sleep f0_15 ;;
           text <- read i ;;
           lift (float_ text))
          (fun _ => ret f1_5) ;;
  sleep (max_ f1_5 (fmul st f1_1)).

(** The end of the decoding step of [_read_trace_ascii_block]: the data
    region is split on commas, blank fields are dropped, the rest is
    converted. *)
Definition decode_region (data_str : str) : result (list float) :=
  let parts :=
    filter (fun p => negb (Nat.eqb (length (strip p)) 0))
           (split "," data_str) in
  rmap float_ parts.

(** The decoding step of [_read_trace_ascii_block] (from
    [if raw.startswith("#")] to the array of values): the data region is
    what a definite-length header delimits if there is one, else the
    whole text. *)
Definition decode_block (raw : str) : result (list float) :=
  rbind
    (if startswith "#" raw then
       rbind (index raw 1) (fun c =>
       rbind (int_ [c]) (fun n_digits =>
       let len_str := slice raw 2 (2 + n_digits) in
       rbind (int_ len_str) (fun data_len =>
       let header_len := (2 + n_digits)%Z in
       Ok (slice raw header_len (header_len + data_len)))))
     else Ok raw)
    decode_region.

(** [DualSAViewer._read_trace_ascii_block] *)
Definition _read_trace_ascii_block (i : option handle)
  : M (list float * list float) :=
  write i SWE_POIN_q ;;
  sleep f0_2 ;;
  text <- read i ;;
  points <- lift (int_ (strip text)) ;;
  write i FREQ_STAR_q ;;
  sleep f0_2 ;;
  text <- read i ;;
  f_start <- lift (float_ (strip text)) ;;
  write i FREQ_STOP_q ;;
  sleep f0_2 ;;
  text <- read i ;;
  f_stop <- lift (float_ (strip text)) ;;
  write i FORM_TRAC_DATA_ASCii ;;
  sleep f0_2 ;;
  write i TRAC_DATA_q_TRACE1 ;;
  sleep f0_3 ;;
  text <- read i ;;
  vals <- lift (decode_block (strip text)) ;;
  (if (Z.of_nat (length vals) =? points)%Z then ret tt
   else print (points_warning points (length vals))) ;;
  let freqs := Np.linspace f_start f_stop (length vals) in
  ret (freqs, vals).

(** The panel settings a sweep starts from. *)
Definition settings (k : sid) : M (float * float * Z * str * str) :=
  p <- attr k sa_panel ;;
  range <- lift (_get_freq_range_for_panel p) ;;
  pts <- lift (int_ (points_var p)) ;;
  ret (fst range, snd range, pts, bw_res_var p, bw_vid_var p).

(** The thread body [do_sweep] of [sweep1] / [sweep2]. The two texts post
    the message and the button state in opposite orders. *)
Definition message_and_button (k : sid) (message button : M unit) : M unit :=
  match k with
  | SA1 => message ;; button
  | SA2 => button ;; message
  end.

Definition do_sweep (k : sid) : M unit :=
  try_except
    ('(start_val, stop_val, pts, bw_res, bw_vid) <- settings k ;;
     after k (cb_ui (set_sweeping true)) ;;
     i <- self_inst k ;;
     _configure_sa i start_val stop_val pts bw_res bw_vid ;;
     i <- self_inst k ;;
     _single_sweep i ;;
     i <- self_inst k ;;
     tr <- _read_trace_ascii_block i ;;
     after k (cb_update_plot (fst tr) (snd tr)) ;;
     message_and_button k
       (after k (cb_ui (set_message "Sweep completed" false)))
       (after k (cb_ui (set_sweeping false))))
    (fun e =>
       message_and_button k
         (after k (cb_ui (set_message "Sweep error" true)))
         (after k (cb_ui (set_sweeping false))) ;;
       after k (cb_ui (showerror_exn e))).

(** [DualSAViewer.sweep1] / [sweep2] *)
Definition sweep (k : sid) : M unit :=
  i <- attr k inst ;;
  match i with
  | None => call k (showerror "not connected")
  | Some _ => record (ESpawn k sweep_thread)
  end.

Definition sweep1 : M unit := sweep SA1.
Definition sweep2 : M unit := sweep SA2.

(** One pass of the body of the [while] loop of [do_continuous]. *)
Definition iteration (k : sid) : M unit :=
  i <- self_inst k ;;
  write i INIT ;;
  i <- self_inst k ;;
  write i SWE_TIME_q ;;
  sleep f0_2 ;;
  sweep_time <- try_except
                  (i <- self_inst k ;;
                   text <- read i ;;
                   lift (float_ text))
                  (fun _ => ret f1_5) ;;
  sleep (max_ f1_5 (fmul sweep_time f1_2)) ;;
  i <- self_inst k ;;
  tr <- _read_trace_ascii_block i ;;
  after k (cb_update_plot (fst tr) (snd tr)).

(** [while self.continuous1 and self.inst1 is not None: try: ... except:
    ...; break]. The fuel bounds the number of passes. *)
Fixpoint while_loop (k : sid) (fuel sweep_count : nat) : M unit :=
  match fuel with
  | O => fun w => Unfinished w
  | S fuel' =>
      c <- self_continuous k ;;
      if c : bool then
        i <- self_inst k ;;
        match i with
        | None => ret tt
        | Some _ =>
            go_on <- try_except
                       (iteration k ;; ret true)
                       (fun sweep_err =>
                          print (sweep_error sweep_count sweep_err) ;;
                          sleep f0_5 ;;
                          ret false) ;;
            if go_on : bool then while_loop k fuel' (S sweep_count)
            else ret tt
        end
      else ret tt
  end.

(** The [finally] block of [do_continuous]. *)
Definition restore (k : sid) : M unit :=
  try_except (i <- self_inst k ;; write i INIT_CONT_OFF) (fun _ => ret tt) ;;
  assign k (set_continuous false) ;;
  after k (cb_ui (set_continuous_active false)).

(** The thread body [do_continuous] of [_start_continuous1] /
    [_start_continuous2]. *)
Definition do_continuous (k : sid) (fuel : nat) : M unit :=
  try_finally
    (try_except
       ('(start_val, stop_val, pts, bw_res, bw_vid) <- settings k ;;
        i <- self_inst k ;;
        _configure_sa i start_val stop_val pts bw_res bw_vid ;;
        i <- self_inst k ;;
        write i INIT_CONT_OFF ;;
        sleep f0_3 ;;
        i <- self_inst k ;;
        original_timeout <- get_timeout i ;;
        i <- self_inst k ;;
        set_timeout i 30000 ;;
        while_loop k fuel 0 ;;
        i <- self_inst k ;;
        set_timeout i original_timeout)
       (fun e =>
          print (setup_error e) ;;
          after k (cb_ui (set_message "Sweep error" true))))
    (restore k).

(* ================================================================= *)
(** ** Initial state *)

(** A [SpectrumAnalyzerPanel] as its constructor leaves it. *)
Definition panel_init : panel :=
  {| freq_mode := start_stop;
     center_entry := lit "1000"; span_entry := lit "2000";
     start_entry := lit "0"; stop_entry := lit "3000";
     points_var := lit "3001";
     bw_res_var := lit "1M"; bw_vid_var := lit "1M" |}.

Definition session_init : session :=
  {| inst := None; continuous := false; max_vals := None;
     max_freqs := None; sa_panel := panel_init; line_max := false |}.

(** [DualSAViewer.__init__] *)
Definition viewer_init : viewer :=
  {| rm := false; sa1 := session_init; sa2 := session_init |}.

(** A world around a viewer: the answers the transports will give and the
    handlers the main thread will run, nothing closed, nothing logged. *)
Definition world_of_viewer (v : viewer) (answers : list io)
    (acts : list (list action)) : world :=
  {| app := v; wire := answers; closed := []; timeouts := []; fresh := 0;
     arrivals := acts; log := [] |}.

(** A viewer whose session [k] holds transport [h]. *)
Definition connected (k : sid) (h : handle) (v : viewer) : viewer :=
  upd_sess k (set_inst (Some h)) v.

(** A viewer whose session [k] has its continuous flag set. *)
Definition running (k : sid) (v : viewer) : viewer :=
  upd_sess k (set_continuous true) v.

(** What a run shows, oldest event first. *)
Definition history {A} (o : outcome A) : list event := rev (log (world_of o)).

(** A panel in the given mode whose two fields of that mode hold the
    given texts. *)
Definition panel_with (m : mode) (first second : str) : panel :=
  match m with
  | start_stop =>
      {| freq_mode := start_stop;
         center_entry := center_entry panel_init;
         span_entry := span_entry panel_init;
         start_entry := first; stop_entry := second;
         points_var := points_var panel_init;
         bw_res_var := bw_res_var panel_init;
         bw_vid_var := bw_vid_var panel_init |}
  | center_span =>
      {| freq_mode := center_span;
         center_entry := first; span_entry := second;
         start_entry := start_entry panel_init;
         stop_entry := stop_entry panel_init;
         points_var := points_var panel_init;
         bw_res_var := bw_res_var panel_init;
         bw_vid_var := bw_vid_var panel_init |}
  end.

(** The character of a decimal digit. *)
Definition digit_char (n : nat) : ascii := ascii_of_nat (48 + n).

(** A definite-length block: ["#"], one digit giving the width of the
    length field, the length field, the payload. *)
Definition definite_block (field payload : str) : str :=
  "#"%char :: digit_char (length field) :: field ++ payload.

(** A world in which the main thread stays idle and transport [h] is
    open. *)
Definition calm (h : handle) (w : world) : Prop :=
  arrivals w = [] /\ is_closed h w = false.

(** World [w] after the events [evs] (oldest first), with [tl] left on
    the wire. *)
Definition after_events (evs : list event) (tl : list io) (w : world)
  : world :=
  {| app := app w; wire := tl; closed := closed w; timeouts := timeouts w;
     fresh := fresh w; arrivals := arrivals w; log := rev evs ++ log w |}.

(** A computation that never stays inside a loop. *)
Definition finishes {A} (m : M A) : Prop :=
  forall w w', m w <> Unfinished w'.

(** The start of the events of a configuration: a failed write is
    followed by the one error message and by nothing else. *)
Fixpoint stops_at_failure (evs : list event) : bool :=
  match evs with
  | [] => true
  | EWrite _ _ false :: rest =>
      match rest with
      | [EPrint (configuring_error _)] => true
      | _ => false
      end
  | _ :: rest => stops_at_failure rest
  end.

(** The round trips of [_read_trace_ascii_block] when every one of them
    succeeds. *)
Definition trace_query_events (h : handle) : list event :=
  [EWrite h SWE_POIN_q true; ESleep f0_2; ERead h true;
   EWrite h FREQ_STAR_q true; ESleep f0_2; ERead h true;
   EWrite h FREQ_STOP_q true; ESleep f0_2; ERead h true;
   EWrite h FORM_TRAC_DATA_ASCii true; ESleep f0_2;
   EWrite h TRAC_DATA_q_TRACE1 true; ESleep f0_3; ERead h true].

(** Point [i] of an axis of [n] points from [start] to [stop], before
    the last point is pinned to [stop]. *)
Definition axis_point (start stop : float) (n i : nat) : float :=
  let delta := fsub stop start in
  let div := float_of_Z (Z.of_nat n - 1) in
  let step := fdiv delta div in
  fadd (if feqb step (S754_zero false)
        then fmul (fdiv (float_of_Z (Z.of_nat i)) div) delta
        else fmul (float_of_Z (Z.of_nat i)) step)
       start.

(** The number of sweeps triggered (writes of [":INIT"]) since the main
    thread last ran a handler, read off a log (newest event first). *)
Fixpoint inits_since (l : list event) : nat :=
  match l with
  | [] => 0
  | EMain _ :: _ => 0
  | EWrite _ INIT _ :: r => S (inits_since r)
  | _ :: r => inits_since r
  end.

(** Session [k] runs on the open transport [h], and the one thing the
    main thread is still going to do is a press of the continuous button
    (a stop request), [j] worker steps from now. *)
Definition pending (k : sid) (h : handle) (j : nat) (w : world) : Prop :=
  arrivals w = repeat [] j ++ [[click_continuous k]] /\
  continuous (sess k (app w)) = true /\
  inst (sess k (app w)) = Some h /\
  is_closed h w = false.

(** The stop request has been served: the flag of session [k] is clear,
    the main thread stays idle, and at most [c] sweeps were triggered
    since. *)
Definition stopped (k : sid) (h : handle) (c : nat) (w : world) : Prop :=
  arrivals w = [] /\
  continuous (sess k (app w)) = false /\
  inst (sess k (app w)) = Some h /\
  is_closed h w = false /\
  inits_since (log w) <= c.

Definition winding (k : sid) (h : handle) (j c : nat) (w : world) : Prop :=
  (exists j', j' <= j /\ pending k h j' w) \/ stopped k h c w.

(** [m], started in a world of [P], finishes and leaves a world of [Q]
    (whether it returns or raises). *)
Definition hoare {A} (P : world -> Prop) (m : M A) (Q : world -> Prop)
  : Prop :=
  forall w, P w -> (forall w', m w <> Unfinished w') /\ Q (world_of (m w)).

(** A step that leaves alone what the main thread and the stop request
    are about. *)
Definition tame (w w' : world) : Prop :=
  arrivals w' = arrivals w /\ app w' = app w /\ closed w' = closed w /\
  inits_since (log w') = inits_since (log w).

(** The characters a number may begin with. *)
Definition head_ok (c : ascii) : bool :=
  is_digit c || Ascii.eqb c "+" || Ascii.eqb c "-" || Ascii.eqb c "."
  || Ascii.eqb (lower c) "i" || Ascii.eqb (lower c) "n".

(** A delay [time.sleep] accepts. *)
Definition fits (d : float) : bool :=
  let ns := fmul d f1e9 in
  negb (is_nan d) && (fleb fm2p63 ns && fleb ns f2p63) &&
  negb (fltb ns (S754_zero false) || feqb ns f2p63).

(* ================================================================= *)
(** ** Further code of the viewer *)

(** One of the three guarded blocks of [_reset_network]:
    [try: if self.inst1 is not None: self.inst1.close(); self.inst1 = None
     except: pass]. *)
Definition reset_inst (k : sid) : M unit :=
  try_except
    (i <- attr k inst ;;
     match i with
     | Some h => raw_close h
     | None => ret tt
     end ;;
     assign k (set_inst None))
    (fun _ => ret tt).

(** [DualSAViewer._reset_network] *)
Definition _reset_network : M unit :=
  print (rm_note "Resetting VISA resource manager...") ;;
  assign SA1 (set_continuous false) ;;
  assign SA2 (set_continuous false) ;;
  call SA1 (set_continuous_active false) ;;
  call SA2 (set_continuous_active false) ;;
  reset_inst SA1 ;;
  reset_inst SA2 ;;
  try_except
    (r <- (fun w => Returns (rm (app w)) w) ;;
     (if r : bool then library_call else ret tt) ;;
     modify (with_app (set_rm false)))
    (fun _ => ret tt) ;;
  call SA1 (set_connected false []) ;;
  call SA2 (set_connected false []) ;;
  call SA1 (set_message "Network reset - ready to reconnect" false) ;;
  call SA2 (set_message "Network reset - ready to reconnect" false) ;;
  call SA1 plot_clear ;;
  assign SA1 (set_line_max false) ;;
  call SA2 plot_clear ;;
  assign SA2 (set_line_max false) ;;
  assign SA1 (set_max None None) ;;
  assign SA2 (set_max None None) ;;
  print (rm_note "Network reset complete").

(** [display_idn] of [SpectrumAnalyzerPanel.set_connected]:
    [idn[:30] + "..." if len(idn) > 30 else idn]. *)
Definition display_idn (idn : str) : str :=
  if (30 <? length idn)%nat then firstn 30 idn ++ lit "..." else idn.

(** [SpectrumAnalyzerPanel._handle_connect]: the address entry is
    stripped and handed to the viewer's [connect1] / [connect2]. *)
Definition _handle_connect (k : sid) (ip_entry : str) : M unit :=
  connect k (string_of_list_ascii (strip ip_entry)).

(** *** [np.argmin] *)

(** [np.argmin] scanning on from a best value found at [best_i]: a later
    value takes over when the best so far is not at most it (so when it
    is smaller, or is NaN); once the best is NaN the scan is over. *)
Fixpoint argmin_from (best : float) (best_i i : nat) (l : list float) : nat :=
  match l with
  | [] => best_i
  | v :: r =>
      if is_nan best then best_i
      else if negb (fleb best v) then argmin_from v i (S i) r
      else argmin_from best best_i (S i) r
  end.

(** [np.argmin(a)] of a one-dimensional array. *)
Definition argmin (a : list float) : result nat :=
  match a with
  | [] => Raise ValueError
  | v :: r => Ok (argmin_from v 0 1 r)
  end.

(* ================================================================= *)
(** ** The plot of one analyzer *)

(** [SpectrumPlot], as far as its own attributes go: the data it keeps,
    the marker, and the bookkeeping of the zoom. The axes and the canvas
    are Matplotlib's: what a method reads from them is an argument of
    the method here, what it asks of them about limits is recorded, and
    errors that Matplotlib itself may raise are not modelled.
    [marker_annotation], which is never anything but [None], has no
    field. The export methods [_save_csv] and [_save_excel], which work
    on dialogs and files, are not embedded. *)

Module SpectrumPlot.

(** A pair of axis limits, as [ax.get_xlim()] returns it. *)
Definition lim : Type := (float * float)%type.

(** What the plot asks of its axes about limits, and what it reports to
    the viewer. Calls that only draw (lines, patches, legend, labels,
    canvas redraws) are not recorded. *)
Inductive request : Type :=
| set_xlim (limits : lim)
| set_ylim (limits : lim)
| autoscale_x
| ax_clear
| on_marker_update (freq val : float) (max_val : option float).

(** The attributes of a [SpectrumPlot]; of an attribute that holds a
    Matplotlib object only whether it is set. [zoom_start_x] and
    [zoom_start_y] are always assigned together and are one attribute
    here. [requests] is the record of what the plot asked, newest
    first. *)
Record plot : Type := {
  line_current : bool;
  line_max : bool;
  current_freqs : option (list float);
  current_vals : option (list float);
  current_max_vals : option (list float);
  previous_freq_range : option (float * float);
  marker_line : bool;
  marker_dot : bool;
  marker_x : option float;
  dragging : bool;
  zoom_dragging : bool;
  zoom_start : option (float * float);
  zoom_rect : bool;
  zoom_history : list (lim * lim);
  original_xlim : option lim;
  original_ylim : option lim;
  requests : list request
}.

(** [0.01], and the module constants [YMIN_DBM] and [YMAX_DBM]. *)
Definition f0_01 : float := Eval vm_compute in dec 1 (-2).
Definition YMIN_DBM : float := Eval vm_compute in float_of_Z (-120).
Definition YMAX_DBM : float := Eval vm_compute in float_of_Z 0.

(** [SpectrumPlot.__init__] *)
Definition init : plot :=
  {| line_current := false; line_max := false;
     current_freqs := None; current_vals := None; current_max_vals := None;
     previous_freq_range := None;
     marker_line := false; marker_dot := false; marker_x := None;
     dragging := false; zoom_dragging := false; zoom_start := None;
     zoom_rect := false; zoom_history := [];
     original_xlim := None; original_ylim := None;
     requests := [set_ylim (YMIN_DBM, YMAX_DBM)] |}.

(** A method returns or raises, and leaves the plot in a state either
    way. *)
Inductive run : Type :=
| done (p : plot)
| failed (e : exn) (p : plot).

Definition state_of (r : run) : plot :=
  match r with done p => p | failed _ p => p end.

Definition and_then (r : run) (k : plot -> run) : run :=
  match r with
  | done p => k p
  | failed e p => failed e p
  end.

Definition ask (q : request) (p : plot) : plot :=
  {| line_current := line_current p; line_max := line_max p;
     current_freqs := current_freqs p; current_vals := current_vals p;
     current_max_vals := current_max_vals p;
     previous_freq_range := previous_freq_range p;
     marker_line := marker_line p; marker_dot := marker_dot p;
     marker_x := marker_x p;
     dragging := dragging p; zoom_dragging := zoom_dragging p;
     zoom_start := zoom_start p; zoom_rect := zoom_rect p;
     zoom_history := zoom_history p;
     original_xlim := original_xlim p; original_ylim := original_ylim p;
     requests := q :: requests p |}.

Definition set_data (fs vs mvs : option (list float)) (p : plot) : plot :=
  {| line_current := line_current p; line_max := line_max p;
     current_freqs := fs; current_vals := vs; current_max_vals := mvs;
     previous_freq_range := previous_freq_range p;
     marker_line := marker_line p; marker_dot := marker_dot p;
     marker_x := marker_x p;
     dragging := dragging p; zoom_dragging := zoom_dragging p;
     zoom_start := zoom_start p; zoom_rect := zoom_rect p;
     zoom_history := zoom_history p;
     original_xlim := original_xlim p; original_ylim := original_ylim p;
     requests := requests p |}.

Definition set_lines (cur mx : bool) (range : option (float * float))
    (p : plot) : plot :=
  {| line_current := cur; line_max := mx;
     current_freqs := current_freqs p; current_vals := current_vals p;
     current_max_vals := current_max_vals p;
     previous_freq_range := range;
     marker_line := marker_line p; marker_dot := marker_dot p;
     marker_x := marker_x p;
     dragging := dragging p; zoom_dragging := zoom_dragging p;
     zoom_start := zoom_start p; zoom_rect := zoom_rect p;
     zoom_history := zoom_history p;
     original_xlim := original_xlim p; original_ylim := original_ylim p;
     requests := requests p |}.

Definition set_marker (x : option float) (line dot : bool) (p : plot)
  : plot :=
  {| line_current := line_current p; line_max := line_max p;
     current_freqs := current_freqs p; current_vals := current_vals p;
     current_max_vals := current_max_vals p;
     previous_freq_range := previous_freq_range p;
     marker_line := line; marker_dot := dot; marker_x := x;
     dragging := dragging p; zoom_dragging := zoom_dragging p;
     zoom_start := zoom_start p; zoom_rect := zoom_rect p;
     zoom_history := zoom_history p;
     original_xlim := original_xlim p; original_ylim := original_ylim p;
     requests := requests p |}.

Definition set_drag (d zd : bool) (start : option (float * float))
    (rect : bool) (p : plot) : plot :=
  {| line_current := line_current p; line_max := line_max p;
     current_freqs := current_freqs p; current_vals := current_vals p;
     current_max_vals := current_max_vals p;
     previous_freq_range := previous_freq_range p;
     marker_line := marker_line p; marker_dot := marker_dot p;
     marker_x := marker_x p;
     dragging := d; zoom_dragging := zd; zoom_start := start;
     zoom_rect := rect;
     zoom_history := zoom_history p;
     original_xlim := original_xlim p; original_ylim := original_ylim p;
     requests := requests p |}.

Definition set_zoom (history : list (lim * lim)) (ox oy : option lim)
    (p : plot) : plot :=
  {| line_current := line_current p; line_max := line_max p;
     current_freqs := current_freqs p; current_vals := current_vals p;
     current_max_vals := current_max_vals p;
     previous_freq_range := previous_freq_range p;
     marker_line := marker_line p; marker_dot := marker_dot p;
     marker_x := marker_x p;
     dragging := dragging p; zoom_dragging := zoom_dragging p;
     zoom_start := zoom_start p; zoom_rect := zoom_rect p;
     zoom_history := history; original_xlim := ox; original_ylim := oy;
     requests := requests p |}.

(** [a[0]] and [a[-1]] of an array. *)
Definition first (a : list float) : result float :=
  match a with
  | x :: _ => Ok x
  | [] => Raise IndexError
  end.

Definition last (a : list float) : result float :=
  match rev a with
  | x :: _ => Ok x
  | [] => Raise IndexError
  end.

(** [a[i]] for an index the code computed. *)
Definition item (a : list float) (i : nat) : result float :=
  match nth_error a i with
  | Some x => Ok x
  | None => Raise IndexError
  end.

(** The builtin [min(a, b)] of two floats: the first minimal one. *)
Definition min_ (a b : float) : float := if fltb b a then b else a.

Definition fabs : float -> float := SFabs.


(** A pure step that may raise, inside a method. *)
Definition try_ {A} (r : result A) (p : plot) (k : A -> run) : run :=
  match r with
  | Ok a => k a
  | Raise e => failed e p
  end.

(** [SpectrumPlot._update_marker] *)
Definition _update_marker (x_pos : float) (p : plot) : run :=
  match current_freqs p, current_vals p with
  | Some freqs, Some vals =>
      try_ (first freqs) p (fun lo =>
      if fltb x_pos lo then done p
      else
      try_ (last freqs) p (fun hi =>
      if fltb hi x_pos then done p
      else
      try_ (argmin (map (fun f => fabs (fsub f x_pos)) freqs)) p
        (fun idx =>
      try_ (item freqs idx) p (fun freq =>
      try_ (item vals idx) p (fun val =>
      try_ (match current_max_vals p with
            | Some mv => rbind (item mv idx) (fun v => Ok (Some v))
            | None => Ok None
            end) p (fun max_val =>
      done (ask (on_marker_update freq val max_val)
              (set_marker (Some freq) true true p))))))))
  | _, _ => done p
  end.

(** A mouse event of Matplotlib: outside the axes ([inaxes], [xdata] and
    [ydata] are [None]), or inside them with a button and a position. *)
Inductive mouse : Type :=
| outside
| inside (button : Z) (xdata ydata : float).

(** [SpectrumPlot._on_click] *)
Definition _on_click (event : mouse) (p : plot) : run :=
  match event, current_freqs p with
  | inside button xdata ydata, Some _ =>
      if (button =? 3)%Z
      then done (set_drag (dragging p) true (Some (xdata, ydata))
                   (zoom_rect p) p)
      else _update_marker xdata
             (set_drag true (zoom_dragging p) (zoom_start p) (zoom_rect p) p)
  | _, _ => done p
  end.

(** [SpectrumPlot._on_motion] *)
Definition _on_motion (event : mouse) (p : plot) : run :=
  match event, current_freqs p with
  | inside _ xdata ydata, Some _ =>
      match zoom_dragging p, zoom_start p with
      | true, Some _ =>
          done (set_drag (dragging p) true (zoom_start p) true p)
      | _, _ =>
          if dragging p then _update_marker xdata p else done p
      end
  | _, _ => done p
  end.

(** [SpectrumPlot._on_release]; [view] is what [ax.get_xlim()] and
    [ax.get_ylim()] return. *)
Definition _on_release (event : mouse) (view : lim * lim) (p : plot) : run :=
  match zoom_dragging p, zoom_start p, event with
  | true, Some (x0, y0), inside _ xdata ydata =>
      let x_min := min_ x0 xdata in
      let x_max := max_ x0 xdata in
      let y_min := min_ y0 ydata in
      let y_max := max_ y0 ydata in
      let p1 :=
        if fltb f0_01 (fabs (fsub x_max x_min)) then
          let ox := match original_xlim p with
                    | None => Some (fst view)
                    | Some l => Some l
                    end in
          let oy := match original_ylim p with
                    | None => Some (snd view)
                    | Some l => Some l
                    end in
          ask (set_ylim (y_min, y_max))
            (ask (set_xlim (x_min, x_max))
               (set_zoom (zoom_history p ++ [view]) ox oy p))
        else p in
      done (set_drag (dragging p1) false None false p1)
  | _, _, _ =>
      done (set_drag false (zoom_dragging p) (zoom_start p) (zoom_rect p) p)
  end.

(** [SpectrumPlot.update_data] *)
Definition update_data (freqs_mhz vals : list float)
    (max_freqs_mhz max_vals : option (list float)) (p : plot) : run :=
  let p1 := set_data (Some freqs_mhz) (Some vals) max_vals p in
  try_ (first freqs_mhz) p1 (fun lo =>
  try_ (last freqs_mhz) p1 (fun hi =>
  let freq_range_changed :=
    match previous_freq_range p1 with
    | Some (plo, phi) =>
        fltb f0_1 (fabs (fsub plo lo)) || fltb f0_1 (fabs (fsub phi hi))
    | None => false
    end in
  let p2 := if freq_range_changed
            then set_zoom [] None None p1 else p1 in
  let p3 :=
    set_lines true
      (match max_vals, max_freqs_mhz with
       | Some _, Some _ => true
       | _, _ => line_max p2
       end)
      (Some (lo, hi)) p2 in
  let p4 := if freq_range_changed then ask (set_xlim (lo, hi)) p3
            else ask autoscale_x p3 in
  let p5 := ask (set_ylim (YMIN_DBM, YMAX_DBM)) p4 in
  match marker_x p5 with
  | Some x => _update_marker x p5
  | None => done p5
  end)).

(** [SpectrumPlot._reset_zoom] *)
Definition _reset_zoom (p : plot) : run :=
  and_then
    (match original_xlim p with
     | Some l => done (ask (set_xlim l) p)
     | None =>
         match current_freqs p with
         | Some freqs =>
             try_ (first freqs) p (fun lo =>
             try_ (last freqs) p (fun hi =>
             done (ask (set_xlim (lo, hi)) p)))
         | None => done p
         end
     end)
    (fun p1 =>
       done (set_zoom [] None None (ask (set_ylim (YMIN_DBM, YMAX_DBM)) p1))).

(** [SpectrumPlot.clear] *)
Definition clear (p : plot) : run :=
  done
    {| line_current := false; line_max := false;
       current_freqs := None; current_vals := None;
       current_max_vals := None; previous_freq_range := None;
       marker_line := false; marker_dot := false; marker_x := None;
       dragging := dragging p; zoom_dragging := zoom_dragging p;
       zoom_start := zoom_start p; zoom_rect := zoom_rect p;
       zoom_history := []; original_xlim := None; original_ylim := None;
       requests := set_ylim (YMIN_DBM, YMAX_DBM) :: ax_clear :: requests p |}.

(** What the user and the viewer do to a plot. *)
Inductive operation : Type :=
| click (event : mouse)
| motion (event : mouse)
| release (event : mouse) (view : lim * lim)
| new_trace (freqs_mhz vals : list float)
            (max_freqs_mhz max_vals : option (list float))
| reset_zoom_button
| cleared
| peak_reset.

Definition perform (p : plot) (o : operation) : plot :=
  state_of
    match o with
    | click event => _on_click event p
    | motion event => _on_motion event p
    | release event view => _on_release event view p
    | new_trace f v mf mv => update_data f v mf mv p
    | reset_zoom_button => _reset_zoom p
    | cleared => clear p
    | peak_reset =>
        done (set_lines (line_current p) false (previous_freq_range p) p)
    end.

Definition is_mouse (o : operation) : bool :=
  match o with
  | click _ | motion _ | release _ _ => true
  | _ => false
  end.

Definition is_none {A} (o : option A) : bool :=
  match o with None => true | Some _ => false end.

Definition is_nil {A} (l : list A) : bool :=
  match l with [] => true | _ :: _ => false end.

(** The bookkeeping of the zoom: an original view is remembered exactly
    while the history is not empty, a zoom drag is under way exactly
    while its start is known, and the rubber band exists only during a
    zoom drag. *)
Definition zoom_ok (p : plot) : bool :=
  Bool.eqb (is_none (original_xlim p)) (is_nil (zoom_history p)) &&
  Bool.eqb (is_none (original_ylim p)) (is_nil (zoom_history p)) &&
  Bool.eqb (zoom_dragging p) (negb (is_none (zoom_start p))) &&
  implb (zoom_rect p) (zoom_dragging p).

End SpectrumPlot.

(* ================================================================= *)
(** ** The layout of the two plots *)

(** The three attributes of [DualSAViewer] that govern the split between
    the two plot frames, and the handlers that use them. The heights of
    the frames are Tk's: what [winfo_height()] returns is an argument,
    what is passed to [configure(height=...)] is a result. *)

Module Layout.

(** [self.fullscreen_mode], [self.divider_dragging] and
    [self.divider_start_y] of [DualSAViewer]. *)
Record layout : Type := {
  fullscreen_mode : option Z;
  divider_dragging : bool;
  divider_start_y : Z
}.

(** As [__init__] and [_build_ui] leave them. *)
Definition init : layout :=
  {| fullscreen_mode := None; divider_dragging := false;
     divider_start_y := 0 |}.

(** [DualSAViewer._toggle_fullscreen]: the new state, and the heights
    configured for the two plot frames when the mode changes. *)
Definition _toggle_fullscreen (mode : option Z) (s : layout)
  : layout * option (Z * Z) :=
  let same := match fullscreen_mode s, mode with
              | None, None => true
              | Some a, Some b => (a =? b)%Z
              | _, _ => false
              end in
  if same then (s, None)
  else
    let s' := {| fullscreen_mode := mode;
                 divider_dragging := divider_dragging s;
                 divider_start_y := divider_start_y s |} in
    match mode with
    | None => (s', Some (-1, -1)%Z)
    | Some m =>
        if (m =? 1)%Z then (s', Some (600, 100)%Z)
        else if (m =? 2)%Z then (s', Some (100, 600)%Z)
        else (s', None)
    end.

(** [DualSAViewer._on_divider_press] *)
Definition _on_divider_press (y_root : Z) (s : layout) : layout :=
  {| fullscreen_mode := fullscreen_mode s; divider_dragging := true;
     divider_start_y := y_root |}.

(** [DualSAViewer._on_divider_drag]: [heights] is what the two
    [winfo_height()] calls return; the result holds the heights
    configured for the two plot frames, if any. *)
Definition _on_divider_drag (y_root : Z) (heights : Z * Z) (s : layout)
  : layout * option (Z * Z) :=
  if negb (divider_dragging s)
     || match fullscreen_mode s with Some _ => true | None => false end
  then (s, None)
  else
    let delta := (y_root - divider_start_y s)%Z in
    if (Z.abs delta <? 2)%Z then (s, None)
    else
      let s' := {| fullscreen_mode := fullscreen_mode s;
                   divider_dragging := divider_dragging s;
                   divider_start_y := y_root |} in
      let new_plot1_height := Z.max 150 (fst heights + delta) in
      let new_plot2_height := Z.max 150 (snd heights - delta) in
      if (150 <? new_plot1_height)%Z && (150 <? new_plot2_height)%Z
      then (s', Some (new_plot1_height, new_plot2_height))
      else (s', None).

(** [DualSAViewer._on_divider_release] *)
Definition _on_divider_release (s : layout) : layout :=
  {| fullscreen_mode := fullscreen_mode s; divider_dragging := false;
     divider_start_y := divider_start_y s |}.

End Layout.

(* ================================================================= *)
(** ** Vocabulary of the further properties *)

(** The two callbacks with which [do_sweep] ends, newest first: the sweep
    button is released and the message is set, in the order of the text
    of the session. *)
Definition closing (k : sid) (message : string) (is_error : bool)
  : list event :=
  match k with
  | SA1 => [EAfter k (cb_ui (set_sweeping false));
            EAfter k (cb_ui (set_message message is_error))]
  | SA2 => [EAfter k (cb_ui (set_message message is_error));
            EAfter k (cb_ui (set_sweeping false))]
  end.

(** The window stays open: the handler of its close button has not run,
    and it is none of the handlers still to run. *)
Definition window_stays (w : world) : Prop :=
  ~ In (EMain close_window) (log w) /\
  Forall (fun acts => ~ In close_window acts) (arrivals w).

(** A step of a worker while the main thread stays idle: it leaves the
    attributes of the viewer, the set of closed transports and the
    timeouts alone, and the answers still to come can only get fewer. *)
Definition quiet (w w' : world) : Prop :=
  arrivals w' = [] /\ app w' = app w /\ closed w' = closed w /\
  timeouts w' = timeouts w /\ length (wire w') <= length (wire w).

(** [m] run from a world whose main thread stays idle: it ends, and
    the step it makes is [quiet]. *)
Definition quietly {A} (m : M A) : Prop :=
  forall w, arrivals w = [] ->
    (forall w', m w <> Unfinished w') /\ quiet w (world_of (m w)).

(** What a configuration that meets no failure shows: the nine commands
    in the order of the text, each but the first followed by a pause. *)
Definition configuration_events (h : handle) (rbw : scpi)
    (start_mhz stop_mhz : float) (points : Z) (vid : float) : list event :=
  let start_hz := fmul start_mhz f1e6 in
  let stop_hz := fmul stop_mhz f1e6 in
  [EWrite h rbw true;
   EWrite h (FREQ_STAR start_hz) true; ESleep f0_1;
   EWrite h (FREQ_STOP stop_hz) true; ESleep f0_1;
   EWrite h (FREQ_CENT (fdiv (fadd start_hz stop_hz) f2)) true; ESleep f0_1;
   EWrite h (FREQ_SPAN (fsub stop_hz start_hz)) true; ESleep f0_1;
   EWrite h (SWE_POIN points) true; ESleep f0_1;
   EWrite h (BAND_VID vid) true; ESleep f0_1;
   EWrite h DET_POS true; ESleep f0_1;
   EWrite h FORM_TRAC_DATA_ASCii true; ESleep f0_1].

(** The resolution-bandwidth command a setting stands for, if any. *)
Definition resolution_command (bw_res : str) : result scpi :=
  if str_eqb bw_res (lit "auto") then Ok BAND_RES_AUTO_ON
  else rbind (bandwidth_hz bw_res) (fun hz => Ok (BAND_RES hz)).

(* ================================================================= *)
(** * Properties *)

Local Open Scope char_scope.

(** ** Frequency-range resolution *)

Lemma float_raises_ValueError (x : str) (e : exn) :
  float_ x = Raise e -> e = ValueError.
Proof.
  unfold float_.
  destruct (drop_underscores false (strip_by isspace_num x)) as [b|];
    [|congruence].
  destruct (take_sign b) as [neg body].
  destruct (str_eqb _ _ || str_eqb _ _); [discriminate|].
  destruct (str_eqb _ _); [discriminate|].
  destruct (scan_decimal body) as [[m ex]|]; congruence.
Qed.

Lemma replace_app (c : ascii) (by_ x y : str) :
  replace c by_ (x ++ y) = replace c by_ x ++ replace c by_ y.
Proof. unfold replace. apply flat_map_app. Qed.

Lemma entry_float_comma (a b : str) :
  entry_float (a ++ "," :: b) = entry_float (a ++ "." :: b).
Proof.
  unfold entry_float.
  rewrite !replace_app. reflexivity.
Qed.

(** C9. With numeric fields, [_get_freq_range_for_panel] returns in
    start/stop mode the two fields as they are, and in center/span mode
    [(center - span/2, center + span/2)]; a field written with a comma as
    decimal separator has the value of the same field written with a
    point. *)
Theorem resolve_numeric_fields (p : panel) (x y : float) :
  (freq_mode p = start_stop ->
   entry_float (start_entry p) = Ok x ->
   entry_float (stop_entry p) = Ok y ->
   _get_freq_range_for_panel p = Ok (x, y)) /\
  (freq_mode p = center_span ->
   entry_float (center_entry p) = Ok x ->
   entry_float (span_entry p) = Ok y ->
   _get_freq_range_for_panel p
   = Ok (fsub x (fdiv y f2), fadd x (fdiv y f2))) /\
  (forall a b : str,
     entry_float (a ++ "," :: b) = entry_float (a ++ "." :: b)).
Proof.
  unfold _get_freq_range_for_panel.
  repeat split.
  - intros -> -> ->. reflexivity.
  - intros -> -> ->. reflexivity.
  - apply entry_float_comma.
Qed.

(** The two resolutions the specification lists:
    start 0, stop 3000 gives (0, 3000); center 1000, span 2000 gives
    (0, 2000); and "2,5" reads as "2.5". *)
Lemma resolve_numeric_fields_witness :
  _get_freq_range_for_panel (panel_with start_stop (lit "0") (lit "3000"))
  = Ok (dec 0 0, dec 3000 0) /\
  _get_freq_range_for_panel (panel_with center_span (lit "1000") (lit "2000"))
  = Ok (dec 0 0, dec 2000 0) /\
  entry_float (lit "2,5") = entry_float (lit "2.5").
Proof.
  split; [|split].
  - apply (proj1 (resolve_numeric_fields
                    (panel_with start_stop (lit "0") (lit "3000"))
                    (dec 0 0) (dec 3000 0)));
      vm_compute; reflexivity.
  - apply (proj1 (proj2 (resolve_numeric_fields
                    (panel_with center_span (lit "1000") (lit "2000"))
                    (dec 1000 0) (dec 2000 0))));
      vm_compute; reflexivity.
  - apply (proj2 (proj2 (resolve_numeric_fields panel_init f2 f2))
             (lit "2") (lit "5")).
Defined.

(** C1, as stated, fails: start 10 and stop 10 are numeric with
    start >= stop, and the resolution returns the range (10, 10) instead
    of failing. *)
Lemma resolve_equal_bounds_returns :
  fleb (dec 10 0) (dec 10 0) = true /\
  _get_freq_range_for_panel (panel_with start_stop (lit "10") (lit "10"))
  = Ok (dec 10 0, dec 10 0) /\
  ~ (exists e,
       _get_freq_range_for_panel (panel_with start_stop (lit "10") (lit "10"))
       = Raise e).
Proof.
  split; [vm_compute; reflexivity|].
  assert (H : _get_freq_range_for_panel
                (panel_with start_stop (lit "10") (lit "10"))
              = Ok (dec 10 0, dec 10 0)) by (vm_compute; reflexivity).
  split; [exact H|].
  intros [e He]. rewrite H in He. discriminate.
Qed.

(** C1, amended. In start/stop mode the resolution fails exactly when one
    of the two fields is not numeric, and then with [ValueError]; two
    numeric fields are returned as they are, whatever their order. *)
Theorem resolve_start_stop_failure (p : panel) :
  freq_mode p = start_stop ->
  (forall x y,
     entry_float (start_entry p) = Ok x ->
     entry_float (stop_entry p) = Ok y ->
     _get_freq_range_for_panel p = Ok (x, y)) /\
  ((exists e, _get_freq_range_for_panel p = Raise e) <->
   (exists e, entry_float (start_entry p) = Raise e) \/
   (exists e, entry_float (stop_entry p) = Raise e)) /\
  (forall e, _get_freq_range_for_panel p = Raise e -> e = ValueError).
Proof.
  intros Hm. unfold _get_freq_range_for_panel. rewrite Hm.
  repeat split.
  - intros x y -> ->. reflexivity.
  - intros [e He].
    destruct (entry_float (start_entry p)) as [x|e1] eqn:E1;
      [|left; eauto].
    destruct (entry_float (stop_entry p)) as [y|e2] eqn:E2;
      [discriminate|right; eauto].
  - intros [[e He]|[e He]].
    + rewrite He. simpl. eauto.
    + rewrite He.
      destruct (entry_float (start_entry p)); simpl; eauto.
  - intros e.
    destruct (entry_float (start_entry p)) as [x|e1] eqn:E1; simpl.
    + destruct (entry_float (stop_entry p)) as [y|e2] eqn:E2; simpl;
        [discriminate|].
      intros [= <-]. exact (float_raises_ValueError _ _ E2).
    + intros [= <-]. exact (float_raises_ValueError _ _ E1).
Qed.

(** At start 10, stop 10 the amended statement gives the range (10, 10);
    at a start field that is not a number it gives [ValueError]. *)
Lemma resolve_start_stop_failure_witness :
  _get_freq_range_for_panel (panel_with start_stop (lit "10") (lit "10"))
  = Ok (dec 10 0, dec 10 0) /\
  (forall e,
     _get_freq_range_for_panel (panel_with start_stop (lit "abc") (lit "10"))
     = Raise e -> e = ValueError).
Proof.
  split.
  - apply (proj1 (resolve_start_stop_failure
                    (panel_with start_stop (lit "10") (lit "10")) eq_refl));
      vm_compute; reflexivity.
  - apply (proj2 (proj2 (resolve_start_stop_failure
                    (panel_with start_stop (lit "abc") (lit "10")) eq_refl))).
Defined.

(** ** Sessions of the viewer *)

Lemma sess_upd_same (k : sid) (f : session -> session) (v : viewer) :
  sess k (upd_sess k f v) = f (sess k v).
Proof. destruct k; reflexivity. Qed.

Lemma sess_upd_other (k : sid) (f : session -> session) (v : viewer) :
  sess (other k) (upd_sess k f v) = sess (other k) v.
Proof. destruct k; reflexivity. Qed.

(** ** Peak hold *)

Lemma maximum_length (a b : list float) :
  length a = length b -> length (Np.maximum a b) = length b.
Proof.
  intros H. unfold Np.maximum.
  rewrite length_map, length_combine, H. apply Nat.min_id.
Qed.

Lemma maximum_nth (a b : list float) (i : nat) (d : float) :
  i < length a -> i < length b ->
  nth i (Np.maximum a b) d = Np.maximum1 (nth i a d) (nth i b d).
Proof.
  revert b i.
  induction a as [|x a IH]; intros [|y b] [|i] Ha Hb; simpl in *;
    try lia; try reflexivity.
  apply IH; lia.
Qed.

Lemma compare_cont_refl (m : positive) : Pos.compare_cont Eq m m = Eq.
Proof.
  rewrite Pos.compare_cont_spec, Pos.compare_refl. reflexivity.
Qed.

Lemma compare_cont_flip (p q : positive) :
  PosDef.Pos.compare_cont Eq q p = CompOpp (PosDef.Pos.compare_cont Eq p q).
Proof. symmetry. exact (Pos.compare_cont_antisym p q Eq). Qed.

Lemma SFcompare_antisym (x y : float) (c : comparison) :
  SFcompare x y = Some c -> SFcompare y x = Some (CompOpp c).
Proof.
  destruct x as [sx|sx| |sx mx ex], y as [sy|sy| |sy my ey]; simpl;
    try discriminate;
    try (destruct sx); try (destruct sy); simpl;
    try (intros [= <-]; reflexivity).
  - rewrite (Z.compare_antisym ex ey).
    destruct (ex ?= ey)%Z; simpl; intros [= <-]; try reflexivity.
    rewrite (compare_cont_flip mx my). reflexivity.
  - rewrite (Z.compare_antisym ex ey).
    destruct (ex ?= ey)%Z; simpl; intros [= <-]; try reflexivity.
    rewrite (compare_cont_flip mx my). reflexivity.
Qed.

Lemma SFcompare_total (x y : float) :
  is_nan x = false -> is_nan y = false -> exists c, SFcompare x y = Some c.
Proof.
  destruct x, y; simpl; try discriminate; eauto.
Qed.

Lemma fleb_refl (x : float) : is_nan x = false -> fleb x x = true.
Proof.
  unfold fleb, SFleb.
  destruct x as [s|s| |s m e]; simpl; try discriminate; try reflexivity.
  - destruct s; reflexivity.
  - destruct s; rewrite Z.compare_refl;
      change (PosDef.Pos.compare_cont Eq m m) with (Pos.compare_cont Eq m m);
      rewrite compare_cont_refl; reflexivity.
Qed.

(** Away from NaN, [np.maximum] is the greater of its arguments. *)
Lemma maximum1_is_max (x y : float) :
  is_nan x = false -> is_nan y = false ->
  (Np.maximum1 x y = x \/ Np.maximum1 x y = y) /\
  fleb x (Np.maximum1 x y) = true /\ fleb y (Np.maximum1 x y) = true.
Proof.
  intros Hx Hy. unfold Np.maximum1. rewrite Hx, orb_false_r.
  destruct (fleb y x) eqn:E.
  - split; [now left|]. split; [now apply fleb_refl|exact E].
  - split; [now right|]. split; [|now apply fleb_refl].
    destruct (SFcompare_total y x Hy Hx) as [c Hc].
    unfold fleb, SFleb in *. rewrite Hc in E.
    rewrite (SFcompare_antisym _ _ _ Hc).
    destruct c; simpl; congruence.
Qed.

Lemma update_plot_session (k : sid) (freqs vals : list float) (w : world) :
  let s := sess k (app w) in
  let nh := hold (max_freqs s) (max_vals s) freqs vals in
  let s' := sess k (app (world_of (_update_plot k freqs vals w))) in
  max_freqs s' = Some (fst nh) /\ max_vals s' = Some (snd nh).
Proof.
  cbv zeta.
  unfold _update_plot, bind, attr, assign, modify, update_data.
  destruct (hold _ _ freqs vals) as [nf nv].
  destruct freqs as [|f freqs']; simpl;
    rewrite ?sess_upd_same; simpl; split; reflexivity.
Qed.

Lemma reset_peak_session (k : sid) (w : world) :
  let s' := sess k (app (world_of (reset_peak k w))) in
  max_freqs s' = None /\ max_vals s' = None.
Proof.
  cbv zeta.
  unfold reset_peak, bind, attr, assign, modify, call, record.
  simpl. rewrite sess_upd_same. simpl.
  destruct (line_max (sess k (app w))); simpl;
    rewrite ?sess_upd_same; simpl; split; reflexivity.
Qed.

(** C4. [_update_plot] replaces the held arrays by the incoming trace
    when nothing is held or the held length differs; otherwise it keeps
    the held frequency axis and makes each held amplitude the maximum of
    the held and the incoming one; after [reset_peak] the next update
    starts again from the incoming trace. *)
Theorem peak_hold_update (k : sid) (freqs vals : list float) (w : world) :
  let s := sess k (app w) in
  let s' := sess k (app (world_of (_update_plot k freqs vals w))) in
  let s'' := sess k (app (world_of (_update_plot k freqs vals
                                      (world_of (reset_peak k w))))) in
  ((max_vals s = None \/ max_freqs s = None \/
    exists held, max_vals s = Some held /\ length held <> length vals) ->
   max_vals s' = Some vals /\ max_freqs s' = Some freqs) /\
  (forall held held_freqs,
     max_vals s = Some held -> max_freqs s = Some held_freqs ->
     length held = length vals ->
     max_freqs s' = Some held_freqs /\
     exists new,
       max_vals s' = Some new /\ length new = length vals /\
       forall i d, i < length vals ->
         nth i new d = Np.maximum1 (nth i held d) (nth i vals d)) /\
  (max_vals s'' = Some vals /\ max_freqs s'' = Some freqs).
Proof.
  cbv zeta.
  destruct (update_plot_session k freqs vals w) as [Hf Hv].
  destruct (update_plot_session k freqs vals (world_of (reset_peak k w)))
    as [Hf' Hv'].
  destruct (reset_peak_session k w) as [Rf Rv].
  cbv zeta in *.
  split; [|split].
  - rewrite Hf, Hv. unfold hold.
    intros [H|[H|[held [H Hlen]]]].
    + rewrite H. split; reflexivity.
    + rewrite H.
      destruct (max_vals (sess k (app w))); split; reflexivity.
    + rewrite H.
      destruct (max_freqs (sess k (app w))); [|split; reflexivity].
      apply Nat.eqb_neq in Hlen. rewrite Hlen. split; reflexivity.
  - intros held held_freqs Hh Hhf Hlen.
    rewrite Hf, Hv. unfold hold. rewrite Hh, Hhf, Hlen, Nat.eqb_refl.
    simpl. split; [reflexivity|].
    exists (Np.maximum held vals).
    split; [reflexivity|]. split; [now apply maximum_length|].
    intros i d Hi. apply maximum_nth; lia.
  - rewrite Hf', Hv', Rf, Rv. split; reflexivity.
Qed.

(** The sequence the specification lists: on a fresh viewer,
    update [1,2,3] then update [0,5,1] holds [1,5,3]; a reset followed
    by update [9] holds [9]. *)
Lemma peak_hold_update_witness :
  let axis3 := [dec 10 0; dec 20 0; dec 30 0] in
  let w0 := world_of_viewer viewer_init [] [] in
  let w1 := world_of (_update_plot1 axis3 [dec 1 0; dec 2 0; dec 3 0] w0) in
  let w2 := world_of (_update_plot1 axis3 [dec 0 0; dec 5 0; dec 1 0] w1) in
  let w3 := world_of (_update_plot1 [dec 10 0] [dec 9 0]
                        (world_of (reset_peak1 w2))) in
  max_vals (sa1 (app w1)) = Some [dec 1 0; dec 2 0; dec 3 0] /\
  max_vals (sa1 (app w2)) = Some [dec 1 0; dec 5 0; dec 3 0] /\
  max_freqs (sa1 (app w2)) = Some axis3 /\
  max_vals (sa1 (app w3)) = Some [dec 9 0] /\
  max_freqs (sa1 (app w3)) = Some [dec 10 0].
Proof.
  cbv zeta.
  set (axis3 := [dec 10 0; dec 20 0; dec 30 0]).
  set (w0 := world_of_viewer viewer_init [] []).
  set (w1 := world_of (_update_plot1 axis3 [dec 1 0; dec 2 0; dec 3 0] w0)).
  set (w2 := world_of (_update_plot1 axis3 [dec 0 0; dec 5 0; dec 1 0] w1)).
  pose proof (peak_hold_update SA1 axis3 [dec 1 0; dec 2 0; dec 3 0] w0)
    as [H1 _].
  pose proof (peak_hold_update SA1 axis3 [dec 0 0; dec 5 0; dec 1 0] w1)
    as [_ [H2 _]].
  pose proof (peak_hold_update SA1 [dec 10 0] [dec 9 0] w2) as [_ [_ H3]].
  cbv zeta in *.
  destruct (H1 (or_introl eq_refl)) as [E1 E1'].
  destruct (H2 [dec 1 0; dec 2 0; dec 3 0] axis3 E1 E1' eq_refl)
    as [E2' _].
  split; [exact E1|].
  split; [vm_compute; reflexivity|].
  split; [exact E2'|exact H3].
Defined.

(** ** Trace decoding *)

Lemma lstrip_app_last (sp : ascii -> bool) (x : str) (c : ascii) :
  sp c = false -> lstrip_by sp (x ++ [c]) = lstrip_by sp x ++ [c].
Proof.
  intros Hc. induction x as [|d x IH]; simpl.
  - rewrite Hc. reflexivity.
  - destruct (sp d); [exact IH|reflexivity].
Qed.

Lemma rstrip_cons (sp : ascii -> bool) (c : ascii) (x : str) :
  sp c = false -> rstrip_by sp (c :: x) = c :: rstrip_by sp x.
Proof.
  intros Hc. unfold rstrip_by. simpl.
  rewrite lstrip_app_last by exact Hc.
  rewrite rev_app_distr. reflexivity.
Qed.

Lemma strip_cons (sp : ascii -> bool) (c : ascii) (x : str) :
  sp c = false -> strip_by sp (c :: x) = c :: rstrip_by sp x.
Proof.
  intros Hc. unfold strip_by. simpl. rewrite Hc.
  apply rstrip_cons. exact Hc.
Qed.

Lemma rstrip_all (sp : ascii -> bool) (x : str) :
  forallb (fun c => negb (sp c)) x = true -> rstrip_by sp x = x.
Proof.
  induction x as [|c x IH]; simpl; [reflexivity|].
  intros H. apply andb_prop in H as [Hc Hx].
  apply negb_true_iff in Hc.
  rewrite rstrip_cons by exact Hc. rewrite IH by exact Hx. reflexivity.
Qed.

Lemma is_digit_not_space (c : ascii) :
  is_digit c = true -> isspace_num c = false.
Proof.
  unfold is_digit, isspace_num, between. intros H.
  apply andb_prop in H as [H1 H2].
  apply N.leb_le in H1. apply N.leb_le in H2.
  repeat match goal with
         | |- context [(?a <=? ?b)%N] => destruct (N.leb_spec a b); try lia
         end; reflexivity.
Qed.

Lemma is_digit_not (c d : ascii) :
  is_digit c = true -> is_digit d = false -> Ascii.eqb c d = false.
Proof.
  intros Hc Hd. destruct (Ascii.eqb_spec c d); [subst; congruence|reflexivity].
Qed.

Lemma digits_strip (x : str) :
  forallb is_digit x = true -> strip_by isspace_num x = x.
Proof.
  intros H. destruct x as [|c x]; [reflexivity|].
  simpl in H. apply andb_prop in H as [Hc Hx].
  rewrite strip_cons by (now apply is_digit_not_space).
  f_equal. apply rstrip_all.
  rewrite forallb_forall in *. intros d Hd.
  rewrite (is_digit_not_space d (Hx d Hd)). reflexivity.
Qed.

Lemma digits_drop_underscores (x : str) (prev : bool) :
  forallb is_digit x = true -> drop_underscores prev x = Some x.
Proof.
  revert prev. induction x as [|c x IH]; intros prev H; simpl;
    [reflexivity|].
  simpl in H. apply andb_prop in H as [Hc Hx].
  rewrite (is_digit_not c "_" Hc eq_refl).
  rewrite IH by exact Hx. reflexivity.
Qed.

(** [int()] of a non-empty string of digits is its decimal value. *)
Lemma int_digits (x : str) :
  x <> [] -> forallb is_digit x = true -> int_ x = Ok (digits_value x).
Proof.
  intros Hne H. unfold int_.
  rewrite digits_strip, digits_drop_underscores by exact H.
  destruct x as [|c x]; [congruence|].
  pose proof H as H'. simpl in H'. apply andb_prop in H' as [Hc _].
  unfold take_sign.
  rewrite (is_digit_not c "-" Hc eq_refl), (is_digit_not c "+" Hc eq_refl).
  rewrite H. reflexivity.
Qed.

Lemma int_digit_char (n : nat) :
  1 <= n <= 9 -> int_ [digit_char n] = Ok (Z.of_nat n).
Proof.
  intros H.
  do 10 (destruct n as [|n]; [try lia; reflexivity|]). lia.
Qed.

Lemma slice_middle (pre mid post : str) :
  slice (pre ++ mid ++ post) (Z.of_nat (length pre))
        (Z.of_nat (length pre) + Z.of_nat (length mid)) = mid.
Proof.
  unfold slice, clamp_index.
  rewrite !length_app.
  destruct (Z.ltb_spec (Z.of_nat (length pre)) 0); [lia|].
  destruct (Z.ltb_spec (Z.of_nat (length pre) + Z.of_nat (length mid)) 0);
    [lia|].
  rewrite !Z.min_r by lia.
  replace (Z.to_nat (Z.of_nat (length pre) + Z.of_nat (length mid)
                     - Z.of_nat (length pre))) with (length mid) by lia.
  rewrite Nat2Z.id.
  rewrite skipn_app, skipn_all, Nat.sub_diag. simpl.
  rewrite firstn_app, firstn_all, Nat.sub_diag. simpl.
  apply app_nil_r.
Qed.

Lemma block_regions (d : ascii) (field payload : str) :
  slice ("#" :: d :: field ++ payload) 2 (2 + Z.of_nat (length field))
  = field /\
  slice ("#" :: d :: field ++ payload) (2 + Z.of_nat (length field))
        (2 + Z.of_nat (length field) + Z.of_nat (length payload))
  = payload.
Proof.
  split.
  - exact (slice_middle ["#"; d] field payload).
  - pose proof (slice_middle (["#"; d] ++ field) payload []) as H.
    rewrite app_nil_r, <- app_assoc, length_app in H.
    simpl length in H. simpl app in H.
    rewrite Nat2Z.inj_add in H. exact H.
Qed.

(** What [float()] accepts is not empty and does not begin with ["#"]. *)
Lemma float_first_char (t : str) (v : float) :
  float_ t = Ok v -> startswith "#" t = false /\ t <> [].
Proof.
  destruct t as [|c r]; [discriminate|].
  intros H. split; [|discriminate].
  simpl. destruct (Ascii.eqb_spec c "#") as [->|]; [|reflexivity].
  exfalso. revert H. unfold float_.
  rewrite strip_cons by reflexivity.
  cbn -[scan_decimal lower].
  destruct (drop_underscores false (rstrip_by isspace_num r)) as [b|];
    [|discriminate].
  cbn. destruct b; discriminate.
Qed.

Lemma join_first (fields : list str) :
  Forall (fun t => exists v, float_ t = Ok v) fields ->
  startswith "#" (join "," fields) = false.
Proof.
  intros H. destruct H as [|t ts [v Hv] _]; [reflexivity|].
  destruct (float_first_char _ _ Hv) as [Hs Hne].
  destruct t as [|c r]; [congruence|].
  destruct ts; exact Hs.
Qed.

Lemma lstrip_length (sp : ascii -> bool) (x : str) :
  length (lstrip_by sp x) <= length x.
Proof.
  induction x as [|c x IH]; simpl; [lia|].
  destruct (sp c); simpl; lia.
Qed.

Lemma rstrip_length (sp : ascii -> bool) (x : str) :
  length (rstrip_by sp x) <= length x.
Proof.
  unfold rstrip_by. rewrite length_rev.
  etransitivity; [apply lstrip_length|]. rewrite length_rev. lia.
Qed.

Lemma lstrip_app_nonempty (sp : ascii -> bool) (x y : str) :
  lstrip_by sp x <> [] -> lstrip_by sp (x ++ y) = lstrip_by sp x ++ y.
Proof.
  induction x as [|c x IH]; simpl; [congruence|].
  destruct (sp c); [exact IH|reflexivity].
Qed.

Lemma rstrip_cons_nonblank (sp : ascii -> bool) (c : ascii) (x : str) :
  rstrip_by sp x <> [] -> rstrip_by sp (c :: x) = c :: rstrip_by sp x.
Proof.
  unfold rstrip_by. intros H. simpl.
  rewrite lstrip_app_nonempty.
  - rewrite rev_app_distr. reflexivity.
  - intros E. apply H. rewrite E. reflexivity.
Qed.

Lemma rstrip_app_nonblank (sp : ascii -> bool) (x y : str) :
  rstrip_by sp y <> [] -> rstrip_by sp (x ++ y) = x ++ rstrip_by sp y.
Proof.
  intros H. induction x as [|c x IH]; simpl; [reflexivity|].
  rewrite rstrip_cons_nonblank; rewrite IH; [reflexivity|].
  destruct x; simpl; [exact H|discriminate].
Qed.

Lemma lstrip_spaces_app (sp : ascii -> bool) (ws x : str) :
  forallb sp ws = true -> lstrip_by sp (ws ++ x) = lstrip_by sp x.
Proof.
  induction ws as [|c ws IH]; simpl; [reflexivity|].
  intros H. apply andb_prop in H as [Hc Hw]. rewrite Hc. auto.
Qed.

Lemma head_ok_plain (c : ascii) :
  head_ok c = true -> isspace c = false /\ Ascii.eqb c "#" = false.
Proof.
  destruct c as [[|] [|] [|] [|] [|] [|] [|] [|]]; vm_compute;
    intros H; split; congruence.
Qed.

Lemma float_head (c : ascii) (x : str) (v : float) :
  isspace_num c = false -> float_ (c :: x) = Ok v -> head_ok c = true.
Proof.
  intros Hc. unfold float_, head_ok.
  rewrite strip_cons by exact Hc.
  cbn [drop_underscores].
  destruct (Ascii.eqb c "_") eqn:Eu.
  { destruct (rstrip_by isspace_num x); discriminate. }
  destruct (drop_underscores (is_digit c) (rstrip_by isspace_num x)) as [b|];
    [|discriminate].
  cbn [option_map take_sign].
  destruct (Ascii.eqb c "-") eqn:Em; [intros _; now rewrite !orb_true_r|].
  destruct (Ascii.eqb c "+") eqn:Ep; [intros _; now rewrite !orb_true_r|].
  cbn [map str_eqb lit list_ascii_of_string].
  destruct (Ascii.eqb (lower c) "i") eqn:Ei;
    [intros _; now rewrite !orb_true_r|].
  destruct (Ascii.eqb (lower c) "n") eqn:En;
    [intros _; now rewrite !orb_true_r|].
  cbn [andb orb].
  unfold scan_decimal. cbn [span_digits].
  destruct (is_digit c) eqn:Ed; [reflexivity|].
  destruct (Ascii.eqb c ".") eqn:Edot; [reflexivity|].
  cbn. discriminate.
Qed.

(** What [float()] accepts: blanks of the number parsers, then a
    character that is neither blank nor ["#"]. *)
Lemma float_shape (t : str) (v : float) :
  float_ t = Ok v ->
  exists ws c r,
    t = ws ++ c :: r /\ forallb isspace_num ws = true /\
    isspace c = false /\ Ascii.eqb c "#" = false.
Proof.
  induction t as [|c t IH]; [discriminate|].
  intros H. destruct (isspace_num c) eqn:Hc.
  - assert (H' : float_ t = Ok v).
    { revert H. unfold float_, strip_by. simpl. rewrite Hc. exact (fun H => H). }
    destruct (IH H') as [ws [d [r [-> [Hw [Hd Hh]]]]]].
    exists (c :: ws), d, r. simpl. rewrite Hc, Hw. auto.
  - destruct (head_ok_plain c (float_head c t v Hc H)) as [Hs Hh].
    exists [], c, t. auto.
Qed.

Lemma isspace_num_isspace (c : ascii) :
  isspace_num c = true -> isspace c = true.
Proof. unfold isspace. intros ->. reflexivity. Qed.

Lemma decode_region_lead (c : ascii) (d : str) :
  isspace_num c = true -> decode_region (c :: d) = decode_region d.
Proof.
  intros Hc. unfold decode_region. cbn [split].
  assert (Hcomma : Ascii.eqb c "," = false).
  { destruct (Ascii.eqb_spec c ","); [subst; discriminate|reflexivity]. }
  rewrite Hcomma.
  destruct (split "," d) as [|t ts] eqn:E; [destruct d; simpl in E;
    try discriminate; destruct (Ascii.eqb a ","); try discriminate;
    destruct (split "," d); discriminate|].
  cbn [filter].
  assert (Hs : strip (c :: t) = strip t).
  { unfold strip, strip_by. simpl. rewrite (isspace_num_isspace c Hc).
    reflexivity. }
  assert (Hf : float_ (c :: t) = float_ t).
  { unfold float_, strip_by. simpl. rewrite Hc. reflexivity. }
  rewrite Hs. destruct (negb _); [|reflexivity].
  cbn [rmap]. rewrite Hf. reflexivity.
Qed.

Lemma decode_region_leads (ws d : str) :
  forallb isspace_num ws = true -> decode_region (ws ++ d) = decode_region d.
Proof.
  induction ws as [|c ws IH]; simpl; [reflexivity|].
  intros H. apply andb_prop in H as [Hc Hw].
  rewrite decode_region_lead by exact Hc. auto.
Qed.

Lemma decode_block_header (d : ascii) (field q : str) (data_len : Z) (n : Z) :
  int_ [d] = Ok n -> n = Z.of_nat (length field) ->
  int_ field = Ok data_len ->
  (Z.of_nat (length q) <= data_len)%Z ->
  decode_block ("#" :: d :: field ++ q) = decode_region q.
Proof.
  intros Hd -> Hf Hq. unfold decode_block.
  cbn [startswith index nth_error].
  change (Ascii.eqb "#" "#") with true. cbn iota. cbn [rbind].
  rewrite Hd. cbn [rbind].
  rewrite (proj1 (block_regions d field q)).
  rewrite Hf. cbn [rbind].
  replace (slice ("#" :: d :: field ++ q) (2 + Z.of_nat (length field))
             (2 + Z.of_nat (length field) + data_len)) with q;
    [reflexivity|].
  unfold slice, clamp_index. simpl length. rewrite length_app.
  destruct (Z.ltb_spec (2 + Z.of_nat (length field)) 0); [lia|].
  destruct (Z.ltb_spec (2 + Z.of_nat (length field) + data_len) 0); [lia|].
  rewrite Z.min_l by lia. rewrite Z.min_r by lia.
  replace (Z.to_nat (2 + Z.of_nat (length field))) with (S (S (length field)))
    by lia.
  cbn [skipn]. rewrite skipn_app, skipn_all, Nat.sub_diag.
  cbn [List.app skipn].
  rewrite firstn_all2; [reflexivity|lia].
Qed.

Lemma is_digit_plain (c : ascii) : is_digit c = true -> isspace c = false.
Proof.
  unfold is_digit, isspace, isspace_num, between. intros H.
  apply andb_prop in H as [H1 H2].
  apply N.leb_le in H1. apply N.leb_le in H2.
  repeat match goal with
         | |- context [(?a <=? ?b)%N] => destruct (N.leb_spec a b); try lia
         end; reflexivity.
Qed.

Lemma rstrip_digits_app (field x : str) :
  forallb is_digit field = true ->
  rstrip_by isspace (field ++ x) = field ++ rstrip_by isspace x.
Proof.
  induction field as [|c field IH]; simpl; [reflexivity|].
  intros H. apply andb_prop in H as [Hc Hf].
  rewrite rstrip_cons by (now apply is_digit_plain).
  rewrite IH by exact Hf. reflexivity.
Qed.

Lemma digit_char_plain (n : nat) : n <= 9 -> isspace (digit_char n) = false.
Proof.
  intros H. do 10 (destruct n as [|n]; [reflexivity|]). lia.
Qed.

Lemma strip_block (field p : str) :
  length field <= 9 -> forallb is_digit field = true ->
  strip (definite_block field p)
  = "#" :: digit_char (length field) :: field ++ rstrip_by isspace p.
Proof.
  intros Hn Hd. unfold strip, definite_block.
  rewrite strip_cons by reflexivity.
  rewrite rstrip_cons by (now apply digit_char_plain).
  rewrite rstrip_digits_app by exact Hd. reflexivity.
Qed.

Lemma join_cons (sep : ascii) (t : str) (ts : list str) :
  exists rest, join sep (t :: ts) = t ++ rest.
Proof.
  destruct ts as [|u ts].
  - exists []. simpl. now rewrite app_nil_r.
  - eexists. reflexivity.
Qed.

Lemma block_transparent_plain (fields : list str) (field : str) :
  Forall (fun t => exists v, float_ t = Ok v) fields ->
  1 <= length field <= 9 ->
  forallb is_digit field = true ->
  digits_value field = Z.of_nat (length (join "," fields)) ->
  decode_block (definite_block field (join "," fields))
  = decode_block (join "," fields).
Proof.
  intros Hf Hn Hd Hv. pose proof (join_first _ Hf) as Hs.
  set (payload := join "," fields) in *.
  unfold decode_block at 2. rewrite Hs.
  unfold decode_block, definite_block.
  cbn [startswith index nth_error].
  change (Ascii.eqb "#" "#") with true. cbn iota. cbn [rbind].
  rewrite (int_digit_char _ Hn). cbn [rbind].
  destruct (block_regions (digit_char (length field)) field payload)
    as [R1 R2].
  rewrite R1.
  rewrite int_digits;
    [|destruct field; simpl in Hn; [lia|discriminate]|exact Hd].
  cbn [rbind]. rewrite Hv, R2. reflexivity.
Qed.

Lemma block_transparent_stripped (fields : list str) (field : str) :
  Forall (fun t => exists v, float_ t = Ok v) fields ->
  1 <= length field <= 9 ->
  forallb is_digit field = true ->
  digits_value field = Z.of_nat (length (join "," fields)) ->
  decode_block (strip (definite_block field (join "," fields)))
  = decode_block (strip (join "," fields)).
Proof.
  intros Hf Hn Hd Hv.
  rewrite strip_block by (try lia; exact Hd).
  assert (Hfield : int_ field = Ok (digits_value field)).
  { apply int_digits; [destruct field; simpl in Hn; [lia|discriminate]|exact Hd]. }
  rewrite (decode_block_header _ _ _ _ _ (int_digit_char _ Hn) eq_refl Hfield)
    by (rewrite Hv; apply inj_le, rstrip_length).
  destruct Hf as [|t ts [v Ht] _].
  - reflexivity.
  - destruct (join_cons "," t ts) as [rest ->].
    destruct (float_shape t v Ht) as [ws [c [r [-> [Hw [Hc Hh]]]]]].
    rewrite <- !app_assoc.
    change ((c :: r) ++ rest) with (c :: r ++ rest).
    assert (Hr : rstrip_by isspace (c :: r ++ rest)
                 = c :: rstrip_by isspace (r ++ rest))
      by (now apply rstrip_cons).
    rewrite rstrip_app_nonblank by (rewrite Hr; discriminate).
    rewrite decode_region_leads by exact Hw.
    unfold strip, strip_by.
    rewrite lstrip_spaces_app.
    2:{ rewrite forallb_forall in *. intros x Hx.
        apply isspace_num_isspace. auto. }
    cbn [lstrip_by]. rewrite Hc, Hr.
    unfold decode_block. cbn [startswith]. rewrite Hh. reflexivity.
Qed.

(** C5. A payload of comma-separated amplitudes decodes to the same
    sequence whether it arrives bare or inside a definite-length block:
    ["#"], a digit N, an N-digit field holding the payload length, the
    payload. This holds for the decoding step itself and for the
    decoding of the stripped reply, which is what the source feeds
    it. *)
Theorem block_header_transparent (fields : list str) (field : str) :
  Forall (fun t => exists v, float_ t = Ok v) fields ->
  1 <= length field <= 9 ->
  forallb is_digit field = true ->
  digits_value field = Z.of_nat (length (join "," fields)) ->
  decode_block (definite_block field (join "," fields))
  = decode_block (join "," fields) /\
  decode_block (strip (definite_block field (join "," fields)))
  = decode_block (strip (join "," fields)).
Proof.
  intros Hf Hn Hd Hv. split.
  - now apply block_transparent_plain.
  - now apply block_transparent_stripped.
Qed.

(** Three amplitudes, eleven payload characters, in the block
    ["#211-20.5,3,1e1"]. *)
Lemma block_header_transparent_witness :
  decode_block (lit "#211-20.5,3,1e1") = decode_block (lit "-20.5,3,1e1") /\
  decode_block (strip (lit "#211-20.5,3,1e1"))
  = decode_block (strip (lit "-20.5,3,1e1")).
Proof.
  apply (block_header_transparent
           [lit "-20.5"; lit "3"; lit "1e1"] (lit "11")).
  - repeat constructor; eexists; vm_compute; reflexivity.
  - simpl; lia.
  - reflexivity.
  - reflexivity.
Defined.

(** ** Running code in a calm world *)

Lemma bind_Returns {A B} {m : M A} {w w1 : world} {a : A} (k : A -> M B) :
  m w = Returns a w1 -> bind m k w = k a w1.
Proof. intros H. unfold bind. rewrite H. reflexivity. Qed.

Lemma bind_Raises {A B} {m : M A} {w w1 : world} {e : exn} (k : A -> M B) :
  m w = Raises e w1 -> bind m k w = Raises e w1.
Proof. intros H. unfold bind. rewrite H. reflexivity. Qed.

Lemma try_Returns {A} {m : M A} {w w1 : world} {a : A} (h : exn -> M A) :
  m w = Returns a w1 -> try_except m h w = Returns a w1.
Proof. intros H. unfold try_except. rewrite H. reflexivity. Qed.

Lemma try_Raises {A} {m : M A} {w w1 : world} {e : exn} (h : exn -> M A) :
  m w = Raises e w1 -> try_except m h w = h e w1.
Proof. intros H. unfold try_except. rewrite H. reflexivity. Qed.

Lemma bind_assoc {A B C} (m : M A) (f : A -> M B) (g : B -> M C)
    (w : world) :
  bind (bind m f) g w = bind m (fun a => bind (f a) g) w.
Proof. unfold bind. destruct (m w); reflexivity. Qed.

Lemma bind_lift_Ok {A B} (a : A) (k : A -> M B) (w : world) :
  bind (lift (Ok a)) k w = k a w.
Proof. reflexivity. Qed.

Lemma bind_lift_Raise {A B} (e : exn) (k : A -> M B) (w : world) :
  bind (lift (Raise e)) k w = Raises e w.
Proof. reflexivity. Qed.

Lemma sleep_fits (d : float) (w : world) :
  fits d = true -> sleep d w = Returns tt (emit (ESleep d) w).
Proof.
  unfold fits, sleep, sleep_check. cbv zeta. intros H.
  apply andb_prop in H as [H H3]. apply andb_prop in H as [H1 H2].
  apply negb_true_iff in H1, H3. rewrite H1, H2, H3. reflexivity.
Qed.

Lemma sleep_cases (d : float) (w : world) :
  sleep d w = Returns tt (emit (ESleep d) w) \/
  sleep d w = Raises ValueError w \/ sleep d w = Raises OverflowError w.
Proof.
  unfold sleep, sleep_check. cbv zeta.
  destruct (is_nan d); [auto|].
  destruct (negb _); [auto|].
  destruct (_ || _); auto.
Qed.

Lemma calm_emit (h : handle) (e : event) (w : world) :
  calm h w -> calm h (emit e w).
Proof. exact (fun H => H). Qed.

Lemma calm_with_wire (h : handle) (l : list io) (w : world) :
  calm h w -> calm h (with_wire l w).
Proof. exact (fun H => H). Qed.

Lemma calm_with_timeouts (h : handle) (l : list (handle * Z)) (w : world) :
  calm h w -> calm h (with_timeouts l w).
Proof. exact (fun H => H). Qed.

Create HintDb calm.
#[local] Hint Resolve calm_emit calm_with_wire calm_with_timeouts : calm.

Lemma yield_calm (h : handle) (w : world) :
  calm h w -> yield w = Returns tt w.
Proof. intros [Ha _]. unfold yield. rewrite Ha. reflexivity. Qed.

Lemma write_good (h : handle) (c : scpi) (w : world) (t : str)
    (rest : list io) :
  calm h w -> wire w = Good t :: rest ->
  write (Some h) c w
  = Returns tt (emit (EWrite h c true) (with_wire rest w)).
Proof.
  intros Hc Hw. unfold write, on_inst.
  rewrite (bind_Returns _ (yield_calm _ _ Hc)).
  destruct Hc as [_ Hc]. unfold raw_write, answer. rewrite Hc, Hw.
  reflexivity.
Qed.

Lemma write_bad (h : handle) (c : scpi) (w : world) (e : exn)
    (rest : list io) :
  calm h w -> wire w = Bad e :: rest ->
  write (Some h) c w
  = Raises e (emit (EWrite h c false) (with_wire rest w)).
Proof.
  intros Hc Hw. unfold write, on_inst.
  rewrite (bind_Returns _ (yield_calm _ _ Hc)).
  destruct Hc as [_ Hc]. unfold raw_write, answer. rewrite Hc, Hw.
  reflexivity.
Qed.

Lemma read_good (h : handle) (w : world) (t : str) (rest : list io) :
  calm h w -> wire w = Good t :: rest ->
  read (Some h) w = Returns t (emit (ERead h true) (with_wire rest w)).
Proof.
  intros Hc Hw. unfold read, on_inst.
  rewrite (bind_Returns _ (yield_calm _ _ Hc)).
  destruct Hc as [_ Hc]. unfold raw_read, answer. rewrite Hc, Hw.
  reflexivity.
Qed.

Lemma read_bad (h : handle) (w : world) (e : exn) (rest : list io) :
  calm h w -> wire w = Bad e :: rest ->
  read (Some h) w = Raises e (emit (ERead h false) (with_wire rest w)).
Proof.
  intros Hc Hw. unfold read, on_inst.
  rewrite (bind_Returns _ (yield_calm _ _ Hc)).
  destruct Hc as [_ Hc]. unfold raw_read, answer. rewrite Hc, Hw.
  reflexivity.
Qed.

(** One step of a script in a calm world: the next operation is a write
    or a read whose answer is known, a sleep of a fitting delay, or a
    conversion whose result is known. *)
Ltac calm_side :=
  solve [ eauto with calm | simpl; eassumption | reflexivity
        | vm_compute; reflexivity ].

Ltac io_now :=
  first
    [ match goal with
      | |- sleep _ _ = _ => eapply sleep_fits; vm_compute; reflexivity
      end
    | eapply write_good; [calm_side|calm_side]
    | eapply write_bad; [calm_side|calm_side]
    | eapply read_good; [calm_side|calm_side]
    | eapply read_bad; [calm_side|calm_side]
    | eapply sleep_fits; vm_compute; reflexivity ].

Ltac io_step :=
  first
    [ erewrite bind_Returns by io_now
    | erewrite bind_Raises by io_now
    | rewrite try_Returns with (1 := ltac:(io_now))
    | progress cbn [lift ret raise rbind] ].

(** ** Single sweep *)

(** C8, as stated, fails: an instrument that answers the duration query
    with [1e10] has its answer parsed, and the delay computed from it,
    [1.1e10] seconds, does not fit the clock of [time.sleep]. The call
    stands after the guarded query, so the sweep raises [OverflowError]
    and has not slept for the duration at all. *)
Lemma single_sweep_long_answer_raises :
  _single_sweep (Some 0)
    (world_of_viewer (connected SA1 0 viewer_init)
       [Good []; Good []; Good []; Good (lit "1e10")] [])
  = Raises OverflowError
      (after_events
         [EWrite 0 INIT_CONT_OFF true; ESleep f0_1; EWrite 0 INIT true;
          EWrite 0 SWE_TIME_q true; ESleep f0_15; ERead 0 true]
         []
         (world_of_viewer (connected SA1 0 viewer_init)
            [Good []; Good []; Good []; Good (lit "1e10")] [])).
Proof. vm_compute. reflexivity. Qed.

(** Rounding keeps the sign it is given. *)
Lemma round_aux_shape (s : bool) (m e : Z) (l : location) :
  binary_round_aux prec emax s m e l = S754_zero s \/
  binary_round_aux prec emax s m e l = S754_infinity s \/
  binary_round_aux prec emax s m e l = S754_nan \/
  exists m' e', binary_round_aux prec emax s m e l = S754_finite s m' e'.
Proof.
  unfold binary_round_aux.
  destruct (shr_fexp prec emax m e l) as [mrs e1].
  destruct (shr_fexp prec emax _ e1 loc_Exact) as [mrs2 e2].
  destruct (shr_m mrs2); [auto| |auto].
  destruct (_ <=? _)%Z; eauto 7.
Qed.

(** [max(1.5, x)] is 1.5 or an [x] above it: a positive number or plus
    infinity, never a NaN. *)
Lemma max_shape (x : float) :
  max_ f1_5 x = S754_infinity false \/
  exists m e, max_ f1_5 x = S754_finite false m e.
Proof.
  unfold max_. destruct (fltb f1_5 x) eqn:E.
  - destruct x as [s|s| |s m e]; try discriminate;
      destruct s; try discriminate; eauto.
  - unfold f1_5. eauto.
Qed.

(** What [time.sleep(max(1.5, x))] does is decided by the nanosecond
    count alone: below [2^63] it sleeps, at [2^63] it raises
    [ValueError], above it raises [OverflowError]. *)
Lemma sleep_delay (x : float) (w : world) :
  let d := max_ f1_5 x in
  sleep d w
  = if fltb (fmul d f1e9) f2p63 then Returns tt (emit (ESleep d) w)
    else Raises (if feqb (fmul d f1e9) f2p63 then ValueError
                 else OverflowError) w.
Proof.
  cbv zeta. destruct (max_shape x) as [-> | (m & e & ->)]; [reflexivity|].
  unfold sleep, sleep_check. cbv zeta. cbn [is_nan].
  set (ns := fmul (S754_finite false m e) f1e9).
  assert (Hns : ns = S754_zero false \/ ns = S754_infinity false \/
                ns = S754_nan \/ exists m' e', ns = S754_finite false m' e').
  { subst ns. unfold fmul, f1e9, SFmul. cbn [xorb].
    apply round_aux_shape. }
  destruct Hns as [-> | [-> | [-> | (m' & e' & ->)]]]; try reflexivity.
  change (fleb fm2p63 (S754_finite false m' e')) with true.
  change (fltb (S754_finite false m' e') (S754_zero false)) with false.
  cbn [andb orb negb].
  unfold fleb, fltb, feqb, SFleb, SFltb, SFeqb.
  destruct (SFcompare (S754_finite false m' e') f2p63) as [[| |]|];
    reflexivity.
Qed.

(** [max(1.5, x)] is at least 1.5 and not below [x]. *)
Lemma max_floor (x : float) : fleb f1_5 (max_ f1_5 x) = true.
Proof.
  unfold max_. destruct (fltb f1_5 x) eqn:E; [|reflexivity].
  unfold fltb, fleb, SFltb, SFleb in *.
  destruct (SFcompare f1_5 x) as [[| |]|]; congruence.
Qed.

Lemma max_covers (a x : float) : fltb (max_ a x) x = false.
Proof.
  unfold max_. destruct (fltb a x) eqn:E; [|exact E].
  unfold fltb, SFltb. destruct (SFcompare x x) as [c|] eqn:Ec; [|reflexivity].
  pose proof (SFcompare_antisym _ _ _ Ec) as Ec'. rewrite Ec in Ec'.
  destruct c; try reflexivity; discriminate.
Qed.

(** A count within half the range of the clock is below its end, and
    one at the end or beyond is not below it. *)
Lemma below_half (x : float) : fleb x f2p62 = true -> fltb x f2p63 = true.
Proof.
  unfold fleb, fltb, SFleb, SFltb, f2p62, f2p63.
  destruct x as [s|s| |s m e]; try destruct s; try discriminate;
    try reflexivity.
  cbn [SFcompare].
  destruct (Z.compare_spec e 10), (Z.compare_spec e 11);
    try discriminate; try reflexivity; try lia.
Qed.

Lemma beyond_end (x : float) : fleb f2p63 x = true -> fltb x f2p63 = false.
Proof.
  unfold fleb, fltb, SFleb, SFltb.
  destruct (SFcompare f2p63 x) as [c|] eqn:E; [|discriminate].
  rewrite (SFcompare_antisym _ _ _ E). destruct c; cbn; congruence.
Qed.

(** C8, amended. After the trigger, [_single_sweep] asks for the sweep
    time. When the query fails at the write, fails at the read, or
    answers something [float()] rejects, the duration is 1.5, nothing is
    printed, and the sweep sleeps [max(1.5, 1.1 * 1.5)] and returns
    normally. When the answer parses, the delay is
    [max(1.5, 1.1 * duration)], which is at least 1.5 and not less than
    [1.1 * duration], and the call of [time.sleep] stands outside the
    guard: with a delay of at most [2^62] nanoseconds the
    sweep sleeps that long and returns, and with one of [2^63]
    nanoseconds or more it raises without having slept, [ValueError] at
    exactly [2^63] nanoseconds and [OverflowError] above. *)
Theorem single_sweep_timing (h : handle) (w : world) (a b : str)
    (rest : list io) :
  calm h w ->
  wire w = Good a :: Good b :: rest ->
  let triggered :=
    [EWrite h INIT_CONT_OFF true; ESleep f0_1; EWrite h INIT true] in
  let fallback := max_ f1_5 (fmul f1_5 f1_1) in
  fallback = fmul f1_5 f1_1 /\
  (forall c text st tl,
     rest = Good c :: Good text :: tl -> float_ text = Ok st ->
     let d := max_ f1_5 (fmul st f1_1) in
     let queried :=
       triggered ++ [EWrite h SWE_TIME_q true; ESleep f0_15; ERead h true] in
     fleb f1_5 d = true /\ fltb d (fmul st f1_1) = false /\
     (fleb (fmul d f1e9) f2p62 = true ->
      _single_sweep (Some h) w
      = Returns tt (after_events (queried ++ [ESleep d]) tl w)) /\
     (fleb f2p63 (fmul d f1e9) = true ->
      _single_sweep (Some h) w
      = Raises (if feqb (fmul d f1e9) f2p63 then ValueError
                else OverflowError)
          (after_events queried tl w))) /\
  (forall c text e tl,
     rest = Good c :: Good text :: tl -> float_ text = Raise e ->
     _single_sweep (Some h) w
     = Returns tt
         (after_events
            (triggered ++
             [EWrite h SWE_TIME_q true; ESleep f0_15; ERead h true;
              ESleep fallback])
            tl w)) /\
  (forall c e tl,
     rest = Good c :: Bad e :: tl ->
     _single_sweep (Some h) w
     = Returns tt
         (after_events
            (triggered ++
             [EWrite h SWE_TIME_q true; ESleep f0_15; ERead h false;
              ESleep fallback])
            tl w)) /\
  (forall e tl,
     rest = Bad e :: tl ->
     _single_sweep (Some h) w
     = Returns tt
         (after_events
            (triggered ++ [EWrite h SWE_TIME_q false; ESleep fallback])
            tl w)).
Proof.
  intros Hc Hw. cbv zeta. unfold _single_sweep.
  split; [vm_compute; reflexivity|].
  split; [|split; [|split]].
  - intros c text st tl -> Ht.
    split; [apply max_floor|]. split; [apply max_covers|].
    do 3 io_step.
    erewrite bind_Returns;
      [|eapply try_Returns; do 3 io_step; rewrite Ht; reflexivity].
    rewrite sleep_delay.
    split; intros Hd;
      [rewrite (below_half _ Hd)|rewrite (beyond_end _ Hd)]; reflexivity.
  - intros c text e tl -> Ht.
    do 3 io_step.
    erewrite bind_Returns;
      [|erewrite try_Raises;
        [reflexivity|do 3 io_step; rewrite Ht; reflexivity]].
    reflexivity.
  - intros c e tl ->.
    do 3 io_step.
    erewrite bind_Returns;
      [|erewrite try_Raises; [reflexivity|do 3 io_step; reflexivity]].
    reflexivity.
  - intros e tl ->.
    do 3 io_step.
    erewrite bind_Returns;
      [|erewrite try_Raises; [reflexivity|io_step; reflexivity]].
    reflexivity.
Qed.

(** A sweep whose time query answers [2.5]: the answer parses, the delay
    is 2.75 seconds, and the sweep sleeps that long and returns. *)
Lemma single_sweep_timing_witness :
  _single_sweep (Some 0)
    (world_of_viewer (connected SA1 0 viewer_init)
       [Good []; Good []; Good []; Good (lit "2.5")] [])
  = Returns tt
      (after_events
         [EWrite 0 INIT_CONT_OFF true; ESleep f0_1; EWrite 0 INIT true;
          EWrite 0 SWE_TIME_q true; ESleep f0_15; ERead 0 true;
          ESleep (dec 275 (-2))]
         []
         (world_of_viewer (connected SA1 0 viewer_init)
            [Good []; Good []; Good []; Good (lit "2.5")] [])).
Proof.
  pose proof (single_sweep_timing 0
                (world_of_viewer (connected SA1 0 viewer_init)
                   [Good []; Good []; Good []; Good (lit "2.5")] [])
                [] [] [Good []; Good (lit "2.5")]
                (conj eq_refl eq_refl) eq_refl) as H.
  cbv zeta in H. destruct H as [_ [H _]].
  destruct (H [] (lit "2.5") (dec 25 (-1)) [] eq_refl
              ltac:(vm_compute; reflexivity)) as [_ [_ [H1 _]]].
  refine (eq_trans (H1 _) _); vm_compute; reflexivity.
Defined.

(** ** Code without loops finishes *)

Lemma finishes_ret {A} (a : A) : finishes (ret a).
Proof. intros w w'. discriminate. Qed.

Lemma finishes_raise {A} (e : exn) : finishes (@raise A e).
Proof. intros w w'. discriminate. Qed.

Lemma finishes_bind {A B} (m : M A) (k : A -> M B) :
  finishes m -> (forall a, finishes (k a)) -> finishes (bind m k).
Proof.
  intros Hm Hk w w'. unfold bind.
  destruct (m w) as [a w1|e w1|w1] eqn:E.
  - apply Hk.
  - discriminate.
  - exfalso. exact (Hm _ _ E).
Qed.

Lemma finishes_try {A} (m : M A) (h : exn -> M A) :
  finishes m -> (forall e, finishes (h e)) -> finishes (try_except m h).
Proof.
  intros Hm Hh w w'. unfold try_except.
  destruct (m w) as [a w1|e w1|w1] eqn:E.
  - discriminate.
  - apply Hh.
  - exfalso. exact (Hm _ _ E).
Qed.

Lemma finishes_lift {A} (r : result A) : finishes (lift r).
Proof. destruct r; intros w w'; discriminate. Qed.

Lemma finishes_modify (f : world -> world) : finishes (modify f).
Proof. intros w w'. discriminate. Qed.

Lemma finishes_print (p : printed) : finishes (print p).
Proof. apply finishes_modify. Qed.

Lemma finishes_after (k : sid) (c : callback) : finishes (after k c).
Proof. apply finishes_modify. Qed.

Lemma finishes_assign (k : sid) (f : session -> session) :
  finishes (assign k f).
Proof. apply finishes_modify. Qed.

Lemma finishes_sleep (d : float) : finishes (sleep d).
Proof.
  intros w w'. destruct (sleep_cases d w) as [->|[->| ->]]; discriminate.
Qed.

Lemma finishes_yield : finishes yield.
Proof. intros w w'. unfold yield. destruct (arrivals w); discriminate. Qed.

Lemma finishes_raw_write (h : handle) (c : scpi) : finishes (raw_write h c).
Proof.
  intros w w'. unfold raw_write.
  destruct (is_closed h w); [discriminate|].
  destruct (answer w) as [[t|e] w1]; discriminate.
Qed.

Lemma finishes_raw_read (h : handle) : finishes (raw_read h).
Proof.
  intros w w'. unfold raw_read.
  destruct (is_closed h w); [discriminate|].
  destruct (answer w) as [[t|e] w1]; discriminate.
Qed.

Lemma finishes_raw_get_timeout (h : handle) : finishes (raw_get_timeout h).
Proof.
  intros w w'. unfold raw_get_timeout.
  destruct (is_closed h w); discriminate.
Qed.

Lemma finishes_raw_set_timeout (h : handle) (ms : Z) :
  finishes (raw_set_timeout h ms).
Proof.
  intros w w'. unfold raw_set_timeout.
  destruct (is_closed h w); discriminate.
Qed.

Lemma finishes_on_inst {A} (i : option handle) (f : handle -> M A) :
  (forall h, finishes (f h)) -> finishes (on_inst i f).
Proof.
  intros Hf. unfold on_inst.
  apply finishes_bind; [apply finishes_yield|].
  intros _. destruct i; [apply Hf|apply finishes_raise].
Qed.

Lemma finishes_attr {A} (k : sid) (f : session -> A) : finishes (attr k f).
Proof. intros w w'. discriminate. Qed.

Create HintDb finishes.
#[local] Hint Resolve finishes_ret finishes_raise finishes_lift
  finishes_modify finishes_print finishes_after finishes_assign
  finishes_yield finishes_raw_write finishes_raw_read
  finishes_raw_get_timeout finishes_raw_set_timeout finishes_attr
  : finishes.
#[local] Hint Extern 0 (finishes (sleep _)) => apply finishes_sleep
  : finishes.

Ltac finish :=
  repeat first
    [ match goal with |- finishes (sleep _) => apply finishes_sleep end
    | apply finishes_bind; [|intros ?]
    | apply finishes_try; [|intros ?]
    | apply finishes_on_inst; intros ?
    | solve [auto with finishes]
    | match goal with
      | |- finishes (if ?b then _ else _) => destruct b
      | |- finishes (match ?x with _ => _ end) => destruct x
      end ].

Lemma finishes_write (i : option handle) (c : scpi) : finishes (write i c).
Proof. unfold write. finish. Qed.

Lemma finishes_read (i : option handle) : finishes (read i).
Proof. unfold read. finish. Qed.

Lemma finishes_get_timeout (i : option handle) : finishes (get_timeout i).
Proof. unfold get_timeout. finish. Qed.

Lemma finishes_set_timeout (i : option handle) (ms : Z) :
  finishes (set_timeout i ms).
Proof. unfold set_timeout. finish. Qed.

Lemma finishes_self_inst (k : sid) : finishes (self_inst k).
Proof. unfold self_inst. finish. Qed.

Lemma finishes_self_continuous (k : sid) : finishes (self_continuous k).
Proof. unfold self_continuous. finish. Qed.

#[local] Hint Resolve finishes_write finishes_read finishes_get_timeout
  finishes_set_timeout finishes_self_inst finishes_self_continuous
  : finishes.

Lemma finishes_configure_sa (i : option handle) (start_mhz stop_mhz : float)
    (points : Z) (bw_res bw_vid : str) :
  finishes (_configure_sa i start_mhz stop_mhz points bw_res bw_vid).
Proof. unfold _configure_sa. finish. Qed.

Lemma finishes_read_trace (i : option handle) :
  finishes (_read_trace_ascii_block i).
Proof. unfold _read_trace_ascii_block. finish. Qed.

#[local] Hint Resolve finishes_configure_sa finishes_read_trace : finishes.

(** ** Sweep configuration *)

(** C2, as stated, fails: with an instrument that rejects the
    resolution-bandwidth write and would accept everything after it,
    [_configure_sa] issues that one write, prints the error, and issues
    none of the eight writes that follow in its text. *)
Lemma configure_stops_at_failed_bandwidth :
  history
    (_configure_sa (Some 0) (dec 0 0) (dec 3000 0) 3001 (lit "10k") (lit "10k")
       (world_of_viewer (connected SA1 0 viewer_init)
          [Bad VisaIOError; Good []; Good []; Good []; Good []; Good [];
           Good []; Good []; Good []] []))
  = [EWrite 0 (BAND_RES (dec 10000 0)) false;
     EPrint (configuring_error VisaIOError)].
Proof. vm_compute. reflexivity. Qed.

Lemma write_silent (h : handle) (c : scpi) (w : world) :
  calm h w -> wire w = [] ->
  write (Some h) c w = Raises VisaIOError (emit (EWrite h c false) w).
Proof.
  intros Hc Hw. unfold write, on_inst.
  rewrite (bind_Returns _ (yield_calm _ _ Hc)).
  destruct Hc as [_ Hc]. unfold raw_write, answer. rewrite Hc, Hw.
  reflexivity.
Qed.

Lemma read_silent (h : handle) (w : world) :
  calm h w -> wire w = [] ->
  read (Some h) w = Raises VisaIOError (emit (ERead h false) w).
Proof.
  intros Hc Hw. unfold read, on_inst.
  rewrite (bind_Returns _ (yield_calm _ _ Hc)).
  destruct Hc as [_ Hc]. unfold raw_read, answer. rewrite Hc, Hw.
  reflexivity.
Qed.

(** The events a run added to the log of [w], oldest first, read off the
    final log. *)
Ltac added l base :=
  lazymatch l with
  | base => constr:(@nil event)
  | ?e :: ?r => let r' := added r base in constr:(r' ++ [e])
  end.

Ltac close_run w :=
  lazymatch goal with
  | |- Returns ?a ?w1 = Returns ?a (after_events ?evs ?tl w) =>
      let l := eval cbn in (log w1) in
      let p := added l (log w) in
      let p' := eval cbn in p in
      unify evs p'; reflexivity
  end.

Ltac any_io :=
  first
    [ io_now
    | eapply write_silent; [calm_side|calm_side]
    | eapply read_silent; [calm_side|calm_side] ].

(** The next write of a script, for each way the wire may answer it:
    silence, an error, an acknowledgement. Only the last goes on. *)
Ltac config_done w :=
  cbv beta iota; unfold print, record, modify;
  eexists _, _; split; [close_run w|reflexivity].

(** The next write of a configuration, for each way the wire may answer
    it: silence, an error, an acknowledgement. Only the last goes on. *)
Ltac next_write l w :=
  destruct l as [|[?t|?e] l];
  [ erewrite bind_Raises by any_io; config_done w
  | erewrite bind_Returns by any_io;
    try (erewrite bind_Returns by any_io)
  | erewrite bind_Raises by any_io; config_done w ].

(** C2, amended. [_configure_sa] never propagates a failure: whatever the
    instrument and the main thread do, it returns. It is one guarded
    sequence: in a calm world a write that fails is followed by the
    error message and by no further write. *)
Theorem configure_failure_contained (i : option handle) (h : handle)
    (start_mhz stop_mhz : float) (points : Z) (bw_res bw_vid : str)
    (w : world) :
  (exists w',
     _configure_sa i start_mhz stop_mhz points bw_res bw_vid w
     = Returns tt w') /\
  (calm h w ->
   exists evs tl,
     _configure_sa (Some h) start_mhz stop_mhz points bw_res bw_vid w
     = Returns tt (after_events evs tl w) /\
     stops_at_failure evs = true).
Proof.
  split.
  - pose proof (finishes_configure_sa i start_mhz stop_mhz points
                  bw_res bw_vid w) as Hfin.
    revert Hfin. unfold _configure_sa, try_except.
    match goal with
    | |- context [match ?body w with _ => _ end] =>
        destruct (body w) as [[] w1|e w1|w1]
    end.
    + eauto.
    + intros _. eexists. reflexivity.
    + intros Hfin. exfalso. exact (Hfin w1 eq_refl).
  - intros Hc. unfold _configure_sa, try_except.
    remember (wire w) as l eqn:Hl. symmetry in Hl.
    destruct (bandwidth_hz bw_vid) as [vid|ev] eqn:Ev.
    + destruct (str_eqb bw_res (lit "auto")).
      * next_write l w. rewrite bind_lift_Ok.
        do 8 (next_write l w).
        rewrite sleep_fits by (vm_compute; reflexivity).
        config_done w.
      * rewrite bind_assoc.
        destruct (bandwidth_hz bw_res) as [res|er].
        -- rewrite bind_lift_Ok.
           next_write l w. rewrite bind_lift_Ok.
           do 8 (next_write l w).
           rewrite sleep_fits by (vm_compute; reflexivity).
           config_done w.
        -- rewrite bind_lift_Raise. config_done w.
    + destruct (str_eqb bw_res (lit "auto")).
      * next_write l w. rewrite bind_lift_Raise. config_done w.
      * rewrite bind_assoc.
        destruct (bandwidth_hz bw_res) as [res|er].
        -- rewrite bind_lift_Ok.
           next_write l w. rewrite bind_lift_Raise. config_done w.
        -- rewrite bind_lift_Raise. config_done w.
Qed.

(** With the instrument that rejects the resolution-bandwidth write, the
    amended statement applies: the configuration returns, and its events
    stop at the failure. *)
Lemma configure_failure_contained_witness :
  exists evs tl,
    _configure_sa (Some 0) (dec 0 0) (dec 3000 0) 3001 (lit "10k") (lit "10k")
      (world_of_viewer (connected SA1 0 viewer_init)
         [Bad VisaIOError; Good []; Good []] [])
    = Returns tt
        (after_events evs tl
           (world_of_viewer (connected SA1 0 viewer_init)
              [Bad VisaIOError; Good []; Good []] [])) /\
    stops_at_failure evs = true.
Proof.
  apply (proj2 (configure_failure_contained (Some 0) 0 (dec 0 0) (dec 3000 0)
                  3001 (lit "10k") (lit "10k")
                  (world_of_viewer (connected SA1 0 viewer_init)
                     [Bad VisaIOError; Good []; Good []] []))).
  split; reflexivity.
Defined.

(** ** The frequency axis *)

Lemma arange_length (n : nat) : length (Np.arange n) = n.
Proof. unfold Np.arange. rewrite length_map, length_seq. reflexivity. Qed.

Lemma set_last_length (y : list float) (v : float) :
  length (Np.set_last y v) = length y.
Proof.
  destruct y as [|a y]; [reflexivity|].
  unfold Np.set_last. rewrite length_app, removelast_firstn_len, length_firstn.
  simpl. lia.
Qed.

Lemma linspace_length (a b : float) (n : nat) :
  length (Np.linspace a b n) = n.
Proof.
  unfold Np.linspace.
  destruct (1 <? n)%nat; rewrite ?set_last_length, length_map;
    destruct (0 <? Z.of_nat n - 1)%Z;
    try destruct (feqb _ _);
    rewrite length_map; apply arange_length.
Qed.

Lemma arange_nth (n i : nat) (d : float) :
  i < n -> nth i (Np.arange n) d = float_of_Z (Z.of_nat i).
Proof.
  intros H. unfold Np.arange.
  rewrite (nth_indep _ d (float_of_Z (Z.of_nat 0)))
    by (rewrite length_map, length_seq; exact H).
  rewrite (map_nth (fun i => float_of_Z (Z.of_nat i))).
  rewrite seq_nth by exact H. reflexivity.
Qed.

Lemma map_arange_nth (f : float -> float) (n i : nat) (d : float) :
  i < n -> nth i (map f (Np.arange n)) d = f (float_of_Z (Z.of_nat i)).
Proof.
  intros H.
  rewrite (nth_indep _ d (f d)) by (rewrite length_map, arange_length; exact H).
  rewrite map_nth, arange_nth by exact H. reflexivity.
Qed.

Lemma set_last_nth (y : list float) (v d : float) (i : nat) :
  S i < length y -> nth i (Np.set_last y v) d = nth i y d.
Proof.
  intros H. destruct y as [|a y]; [simpl in H; lia|].
  unfold Np.set_last.
  rewrite app_nth1
    by (rewrite removelast_firstn_len, length_firstn; simpl in *; lia).
  rewrite removelast_firstn_len, nth_firstn.
  destruct (Nat.ltb_spec i (Nat.pred (length (a :: y))));
    [reflexivity|simpl in *; lia].
Qed.

Lemma set_last_last (y : list float) (v d : float) :
  y <> [] -> last (Np.set_last y v) d = v.
Proof.
  intros H. destruct y as [|a y]; [congruence|].
  unfold Np.set_last. apply last_last.
Qed.

Lemma linspace_last (a b : float) (n : nat) (d : float) :
  2 <= n -> last (Np.linspace a b n) d = b.
Proof.
  intros H. unfold Np.linspace.
  destruct (Nat.ltb_spec 1 n); [|lia].
  apply set_last_last. intros E.
  apply (f_equal (@length float)) in E.
  rewrite length_map in E.
  destruct (0 <? Z.of_nat n - 1)%Z; try destruct (feqb _ _);
    rewrite length_map, arange_length in E; simpl in E; lia.
Qed.

Lemma linspace_nth (a b : float) (n i : nat) (d : float) :
  S i < n -> nth i (Np.linspace a b n) d = axis_point a b n i.
Proof.
  intros H. unfold Np.linspace, axis_point.
  destruct (Nat.ltb_spec 1 n); [|lia].
  rewrite set_last_nth.
  2:{ rewrite length_map.
      destruct (0 <? Z.of_nat n - 1)%Z; try destruct (feqb _ _);
        rewrite length_map, arange_length; exact H. }
  destruct (Z.ltb_spec 0 (Z.of_nat n - 1)); [|lia].
  destruct (feqb _ _); rewrite map_map, map_arange_nth by lia; reflexivity.
Qed.

Lemma feqb_refl (x : float) : is_nan x = false -> feqb x x = true.
Proof.
  unfold feqb, SFeqb.
  destruct x as [s|s| |s m e]; simpl; try discriminate; try reflexivity.
  - destruct s; reflexivity.
  - destruct s; rewrite Z.compare_refl;
      change (PosDef.Pos.compare_cont Eq m m) with (Pos.compare_cont Eq m m);
      rewrite compare_cont_refl; reflexivity.
Qed.

(** With a finite non-zero step, the first point of the axis is the start
    (as a number: a zero may change sign). *)
Lemma axis_point_first (a b : float) (n : nat) (s : bool) (m : positive)
    (e : Z) :
  fdiv (fsub b a) (float_of_Z (Z.of_nat n - 1)) = S754_finite s m e ->
  is_nan a = false ->
  feqb (axis_point a b n 0) a = true.
Proof.
  intros Hstep Ha. unfold axis_point. rewrite Hstep.
  change (float_of_Z (Z.of_nat 0)) with (S754_zero false).
  destruct s, a as [sa|sa| |sa ma ea]; try discriminate;
    try (destruct sa); try reflexivity;
    apply (feqb_refl (S754_finite _ ma ea)); reflexivity.
Qed.

(** C6. When its round trips succeed, [_read_trace_ascii_block] returns
    the decoded amplitudes with an axis of as many points as amplitudes
    were decoded, whatever point count the instrument declared; a
    different declared count only adds a printed warning. From two points
    on, the axis ends exactly at the stop frequency, its other points are
    the start plus multiples of one step and, for a finite non-zero
    step, it begins at the start. *)
Theorem trace_axis_from_decoded_count (h : handle) (w : world)
    (a1 pts_t a2 start_t a3 stop_t a4 a5 raw_t : str) (tl : list io)
    (points : Z) (f_start f_stop : float) (vals : list float) :
  calm h w ->
  wire w = [Good a1; Good pts_t; Good a2; Good start_t; Good a3;
            Good stop_t; Good a4; Good a5; Good raw_t] ++ tl ->
  int_ (strip pts_t) = Ok points ->
  float_ (strip start_t) = Ok f_start ->
  float_ (strip stop_t) = Ok f_stop ->
  decode_block (strip raw_t) = Ok vals ->
  let n := length vals in
  let freqs := Np.linspace f_start f_stop n in
  let warning :=
    if (Z.of_nat n =? points)%Z then []
    else [EPrint (points_warning points n)] in
  _read_trace_ascii_block (Some h) w
  = Returns (freqs, vals)
      (after_events (trace_query_events h ++ warning) tl w) /\
  length freqs = n /\
  (2 <= n ->
   last freqs S754_nan = f_stop /\
   (forall i, S i < n ->
      nth i freqs S754_nan = axis_point f_start f_stop n i) /\
   (forall s m e,
      fdiv (fsub f_stop f_start) (float_of_Z (Z.of_nat n - 1))
      = S754_finite s m e ->
      is_nan f_start = false ->
      feqb (nth 0 freqs S754_nan) f_start = true)) /\
  (n = 1 ->
   freqs = [fadd (fmul (S754_zero false) (fsub f_stop f_start)) f_start]) /\
  (n = 0 -> freqs = []).
Proof.
  intros Hc Hw Hp Hs He Hd. cbv zeta.
  split; [|split; [|split; [|split]]].
  - unfold _read_trace_ascii_block. simpl app in Hw.
    do 3 io_step. rewrite Hp, bind_lift_Ok.
    do 3 io_step. rewrite Hs, bind_lift_Ok.
    do 3 io_step. rewrite He, bind_lift_Ok.
    do 5 io_step. rewrite Hd, bind_lift_Ok.
    destruct (Z.of_nat (length vals) =? points)%Z; reflexivity.
  - apply linspace_length.
  - intros Hn. split; [now apply linspace_last|]. split.
    + intros i Hi. now apply linspace_nth.
    + intros s m e Hstep Ha. rewrite linspace_nth by lia.
      exact (axis_point_first _ _ _ _ _ _ Hstep Ha).
  - intros ->. reflexivity.
  - intros ->. reflexivity.
Qed.

(** An instrument that declares 3001 points and sends five values
    between 0 Hz and 10 Hz: the trace comes back with the five-point
    axis 0, 2.5, 5, 7.5, 10 and a warning. *)
Lemma trace_axis_from_decoded_count_witness :
  _read_trace_ascii_block (Some 0)
    (world_of_viewer (connected SA1 0 viewer_init)
       [Good []; Good (lit "3001"); Good []; Good (lit "0"); Good [];
        Good (lit "10"); Good []; Good []; Good (lit "#214-1,-2,-3,-4,-5")]
       [])
  = Returns
      ([dec 0 0; dec 25 (-1); dec 5 0; dec 75 (-1); dec 10 0],
       [float_of_Z (-1); float_of_Z (-2); float_of_Z (-3); float_of_Z (-4);
        float_of_Z (-5)])
      (after_events
         (trace_query_events 0 ++ [EPrint (points_warning 3001 5)]) []
         (world_of_viewer (connected SA1 0 viewer_init)
            [Good []; Good (lit "3001"); Good []; Good (lit "0"); Good [];
             Good (lit "10"); Good []; Good [];
             Good (lit "#214-1,-2,-3,-4,-5")]
            [])).
Proof.
  refine (proj1 (trace_axis_from_decoded_count 0
            (world_of_viewer (connected SA1 0 viewer_init)
               [Good []; Good (lit "3001"); Good []; Good (lit "0"); Good [];
                Good (lit "10"); Good []; Good [];
                Good (lit "#214-1,-2,-3,-4,-5")] [])
            [] (lit "3001") [] (lit "0") [] (lit "10") [] []
            (lit "#214-1,-2,-3,-4,-5") [] 3001 (dec 0 0) (dec 10 0)
            [float_of_Z (-1); float_of_Z (-2); float_of_Z (-3);
             float_of_Z (-4); float_of_Z (-5)] _ _ _ _ _ _)).
  - split; reflexivity.
  - reflexivity.
  - vm_compute. reflexivity.
  - vm_compute. reflexivity.
  - vm_compute. reflexivity.
  - vm_compute. reflexivity.
Defined.

(** ** The connect button *)

(** C10, as stated, fails: with an empty address entry, [connect1] on a
    connected session only shows an error; the session stays connected,
    its flag stays set and its transport stays open. *)
Lemma connect_empty_address_keeps_session :
  connect1 ""
    (world_of_viewer (running SA1 (connected SA1 0 viewer_init)) [Good []] [])
  = Returns tt
      (emit (EUi SA1 (showerror "Please enter a valid IP address"))
         (world_of_viewer (running SA1 (connected SA1 0 viewer_init))
            [Good []] [])) /\
  inst (sa1 (app (world_of (connect1 ""
         (world_of_viewer (running SA1 (connected SA1 0 viewer_init))
            [Good []] []))))) = Some 0 /\
  continuous (sa1 (app (world_of (connect1 ""
         (world_of_viewer (running SA1 (connected SA1 0 viewer_init))
            [Good []] []))))) = true.
Proof. repeat split. Qed.

(** C10, amended. With a non-empty address, [connect] on a session that
    holds a transport disconnects it: it returns without opening
    anything, clears the continuous flag, closes the transport (a close
    that fails is ignored), forgets the transport and the held peak
    arrays, and clears the plot; the other session is left as it was. *)
Theorem connect_toggles_disconnect (k : sid) (ip : string) (h : handle)
    (w : world) :
  ip <> ""%string ->
  inst (sess k (app w)) = Some h ->
  exists w' closing,
    connect k ip w = Returns tt w' /\
    continuous (sess k (app w')) = false /\
    inst (sess k (app w')) = None /\
    max_vals (sess k (app w')) = None /\
    max_freqs (sess k (app w')) = None /\
    sess (other k) (app w') = sess (other k) (app w) /\
    log w'
    = [EUi k plot_clear; EUi k (set_message "Disconnected" false);
       EUi k (set_connected false [])]
      ++ closing ++ [EUi k (set_continuous_active false)] ++ log w /\
    (closing = [] /\ is_closed h w = true \/
     closing = [EClose h true] /\ is_closed h w' = true \/
     closing = [EClose h false]).
Proof.
  intros Hip Hi. apply String.eqb_neq in Hip.
  unfold connect. rewrite Hip.
  unfold bind at 1. unfold attr at 1. rewrite Hi.
  unfold bind, assign, call, record, modify, try_except, raw_close, answer,
    is_closed.
  cbn [with_app emit app closed wire log].
  destruct (existsb (Nat.eqb h) (closed w)) eqn:Hcl.
  - eexists _, []. split; [reflexivity|].
    cbn [app with_app emit log]. rewrite !sess_upd_same.
    repeat split; try reflexivity.
    + destruct k; reflexivity.
    + left. split; reflexivity.
  - destruct (wire w) as [|[t|e] rest].
    + eexists _, [EClose h false]. split; [reflexivity|].
      cbn [app with_app emit log with_wire ret]. rewrite !sess_upd_same.
      repeat split; try reflexivity.
      * destruct k; reflexivity.
      * right. right. reflexivity.
    + eexists _, [EClose h true]. split; [reflexivity|].
      cbn [app with_app emit log with_wire with_closed ret].
      rewrite !sess_upd_same.
      repeat split; try reflexivity.
      * destruct k; reflexivity.
      * right. left. split; [reflexivity|].
        unfold is_closed. cbn. rewrite Nat.eqb_refl. reflexivity.
    + eexists _, [EClose h false]. split; [reflexivity|].
      cbn [app with_app emit log with_wire ret]. rewrite !sess_upd_same.
      repeat split; try reflexivity.
      * destruct k; reflexivity.
      * right. right. reflexivity.
Qed.

(** The connect button pressed with an address on a running, connected
    first analyzer: afterwards it is disconnected and stopped. *)
Lemma connect_toggles_disconnect_witness :
  exists w' closing,
    connect SA1 "192.168.1.10"
      (world_of_viewer (running SA1 (connected SA1 0 viewer_init))
         [Bad VisaIOError] [])
    = Returns tt w' /\
    continuous (sess SA1 (app w')) = false /\
    inst (sess SA1 (app w')) = None /\
    max_vals (sess SA1 (app w')) = None /\
    max_freqs (sess SA1 (app w')) = None /\
    sess (other SA1) (app w')
    = sess (other SA1)
        (app (world_of_viewer (running SA1 (connected SA1 0 viewer_init))
                [Bad VisaIOError] [])) /\
    log w'
    = [EUi SA1 plot_clear; EUi SA1 (set_message "Disconnected" false);
       EUi SA1 (set_connected false [])]
      ++ closing ++ [EUi SA1 (set_continuous_active false)]
      ++ log (world_of_viewer (running SA1 (connected SA1 0 viewer_init))
                [Bad VisaIOError] []) /\
    (closing = [] /\
     is_closed 0
       (world_of_viewer (running SA1 (connected SA1 0 viewer_init))
          [Bad VisaIOError] []) = true \/
     closing = [EClose 0 true] /\ is_closed 0 w' = true \/
     closing = [EClose 0 false]).
Proof.
  apply (connect_toggles_disconnect SA1 "192.168.1.10" 0
           (world_of_viewer (running SA1 (connected SA1 0 viewer_init))
              [Bad VisaIOError] [])).
  - discriminate.
  - reflexivity.
Defined.

(** ** Continuous sweep: leaving the loop *)

Lemma yield_total (w : world) : yield w = Returns tt (world_of (yield w)).
Proof. unfold yield. destruct (arrivals w); reflexivity. Qed.

Lemma raw_write_logged (h : handle) (c : scpi) (w : world) :
  exists ok, log (world_of (raw_write h c w)) = EWrite h c ok :: log w /\
             app (world_of (raw_write h c w)) = app w.
Proof.
  unfold raw_write, answer.
  destruct (is_closed h w); [exists false; split; reflexivity|].
  destruct (wire w) as [|[t|e] rest];
    [exists false|exists true|exists false]; split; reflexivity.
Qed.

(** The [finally] block always returns with the flag cleared. If the
    session holds a transport when the block reads [self.inst], its last
    transport operation is the write of [":INIT:CONT OFF"], successful or
    not; if it holds none, the thread writes nothing. *)
Lemma restore_spec (k : sid) (w1 : world) :
  exists w',
    restore k w1 = Returns tt w' /\
    continuous (sess k (app w')) = false /\
    match inst (sess k (app (world_of (yield w1)))) with
    | Some h =>
        exists ok rest,
          log w' = EAfter k (cb_ui (set_continuous_active false))
                   :: EWrite h INIT_CONT_OFF ok :: rest
    | None =>
        log w' = EAfter k (cb_ui (set_continuous_active false))
                 :: log (world_of (yield (world_of (yield w1))))
    end.
Proof.
  unfold restore, self_inst, write, on_inst.
  unfold bind at 1. unfold try_except. unfold bind at 1. unfold bind at 1.
  rewrite (yield_total w1). set (w2 := world_of (yield w1)).
  unfold attr at 1.
  destruct (inst (sess k (app w2))) as [h|] eqn:Ei.
  - unfold bind at 1. rewrite (yield_total w2).
    set (w3 := world_of (yield w2)).
    destruct (raw_write_logged h INIT_CONT_OFF w3) as [ok [Hl Ha]].
    destruct (raw_write h INIT_CONT_OFF w3) as [[] w4|e w4|w4] eqn:E;
      simpl in Hl, Ha.
    + eexists. split; [reflexivity|]. cbn. rewrite sess_upd_same.
      split; [reflexivity|]. rewrite Hl.
      fold w2. rewrite Ei. eauto.
    + eexists. split; [reflexivity|]. cbn. rewrite sess_upd_same.
      split; [reflexivity|]. rewrite Hl.
      fold w2. rewrite Ei. eauto.
    + exfalso. exact (finishes_raw_write h INIT_CONT_OFF w3 w4 E).
  - unfold bind at 1. rewrite (yield_total w2).
    eexists. split; [reflexivity|]. cbn. rewrite sess_upd_same.
    split; [reflexivity|]. fold w2. rewrite Ei. reflexivity.
Qed.

(** C3, as stated, fails on the disconnect path. The first analyzer is
    connected and running; while its thread is at the head of the loop
    the connect button is pressed again, which disconnects. The thread
    leaves the loop, and from the disconnect on nothing is written to the
    instrument: the non-continuous trigger mode is not restored. *)
Lemma disconnect_exit_skips_restore :
  exists before,
    history
      (do_continuous SA1 1
         (world_of_viewer (running SA1 (connected SA1 0 viewer_init))
            (repeat (Good []) 11)
            (repeat [] 16 ++ [[click_connect SA1 "192.168.1.10"]])))
    = before ++
      [ESetTimeout 0 30000;
       EMain (click_connect SA1 "192.168.1.10");
       EUi SA1 (set_continuous_active false);
       EClose 0 true;
       EUi SA1 (set_connected false []);
       EUi SA1 (set_message "Disconnected" false);
       EUi SA1 plot_clear;
       EPrint (setup_error AttributeError);
       EAfter SA1 (cb_ui (set_message "Sweep error" true));
       EAfter SA1 (cb_ui (set_continuous_active false))].
Proof.
  exists (firstn 19
            (history
               (do_continuous SA1 1
                  (world_of_viewer (running SA1 (connected SA1 0 viewer_init))
                     (repeat (Good []) 11)
                     (repeat [] 16
                      ++ [[click_connect SA1 "192.168.1.10"]]))))).
  vm_compute. reflexivity.
Qed.

Lemma try_except_total {A} (m : M A) (h : exn -> M A) (w : world) :
  (forall e w1, exists a w2, h e w1 = Returns a w2) ->
  (exists w1, try_except m h w = Unfinished w1) \/
  (exists a w1, try_except m h w = Returns a w1).
Proof.
  intros Hh. unfold try_except.
  destruct (m w) as [a w1|e w1|w1]; eauto.
Qed.

(** C3, amended. A run of [do_continuous] that is over has gone through
    its [finally] block: it returned normally with the running flag
    cleared; if the session still held a transport when that block read
    it, the last thing the thread did on it is the write of
    [":INIT:CONT OFF"] (successful or not), and if it held none (after a
    disconnect) the thread wrote nothing. A pass of the loop that raises
    ends the loop: the error is printed, the thread waits, and no further
    pass is made whatever fuel is left. *)
Theorem continuous_exit_restores (k : sid) (fuel : nat) (w : world) :
  ((exists w1, do_continuous k fuel w = Unfinished w1) \/
   (exists w1 w',
      do_continuous k fuel w = Returns tt w' /\
      restore k w1 = Returns tt w' /\
      continuous (sess k (app w')) = false /\
      match inst (sess k (app (world_of (yield w1)))) with
      | Some h =>
          exists ok rest,
            log w' = EAfter k (cb_ui (set_continuous_active false))
                     :: EWrite h INIT_CONT_OFF ok :: rest
      | None =>
          log w' = EAfter k (cb_ui (set_continuous_active false))
                   :: log (world_of (yield (world_of (yield w1))))
      end)) /\
  (forall n w1 w2 w3 h e,
     self_continuous k w = Returns true w1 ->
     self_inst k w1 = Returns (Some h) w2 ->
     iteration k w2 = Raises e w3 ->
     while_loop k (S fuel) n w
     = Returns tt (emit (ESleep f0_5) (emit (EPrint (sweep_error n e)) w3))).
Proof.
  split.
  - unfold do_continuous, try_finally.
    match goal with
    | |- context [match try_except ?m ?h w with _ => _ end] =>
        destruct (try_except_total m h w) as [[w1 E]|[[] [w1 E]]];
          [|rewrite E; left; eauto|rewrite E]
    end.
    + intros e w1. eexists tt, _. reflexivity.
    + right. destruct (restore_spec k w1) as [w' [Hr [Hc Hl]]].
      exists w1, w'. unfold bind. rewrite Hr.
      repeat split; assumption.
  - intros n w1 w2 w3 h e H1 H2 H3.
    cbn [while_loop].
    rewrite (bind_Returns _ H1). cbv iota.
    rewrite (bind_Returns _ H2). cbv iota.
    erewrite bind_Returns;
      [|erewrite try_Raises;
        [|erewrite bind_Raises by exact H3; reflexivity];
        unfold print, record, modify;
        erewrite bind_Returns by reflexivity;
        erewrite bind_Returns by (apply sleep_fits; vm_compute; reflexivity);
        reflexivity].
    reflexivity.
Qed.

(** The loop-ending statement at a concrete loop head: the first analyzer
    runs, the instrument rejects the trigger, and the loop is over after
    that one pass although fuel for four more is left. *)
Lemma continuous_exit_restores_witness :
  while_loop SA1 5 0
    (world_of_viewer (running SA1 (connected SA1 0 viewer_init))
       [Bad VisaIOError] [])
  = Returns tt
      (emit (ESleep f0_5)
         (emit (EPrint (sweep_error 0 VisaIOError))
            (emit (EWrite 0 INIT false)
               (world_of_viewer (running SA1 (connected SA1 0 viewer_init))
                  [] [])))).
Proof.
  apply (proj2 (continuous_exit_restores SA1 4
                  (world_of_viewer (running SA1 (connected SA1 0 viewer_init))
                     [Bad VisaIOError] []))
           0
           (world_of_viewer (running SA1 (connected SA1 0 viewer_init))
              [Bad VisaIOError] [])
           (world_of_viewer (running SA1 (connected SA1 0 viewer_init))
              [Bad VisaIOError] [])
           _ 0 VisaIOError);
    reflexivity.
Defined.

(** ** Continuous sweep: a stop request *)

(** Session [k] runs on transport [h]. The invariant [winding k h j c]
    says where a thread stands with respect to the stop request: still
    ahead, at most [j] steps away, or served, with at most [c] sweeps
    triggered since. Every step of the thread keeps it, except the
    trigger itself, which raises [c] by one. *)

Section Winding.
Variables (k : sid) (h : handle).

Lemma winding_mono (j j' c c' : nat) (w : world) :
  j <= j' -> c <= c' -> winding k h j c w -> winding k h j' c' w.
Proof.
  intros Hj Hc [[j0 [H0 Hp]]|[Ha [Hf [Hi [Hcl Hn]]]]].
  - left. exists j0. split; [lia|exact Hp].
  - right. repeat split; try assumption. lia.
Qed.

Lemma tame_winding (j c : nat) (w w' : world) :
  tame w w' -> winding k h j c w -> winding k h j c w'.
Proof.
  intros [Ha [Hp [Hc Hn]]] [[j0 [H0 [P1 [P2 [P3 P4]]]]]|[S1 [S2 [S3 [S4 S5]]]]].
  - left. exists j0. split; [exact H0|].
    unfold pending, is_closed in *. rewrite Ha, Hp, Hc. auto.
  - right. unfold stopped, is_closed in *. rewrite Ha, Hp, Hc, Hn. auto.
Qed.

Lemma yield_pending_later (j : nat) (w : world) :
  pending k h (S j) w -> pending k h j (world_of (yield w)).
Proof.
  intros [Ha [Hf [Hi Hc]]]. unfold yield. rewrite Ha. simpl.
  repeat split; assumption.
Qed.

Lemma yield_pending_now (w : world) :
  pending k h 0 w -> stopped k h 0 (world_of (yield w)).
Proof.
  intros [Ha [Hf [Hi Hc]]]. unfold yield. rewrite Ha.
  cbn [repeat List.app fold_left world_of].
  unfold run_action, handler, toggle_continuous.
  unfold bind at 1. unfold attr at 1.
  cbn [app emit with_arrivals with_app]. rewrite Hi.
  unfold bind at 1. unfold attr at 1.
  cbn [app emit with_arrivals with_app]. rewrite Hf.
  unfold bind, assign, call, record, modify. cbn.
  unfold stopped, is_closed in *. cbn.
  rewrite sess_upd_same. cbn.
  repeat split; try assumption; try lia.
Qed.

Lemma yield_winding (j c : nat) :
  hoare (winding k h j c) yield (winding k h j c).
Proof.
  intros w Hw. split; [intros w'; apply finishes_yield|].
  destruct Hw as [[j0 [H0 Hp]]|Hs].
  - destruct j0 as [|j0].
    + right. apply yield_pending_now in Hp.
      destruct Hp as [S1 [S2 [S3 [S4 S5]]]].
      repeat split; try assumption. lia.
    + left. exists j0. split; [lia|]. now apply yield_pending_later.
  - right. destruct Hs as [S1 Hs]. unfold yield. rewrite S1.
    split; assumption.
Qed.


(** The rules of sequencing and of [try]/[except]. *)

Lemma hoare_bind {A B} (P Q R : world -> Prop) (m : M A) (f : A -> M B) :
  hoare P m Q -> (forall a, hoare Q (f a) R) -> (forall w, Q w -> R w) ->
  hoare P (bind m f) R.
Proof.
  intros Hm Hf HQR w Hw. destruct (Hm w Hw) as [Hfin HQ].
  unfold bind. destruct (m w) as [a w1|e w1|w1] eqn:E; simpl in HQ.
  - exact (Hf a w1 HQ).
  - split; [discriminate|]. simpl. auto.
  - exfalso. exact (Hfin w1 eq_refl).
Qed.

Lemma hoare_seq {A B} (P : world -> Prop) (m : M A) (f : A -> M B) :
  hoare P m P -> (forall a, hoare P (f a) P) -> hoare P (bind m f) P.
Proof. intros Hm Hf. apply (hoare_bind P P P); auto. Qed.

Lemma hoare_catch {A} (P Q R : world -> Prop) (m : M A) (g : exn -> M A) :
  hoare P m Q -> (forall e, hoare Q (g e) R) -> (forall w, Q w -> R w) ->
  hoare P (try_except m g) R.
Proof.
  intros Hm Hg HQR w Hw. destruct (Hm w Hw) as [Hfin HQ].
  unfold try_except. destruct (m w) as [a w1|e w1|w1] eqn:E; simpl in HQ.
  - split; [discriminate|]. simpl. auto.
  - exact (Hg e w1 HQ).
  - exfalso. exact (Hfin w1 eq_refl).
Qed.

Lemma hoare_try {A} (P : world -> Prop) (m : M A) (g : exn -> M A) :
  hoare P m P -> (forall e, hoare P (g e) P) -> hoare P (try_except m g) P.
Proof. intros Hm Hg. apply (hoare_catch P P P); auto. Qed.

Lemma hoare_weaken {A} (P Q Q' : world -> Prop) (m : M A) :
  hoare P m Q -> (forall w, Q w -> Q' w) -> hoare P m Q'.
Proof. intros Hm HQ w Hw. destruct (Hm w Hw). split; auto. Qed.

(** Steps that are [tame] keep the invariant. *)

Lemma hoare_tame {A} (j c : nat) (m : M A) :
  finishes m -> (forall w, tame w (world_of (m w))) ->
  hoare (winding k h j c) m (winding k h j c).
Proof.
  intros Hf Ht w Hw. split; [intros w'; apply Hf|].
  exact (tame_winding j c w _ (Ht w) Hw).
Qed.

Lemma tame_refl (w : world) : tame w w.
Proof. repeat split. Qed.

Lemma tame_sleep (d : float) (w : world) : tame w (world_of (sleep d w)).
Proof.
  destruct (sleep_cases d w) as [->|[->| ->]]; repeat split.
Qed.

Lemma tame_record (e : event) (w : world) :
  (forall l, inits_since (e :: l) = inits_since l) ->
  tame w (world_of (record e w)).
Proof. intros H. repeat split. apply H. Qed.

Lemma tame_raw_write (h' : handle) (c : scpi) (w : world) :
  c <> INIT -> tame w (world_of (raw_write h' c w)).
Proof.
  intros Hc. unfold raw_write, answer.
  assert (Hn : forall ok l,
             inits_since (EWrite h' c ok :: l) = inits_since l)
    by (intros ok l; destruct c; try reflexivity; congruence).
  destruct (is_closed h' w); [repeat split; apply Hn|].
  destruct (wire w) as [|[t|e] rest]; repeat split; apply Hn.
Qed.

Lemma tame_raw_read (h' : handle) (w : world) :
  tame w (world_of (raw_read h' w)).
Proof.
  unfold raw_read, answer.
  destruct (is_closed h' w); [repeat split|].
  destruct (wire w) as [|[t|e] rest]; repeat split.
Qed.

Lemma tame_raw_get_timeout (h' : handle) (w : world) :
  tame w (world_of (raw_get_timeout h' w)).
Proof. unfold raw_get_timeout. destruct (is_closed h' w); repeat split. Qed.

Lemma tame_raw_set_timeout (h' : handle) (ms : Z) (w : world) :
  tame w (world_of (raw_set_timeout h' ms w)).
Proof. unfold raw_set_timeout. destruct (is_closed h' w); repeat split. Qed.



Lemma wind_ret {A} (j c : nat) (a : A) :
  hoare (winding k h j c) (ret a) (winding k h j c).
Proof. apply hoare_tame; [apply finishes_ret|intros w; apply tame_refl]. Qed.

Lemma wind_raise {A} (j c : nat) (e : exn) :
  hoare (winding k h j c) (@raise A e) (winding k h j c).
Proof. apply hoare_tame; [apply finishes_raise|intros w; apply tame_refl]. Qed.

Lemma wind_lift {A} (j c : nat) (r : result A) :
  hoare (winding k h j c) (lift r) (winding k h j c).
Proof. destruct r; [apply wind_ret|apply wind_raise]. Qed.

Lemma wind_attr {A} (j c : nat) (k' : sid) (f : session -> A) :
  hoare (winding k h j c) (attr k' f) (winding k h j c).
Proof. apply hoare_tame; [apply finishes_attr|intros w; apply tame_refl]. Qed.

Lemma wind_sleep (j c : nat) (d : float) :
  hoare (winding k h j c) (sleep d) (winding k h j c).
Proof. apply hoare_tame; [apply finishes_sleep|apply tame_sleep]. Qed.

Lemma wind_print (j c : nat) (p : printed) :
  hoare (winding k h j c) (print p) (winding k h j c).
Proof.
  apply hoare_tame; [apply finishes_print|].
  intros w. apply tame_record. reflexivity.
Qed.

Lemma wind_after (j c : nat) (k' : sid) (cb : callback) :
  hoare (winding k h j c) (after k' cb) (winding k h j c).
Proof.
  apply hoare_tame; [apply finishes_after|].
  intros w. apply tame_record. reflexivity.
Qed.

Lemma wind_on_inst {A} (j c : nat) (i : option handle) (f : handle -> M A) :
  (forall h', hoare (winding k h j c) (f h') (winding k h j c)) ->
  hoare (winding k h j c) (on_inst i f) (winding k h j c).
Proof.
  intros Hf. unfold on_inst. apply hoare_seq; [apply yield_winding|].
  intros _. destruct i; [apply Hf|apply wind_raise].
Qed.

Lemma wind_write (j c : nat) (i : option handle) (cmd : scpi) :
  cmd <> INIT -> hoare (winding k h j c) (write i cmd) (winding k h j c).
Proof.
  intros Hc. apply wind_on_inst. intros h'.
  apply hoare_tame; [apply finishes_raw_write|].
  intros w. now apply tame_raw_write.
Qed.

Lemma wind_read (j c : nat) (i : option handle) :
  hoare (winding k h j c) (read i) (winding k h j c).
Proof.
  apply wind_on_inst. intros h'.
  apply hoare_tame; [apply finishes_raw_read|apply tame_raw_read].
Qed.

Lemma wind_get_timeout (j c : nat) (i : option handle) :
  hoare (winding k h j c) (get_timeout i) (winding k h j c).
Proof.
  apply wind_on_inst. intros h'.
  apply hoare_tame; [apply finishes_raw_get_timeout|apply tame_raw_get_timeout].
Qed.

Lemma wind_set_timeout (j c : nat) (i : option handle) (ms : Z) :
  hoare (winding k h j c) (set_timeout i ms) (winding k h j c).
Proof.
  apply wind_on_inst. intros h'.
  apply hoare_tame; [apply finishes_raw_set_timeout|].
  intros w. apply tame_raw_set_timeout.
Qed.

Lemma wind_self_inst (j c : nat) (k' : sid) :
  hoare (winding k h j c) (self_inst k') (winding k h j c).
Proof.
  unfold self_inst. apply hoare_seq; [apply yield_winding|].
  intros _. apply wind_attr.
Qed.

Ltac wind :=
  repeat first
    [ match goal with
      | |- hoare _ (sleep _) _ => apply wind_sleep
      | |- hoare _ (bind _ _) _ => apply hoare_seq; [|intros ?]
      end
    | apply wind_ret | apply wind_raise | apply wind_lift | apply wind_attr
    | apply wind_print | apply wind_after
    | apply wind_read | apply wind_get_timeout | apply wind_set_timeout
    | apply wind_self_inst
    | apply wind_write; discriminate
    | apply hoare_try; [|intros ?]
    | apply hoare_seq; [|intros ?]
    | match goal with
      | |- hoare _ (if ?b then _ else _) _ => destruct b
      | |- hoare _ (match ?x with _ => _ end) _ => destruct x
      end ].

Lemma wind_settings (j c : nat) (k' : sid) :
  hoare (winding k h j c) (settings k') (winding k h j c).
Proof. unfold settings. wind. Qed.

Lemma wind_configure_sa (j c : nat) (i : option handle)
    (start_mhz stop_mhz : float) (points : Z) (bw_res bw_vid : str) :
  hoare (winding k h j c) (_configure_sa i start_mhz stop_mhz points bw_res bw_vid)
        (winding k h j c).
Proof. unfold _configure_sa. wind. Qed.

Lemma wind_read_trace (j c : nat) (i : option handle) :
  hoare (winding k h j c) (_read_trace_ascii_block i) (winding k h j c).
Proof. unfold _read_trace_ascii_block. wind. Qed.


(** The trigger, and a pass of the loop, which triggers once. *)

Lemma raw_write_init_winding (j c : nat) (h' : handle) :
  hoare (winding k h j c) (raw_write h' INIT) (winding k h j (S c)).
Proof.
  intros w Hw. split; [intros w'; apply finishes_raw_write|].
  assert (Ht : arrivals (world_of (raw_write h' INIT w)) = arrivals w /\
               app (world_of (raw_write h' INIT w)) = app w /\
               closed (world_of (raw_write h' INIT w)) = closed w /\
               inits_since (log (world_of (raw_write h' INIT w)))
               = S (inits_since (log w))).
  { unfold raw_write, answer.
    destruct (is_closed h' w); [repeat split|].
    destruct (wire w) as [|[t|e] rest]; repeat split. }
  destruct Ht as [Ha [Hp [Hc Hn]]].
  destruct Hw as [[j0 [H0 [P1 [P2 [P3 P4]]]]]|[S1 [S2 [S3 [S4 S5]]]]].
  - left. exists j0. split; [exact H0|].
    unfold pending, is_closed in *. rewrite Ha, Hp, Hc. auto.
  - right. unfold stopped, is_closed in *. rewrite Ha, Hp, Hc, Hn.
    repeat split; auto. lia.
Qed.

Lemma wind_write_init (j c : nat) (i : option handle) :
  hoare (winding k h j c) (write i INIT) (winding k h j (S c)).
Proof.
  unfold write, on_inst.
  apply (hoare_bind _ (winding k h j c) _); [apply yield_winding| |].
  - intros _. destruct i as [h'|].
    + apply raw_write_init_winding.
    + apply (hoare_weaken _ (winding k h j c)); [apply wind_raise|].
      intros w. apply winding_mono; lia.
  - intros w. apply winding_mono; lia.
Qed.

Lemma wind_iteration (j : nat) :
  hoare (winding k h j 0) (iteration k) (winding k h j 1).
Proof.
  unfold iteration.
  apply (hoare_bind _ (winding k h j 0) _); [apply wind_self_inst| |].
  - intros i.
    apply (hoare_bind _ (winding k h j 1) _);
      [apply wind_write_init| |auto].
    intros _. wind.
  - intros w. apply winding_mono; lia.
Qed.

Lemma winding_flag (j c : nat) (w : world) :
  winding k h j c w -> continuous (sess k (app w)) = true ->
  exists j', j' <= j /\ pending k h j' w.
Proof.
  intros [Hp|[_ [Hf _]]] Ht; [exact Hp|congruence].
Qed.

Lemma winding_inst (j c : nat) (w : world) :
  winding k h j c w -> inst (sess k (app w)) = Some h.
Proof.
  intros [[j' [_ [_ [_ [Hi _]]]]]|[_ [_ [Hi _]]]]; exact Hi.
Qed.

Lemma pending_winding0 (j : nat) (w : world) :
  pending k h j w -> winding k h j 0 w.
Proof. intros Hp. left. exists j. split; [lia|exact Hp]. Qed.

Lemma bind_attr {A B} (k' : sid) (f : session -> A) (g : A -> M B)
    (w : world) :
  bind (attr k' f) g w = g (f (sess k' (app w))) w.
Proof. reflexivity. Qed.

(** With more fuel than the stop request is steps away, the loop ends;
    once the request is served at most one more sweep is triggered. *)
Lemma wind_while_loop (fuel : nat) :
  forall j n, j < fuel ->
    hoare (winding k h j 1) (while_loop k fuel n) (winding k h j 1).
Proof.
  induction fuel as [|fuel IH]; intros j n Hj; [lia|].
  intros w Hw. cbn [while_loop]. unfold self_continuous.
  rewrite bind_assoc. rewrite (bind_Returns _ (yield_total w)).
  destruct (yield_winding j 1 w Hw) as [_ Hw1].
  set (w1 := world_of (yield w)) in *.
  rewrite bind_attr.
  destruct (continuous (sess k (app w1))) eqn:Hflag.
  2:{ split; [discriminate|exact Hw1]. }
  (* the flag was read true: the request is still to come *)
  assert (Hp1 : exists j1, S j1 <= j /\ pending k h j1 w1).
  { destruct Hw as [[j0 [H0 Hp]]|[S1 Hs]].
    - destruct j0 as [|j0].
      + apply yield_pending_now in Hp. fold w1 in Hp.
        destruct Hp as [_ [Hf _]]. congruence.
      + exists j0. split; [lia|]. now apply yield_pending_later.
    - exfalso. unfold w1, yield in Hflag. rewrite S1 in Hflag.
      destruct Hs as [Hf _]. simpl in Hflag. congruence. }
  destruct Hp1 as [j1 [Hj1 Hp1]].
  unfold self_inst. rewrite bind_assoc.
  rewrite (bind_Returns _ (yield_total w1)).
  destruct (yield_winding j1 0 w1 (pending_winding0 j1 w1 Hp1)) as [_ Hw2].
  set (w2 := world_of (yield w1)) in *.
  rewrite bind_attr.
  rewrite (winding_inst j1 0 w2 Hw2).
  assert (Hrest :
    hoare (winding k h j1 0)
      (go_on <- try_except (iteration k;; ret true)
                  (fun sweep_err =>
                     print (sweep_error n sweep_err);; sleep f0_5;; ret false);;
       (if go_on : bool then while_loop k fuel (S n) else ret tt))
      (winding k h j1 1)).
  { apply (hoare_bind _ (winding k h j1 1) _); [| |auto].
    - apply (hoare_catch _ (winding k h j1 1) _); [| |auto].
      + apply (hoare_bind _ (winding k h j1 1) _);
          [apply wind_iteration| |auto].
        intros _. apply wind_ret.
      + intros e. wind.
    - intros [|]; [apply IH; lia|apply wind_ret]. }
  destruct (Hrest w2 Hw2) as [Hfin Hw3].
  split; [exact Hfin|].
  revert Hw3. apply winding_mono; lia.
Qed.


Lemma pending_arrivals (j : nat) (w : world) :
  pending k h j w -> arrivals w <> [].
Proof.
  intros [Ha _]. rewrite Ha. destruct j; discriminate.
Qed.

Lemma restore_winding (j : nat) (w1 : world) :
  winding k h j 1 w1 ->
  exists w', restore k w1 = Returns tt w' /\
             (arrivals w' = [] -> inits_since (log w') <= 1).
Proof.
  intros Hw. unfold restore.
  assert (Htry :
    hoare (winding k h j 1)
      (try_except (i <- self_inst k;; write i INIT_CONT_OFF)
                  (fun _ => ret tt))
      (winding k h j 1)) by wind.
  destruct (Htry w1 Hw) as [Hfin HwT].
  destruct (try_except_total
              (i <- self_inst k;; write i INIT_CONT_OFF)
              (fun _ => ret tt) w1) as [[wT E]|[[] [wT E]]].
  - intros e w2. eexists tt, _. reflexivity.
  - exfalso. exact (Hfin wT E).
  - rewrite E in HwT. simpl in HwT.
    rewrite (bind_Returns _ E).
    eexists. split; [reflexivity|].
    cbn. intros Ha.
    destruct HwT as [[j' [_ Hp]]|[_ [_ [_ [_ Hn]]]]]; [|exact Hn].
    exfalso. exact (pending_arrivals j' wT Hp Ha).
Qed.

Ltac wind_all :=
  repeat first
    [ apply wind_settings | apply wind_configure_sa | apply wind_read_trace
    | match goal with
      | |- hoare _ (sleep _) _ => apply wind_sleep
      | |- hoare _ (bind _ _) _ => apply hoare_seq; [|intros ?]
      end
    | apply wind_ret | apply wind_raise | apply wind_lift | apply wind_attr
    | apply wind_print | apply wind_after
    | apply wind_read | apply wind_get_timeout | apply wind_set_timeout
    | apply wind_self_inst
    | apply wind_write; discriminate
    | apply hoare_try; [|intros ?]
    | apply hoare_seq; [|intros ?]
    | match goal with
      | |- hoare _ (if ?b then _ else _) _ => destruct b
      | |- hoare _ (match ?x with _ => _ end) _ => destruct x
      end ].

Lemma wind_do_continuous (j fuel : nat) (w : world) :
  pending k h j w -> j < fuel ->
  exists w',
    do_continuous k fuel w = Returns tt w' /\
    continuous (sess k (app w')) = false /\
    (arrivals w' = [] -> inits_since (log w') <= 1) /\
    exists ok rest,
      log w' = EAfter k (cb_ui (set_continuous_active false))
               :: EWrite h INIT_CONT_OFF ok :: rest.
Proof.
  intros Hp Hj.
  assert (Hw : winding k h j 1 w) by (left; exists j; split; [lia|exact Hp]).
  unfold do_continuous, try_finally.
  match goal with
  | |- context [match try_except ?m ?g w with _ => _ end] =>
      assert (Htry : hoare (winding k h j 1) (try_except m g)
                           (winding k h j 1));
      [|destruct (Htry w Hw) as [Hfin Hw1];
        destruct (try_except_total m g w) as [[w1 E]|[[] [w1 E]]];
        [|exfalso; exact (Hfin w1 E)|rewrite E in Hw1 |- *]]
  end.
  - apply hoare_try; [|intros e; wind_all].
    apply hoare_seq; [apply wind_settings|].
    intros [[[[start_val stop_val] pts] bw_res] bw_vid].
    do 9 (apply hoare_seq; [solve [wind_all]|intros ?]).
    apply hoare_seq; [apply wind_while_loop; exact Hj|intros ?].
    wind_all.
  - intros e w1. eexists tt, _. reflexivity.
  - simpl in Hw1.
    destruct (restore_winding j w1 Hw1) as [w' [Hr Hn]].
    destruct (restore_spec k w1) as [w'' [Hr' [Hc Hl]]].
    rewrite Hr in Hr'. injection Hr' as <-.
    exists w'. unfold bind. rewrite Hr.
    split; [reflexivity|]. split; [exact Hc|]. split; [exact Hn|].
    destruct (yield_winding j 1 w1 Hw1) as [_ Hy].
    rewrite (winding_inst j 1 _ Hy) in Hl. exact Hl.
Qed.

End Winding.

(** C7. A press of the continuous button while the session runs only
    clears the flag: no thread is started (the press that found the flag
    clear had started one). And when a running thread has that press
    ahead of it, [j] steps away, as the one thing the main thread will
    do, then with more fuel than [j] the thread ends; it ends with the
    flag clear and with the write of [":INIT:CONT OFF"] as its last
    transport operation; and once the press has been served, at most
    one more sweep has been triggered. *)
Theorem stop_request_winds_down (k : sid) (h : handle) (j fuel : nat)
    (w : world) :
  (inst (sess k (app w)) = Some h ->
   continuous (sess k (app w)) = true ->
   toggle_continuous k w
   = Returns tt
       (emit (EUi k (set_continuous_active false))
          (with_app (upd_sess k (set_continuous false)) w))) /\
  (inst (sess k (app w)) = Some h ->
   continuous (sess k (app w)) = false ->
   toggle_continuous k w
   = Returns tt
       (emit (ESpawn k continuous_thread)
          (emit (EUi k (set_continuous_active true))
             (with_app (upd_sess k (set_continuous true)) w)))) /\
  (pending k h j w -> j < fuel ->
   exists w',
     do_continuous k fuel w = Returns tt w' /\
     continuous (sess k (app w')) = false /\
     (arrivals w' = [] -> inits_since (log w') <= 1) /\
     exists ok rest,
       log w' = EAfter k (cb_ui (set_continuous_active false))
                :: EWrite h INIT_CONT_OFF ok :: rest).
Proof.
  split; [|split].
  - intros Hi Hc. unfold toggle_continuous.
    rewrite bind_attr, Hi, bind_attr, Hc. reflexivity.
  - intros Hi Hc. unfold toggle_continuous.
    rewrite bind_attr, Hi, bind_attr, Hc.
    unfold bind, assign, call, record, modify, _start_continuous, attr.
    cbn. rewrite sess_upd_same. cbn. rewrite Hi. reflexivity.
  - apply wind_do_continuous.
Qed.

(** On the first analyzer: the button pressed while it runs, the button
    pressed while it is idle, and a thread that has the stop request
    seventeen steps ahead, between the two tests at the head of its
    loop: it ends, restored and stopped, with fuel eighteen. *)
Lemma stop_request_winds_down_witness :
  toggle_continuous SA1
    (world_of_viewer (running SA1 (connected SA1 0 viewer_init)) [] [])
  = Returns tt
      (emit (EUi SA1 (set_continuous_active false))
         (with_app (upd_sess SA1 (set_continuous false))
            (world_of_viewer (running SA1 (connected SA1 0 viewer_init))
               [] []))) /\
  toggle_continuous SA1 (world_of_viewer (connected SA1 0 viewer_init) [] [])
  = Returns tt
      (emit (ESpawn SA1 continuous_thread)
         (emit (EUi SA1 (set_continuous_active true))
            (with_app (upd_sess SA1 (set_continuous true))
               (world_of_viewer (connected SA1 0 viewer_init) [] [])))) /\
  exists w',
    do_continuous SA1 18
      (world_of_viewer (running SA1 (connected SA1 0 viewer_init))
         (repeat (Good []) 40)
         (repeat [] 17 ++ [[click_continuous SA1]]))
    = Returns tt w' /\
    continuous (sess SA1 (app w')) = false /\
    (arrivals w' = [] -> inits_since (log w') <= 1) /\
    exists ok rest,
      log w' = EAfter SA1 (cb_ui (set_continuous_active false))
               :: EWrite 0 INIT_CONT_OFF ok :: rest.
Proof.
  split; [|split].
  - apply (proj1 (stop_request_winds_down SA1 0 0 0
             (world_of_viewer (running SA1 (connected SA1 0 viewer_init))
                [] []))); reflexivity.
  - apply (proj1 (proj2 (stop_request_winds_down SA1 0 0 0
             (world_of_viewer (connected SA1 0 viewer_init) [] []))));
      reflexivity.
  - apply (proj2 (proj2 (stop_request_winds_down SA1 0 17 18
             (world_of_viewer (running SA1 (connected SA1 0 viewer_init))
                (repeat (Good []) 40)
                (repeat [] 17 ++ [[click_continuous SA1]]))))).
    + repeat split.
    + lia.
Defined.

(** The same run, with an instrument that answers: the stop request lands
    after the flag was tested, so one more sweep is made (one trigger,
    one trace read), after which the thread restores the timeout and the
    trigger mode and ends. *)
Lemma stop_between_tests_one_more_sweep :
  exists before,
    history
      (do_continuous SA1 3
         (world_of_viewer (running SA1 (connected SA1 0 viewer_init))
            (repeat (Good []) 12 ++
             [Good (lit "0.5"); Good []; Good (lit "3"); Good [];
              Good (lit "0"); Good []; Good (lit "10"); Good []; Good [];
              Good (lit "-1,-2,-3"); Good []])
            (repeat [] 17 ++ [[click_continuous SA1]])))
    = before ++
      [EMain (click_continuous SA1);
       EUi SA1 (set_continuous_active false);
       EWrite 0 INIT true; EWrite 0 SWE_TIME_q true; ESleep f0_2;
       ERead 0 true; ESleep f1_5] ++
      trace_query_events 0 ++
      [EAfter SA1
         (cb_update_plot [dec 0 0; dec 5 0; dec 10 0]
            [float_of_Z (-1); float_of_Z (-2); float_of_Z (-3)]);
       ESetTimeout 0 2000;
       EWrite 0 INIT_CONT_OFF true;
       EAfter SA1 (cb_ui (set_continuous_active false))].
Proof.
  exists (firstn 20
            (history
               (do_continuous SA1 3
                  (world_of_viewer (running SA1 (connected SA1 0 viewer_init))
                     (repeat (Good []) 12 ++
                      [Good (lit "0.5"); Good []; Good (lit "3"); Good [];
                       Good (lit "0"); Good []; Good (lit "10"); Good [];
                       Good []; Good (lit "-1,-2,-3"); Good []])
                     (repeat [] 17 ++ [[click_continuous SA1]]))))).
  vm_compute. reflexivity.
Qed.

(* ================================================================= *)
(** * Further properties *)

(** ** Trace decoding: the data region and its fields *)

Lemma digits_value_snoc (ds : str) (c : ascii) :
  digits_value (ds ++ [c]) = (10 * digits_value ds + digit_val c)%Z.
Proof. unfold digits_value. rewrite fold_left_app. reflexivity. Qed.

Lemma digit_val_range (c : ascii) :
  is_digit c = true -> (0 <= digit_val c <= 9)%Z.
Proof.
  unfold is_digit, between, digit_val. intros H.
  apply andb_prop in H as [H1 H2].
  apply N.leb_le in H1. apply N.leb_le in H2. lia.
Qed.

Lemma digits_value_nonneg (ds : str) :
  forallb is_digit ds = true -> (0 <= digits_value ds)%Z.
Proof.
  induction ds as [|c ds IH] using rev_ind; intros H.
  - reflexivity.
  - rewrite forallb_app in H. apply andb_prop in H as [Hd Hc].
    simpl in Hc. rewrite andb_true_r in Hc.
    rewrite digits_value_snoc.
    pose proof (digit_val_range c Hc). specialize (IH Hd). lia.
Qed.

(** X1. With a definite-length header, what [_read_trace_ascii_block]
    decodes is the first [data_len] characters after the length field,
    [data_len] being the value of that field: what follows them is
    ignored, and a block shorter than it declares is decoded as far as it
    goes, without an error. *)
Theorem block_data_region (field rest : str) :
  1 <= length field <= 9 -> forallb is_digit field = true ->
  decode_block (definite_block field rest)
  = decode_region (firstn (Z.to_nat (digits_value field)) rest).
Proof.
  intros Hn Hd. unfold decode_block, definite_block.
  cbn [startswith index nth_error].
  change (Ascii.eqb "#" "#") with true. cbn iota. cbn [rbind].
  rewrite (int_digit_char _ Hn). cbn [rbind].
  rewrite (proj1 (block_regions (digit_char (length field)) field rest)).
  rewrite int_digits;
    [|destruct field; simpl in Hn; [lia|discriminate]|exact Hd].
  cbn [rbind]. f_equal.
  pose proof (digits_value_nonneg field Hd) as Hv.
  unfold slice, clamp_index. simpl length. rewrite length_app.
  destruct (Z.ltb_spec (2 + Z.of_nat (length field)) 0); [lia|].
  destruct (Z.ltb_spec (2 + Z.of_nat (length field) + digits_value field) 0);
    [lia|].
  rewrite (Z.min_r _ (2 + Z.of_nat (length field))) by lia.
  replace (Z.to_nat (2 + Z.of_nat (length field))) with (S (S (length field)))
    by lia.
  cbn [skipn]. rewrite skipn_app, skipn_all, Nat.sub_diag.
  cbn [List.app skipn].
  destruct (Z.le_ge_cases (digits_value field) (Z.of_nat (length rest))).
  - rewrite Z.min_r by lia. f_equal. lia.
  - rewrite Z.min_l by lia.
    rewrite !firstn_all2 by lia. reflexivity.
Qed.

(** The block ["#15-1,-2;garbage"] declares five characters: the two
    amplitudes are decoded and the rest is not looked at. *)
Lemma block_data_region_witness :
  decode_block (definite_block (lit "5") (lit "-1,-2;garbage"))
  = Ok [float_of_Z (-1); float_of_Z (-2)].
Proof.
  rewrite block_data_region;
    [vm_compute; reflexivity|simpl; lia|reflexivity].
Defined.

Lemma int_raises_ValueError (x : str) (e : exn) :
  int_ x = Raise e -> e = ValueError.
Proof.
  unfold int_.
  destruct (drop_underscores false (strip_by isspace_num x)) as [b|];
    [|congruence].
  destruct (take_sign b) as [neg body].
  destruct body; [congruence|].
  destruct (forallb is_digit _); congruence.
Qed.

Lemma rmap_float_raises (l : list str) (e : exn) :
  rmap float_ l = Raise e -> e = ValueError.
Proof.
  induction l as [|t l IH]; simpl; [discriminate|].
  destruct (float_ t) as [v|e'] eqn:E; simpl.
  - destruct (rmap float_ l) as [vs|e'']; simpl; [discriminate|].
    intros H. injection H as <-. now apply IH.
  - intros H. injection H as <-. exact (float_raises_ValueError _ _ E).
Qed.

Lemma decode_region_raises (d : str) (e : exn) :
  decode_region d = Raise e -> e = ValueError.
Proof. unfold decode_region. apply rmap_float_raises. Qed.

Lemma int_non_digit (c : ascii) :
  is_digit c = false -> int_ [c] = Raise ValueError.
Proof.
  destruct c as [b0 b1 b2 b3 b4 b5 b6 b7].
  destruct b0, b1, b2, b3, b4, b5, b6, b7;
    (discriminate || (intros _; vm_compute; reflexivity)).
Qed.

(** X2. The decoding step fails in two ways only. It raises [IndexError]
    exactly for the reply ["#"], whose second character is missing; every
    other failure is a [ValueError]: a width character that is not a
    digit, the width ["0"] (an empty length field), a length field or an
    amplitude that does not parse. *)
Theorem block_header_errors :
  (forall raw e,
     decode_block raw = Raise e ->
     e = ValueError \/ (e = IndexError /\ raw = ["#"])) /\
  decode_block ["#"] = Raise IndexError /\
  (forall c rest,
     is_digit c = false ->
     decode_block ("#" :: c :: rest) = Raise ValueError) /\
  (forall rest, decode_block ("#" :: "0" :: rest) = Raise ValueError).
Proof.
  split; [|split; [reflexivity|split]].
  - intros raw e. unfold decode_block.
    destruct raw as [|c0 raw];
      [intros H; left; exact (decode_region_raises _ _ H)|].
    cbn [startswith]. destruct (Ascii.eqb_spec c0 "#") as [->|_].
    + destruct raw as [|c raw].
      * cbn. intros H. injection H as <-. right. split; reflexivity.
      * cbn [index nth_error rbind].
        destruct (int_ [c]) as [n|e1] eqn:E1; cbn [rbind].
        -- destruct (int_ (slice _ 2 (2 + n))) as [m|e2] eqn:E2; cbn [rbind].
           ++ intros H. left. exact (decode_region_raises _ _ H).
           ++ intros H. injection H as <-. left.
              exact (int_raises_ValueError _ _ E2).
        -- intros H. injection H as <-. left.
           exact (int_raises_ValueError _ _ E1).
    + cbn [rbind]. intros H. left. exact (decode_region_raises _ _ H).
  - intros c rest Hc. unfold decode_block.
    cbn [startswith index nth_error].
    change (Ascii.eqb "#" "#") with true. cbn iota. cbn [rbind].
    rewrite (int_non_digit c Hc). reflexivity.
  - intros rest. unfold decode_block.
    cbn [startswith index nth_error].
    change (Ascii.eqb "#" "#") with true. cbn iota. cbn [rbind].
    change (int_ ["0"]) with (@Ok Z 0%Z). cbn [rbind].
    change (2 + 0)%Z with 2%Z. unfold slice.
    rewrite Z.sub_diag. reflexivity.
Qed.

Lemma split_comma (a b : str) :
  split "," (a ++ "," :: b) = split "," a ++ split "," b.
Proof.
  induction a as [|c a IH].
  - reflexivity.
  - cbn [List.app split]. destruct (Ascii.eqb c ",").
    + rewrite IH. reflexivity.
    + rewrite IH. destruct (split "," a) as [|t ts] eqn:E.
      * destruct a as [|c' a']; cbn in E; [discriminate|].
        destruct (Ascii.eqb c' ","); [discriminate|].
        destruct (split "," a'); discriminate.
      * reflexivity.
Qed.

Lemma rmap_app {A B} (f : A -> result B) (l1 l2 : list A) :
  rmap f (l1 ++ l2)
  = rbind (rmap f l1) (fun x => rbind (rmap f l2) (fun y => Ok (x ++ y))).
Proof.
  induction l1 as [|a l1 IH]; cbn [List.app rmap rbind].
  - destruct (rmap f l2); reflexivity.
  - destruct (f a) as [b|e]; cbn [rbind]; [|reflexivity].
    rewrite IH. destruct (rmap f l1) as [x|e]; cbn [rbind]; [|reflexivity].
    destruct (rmap f l2); reflexivity.
Qed.

(** X3. Decoding goes field by field: the values of [a,b] are those of
    [a] followed by those of [b], and the first failure is the one
    reported. A blank field counts for nothing, so a trailing or a
    leading comma changes nothing, and the empty text is the empty
    trace. *)
Theorem decode_region_comma (a b : str) :
  decode_region (a ++ "," :: b)
  = rbind (decode_region a) (fun x =>
    rbind (decode_region b) (fun y => Ok (x ++ y))) /\
  decode_region (a ++ [","]) = decode_region a /\
  decode_region ("," :: b) = decode_region b /\
  decode_region [] = Ok [].
Proof.
  assert (H : forall a b, decode_region (a ++ "," :: b)
    = rbind (decode_region a) (fun x =>
      rbind (decode_region b) (fun y => Ok (x ++ y)))).
  { intros a' b'. unfold decode_region.
    rewrite split_comma, filter_app. apply rmap_app. }
  split; [apply H|]. split; [|split; [|reflexivity]].
  - rewrite H. change (decode_region []) with (@Ok (list float) []).
    destruct (decode_region a) as [x|e]; cbn [rbind]; [|reflexivity].
    now rewrite app_nil_r.
  - change ("," :: b) with ([] ++ "," :: b). rewrite (H [] b).
    change (decode_region []) with (@Ok (list float) []).
    cbn [rbind]. destruct (decode_region b); reflexivity.
Qed.

Lemma split_plain (t : str) :
  forallb (fun c => negb (Ascii.eqb c ",")) t = true -> split "," t = [t].
Proof.
  induction t as [|c t IH]; cbn [forallb split]; [reflexivity|].
  intros H. apply andb_prop in H as [Hc Ht].
  apply negb_true_iff in Hc. rewrite Hc, (IH Ht). reflexivity.
Qed.

Lemma split_join (t : str) (ts : list str) :
  Forall (fun t => forallb (fun c => negb (Ascii.eqb c ",")) t = true)
         (t :: ts) ->
  split "," (join "," (t :: ts)) = t :: ts.
Proof.
  revert t. induction ts as [|u ts IH]; intros t H.
  - apply split_plain. now inversion H.
  - change (join "," (t :: u :: ts)) with (t ++ "," :: join "," (u :: ts)).
    inversion H as [|? ? Ht Hts]; subst.
    rewrite split_comma, (split_plain t Ht), (IH u Hts). reflexivity.
Qed.

(** X4. Splitting undoes joining: the comma-join of fields that hold no
    comma and are not blank decodes to the [float()] of each field, in
    order. *)
Theorem decode_join (fields : list str) :
  Forall (fun t => forallb (fun c => negb (Ascii.eqb c ",")) t = true /\
                   strip t <> []) fields ->
  decode_region (join "," fields) = rmap float_ fields.
Proof.
  intros H. destruct fields as [|t ts]; [reflexivity|].
  unfold decode_region. rewrite split_join.
  - f_equal. apply forallb_filter_id. rewrite forallb_forall.
    intros x Hx. rewrite Forall_forall in H. destruct (H x Hx) as [_ Hs].
    destruct (strip x); [congruence|reflexivity].
  - eapply Forall_impl; [|exact H]. intros a [Ha _]. exact Ha.
Qed.

(** Three fields, one of them padded with blanks. *)
Lemma decode_join_witness :
  decode_region (join "," [lit "-20.5"; lit " 3 "; lit "1e1"])
  = rmap float_ [lit "-20.5"; lit " 3 "; lit "1e1"].
Proof.
  apply decode_join.
  repeat constructor; try reflexivity; vm_compute; discriminate.
Defined.

(** ** Trace reading: replies that do not convert *)

(** X5. [_read_trace_ascii_block] converts each scalar reply before it
    goes on. A point count that [int()] rejects ends the read after the
    first round trip, although the count only serves a warning; a start
    or a stop frequency that [float()] rejects ends it after the second
    or the third. In none of these cases is the trace requested. *)
Theorem trace_read_aborts (h : handle) (w : world) :
  calm h w ->
  (forall a t e rest,
     wire w = Good a :: Good t :: rest -> int_ (strip t) = Raise e ->
     _read_trace_ascii_block (Some h) w
     = Raises e
         (after_events [EWrite h SWE_POIN_q true; ESleep f0_2; ERead h true]
            rest w)) /\
  (forall a t b u n e rest,
     wire w = Good a :: Good t :: Good b :: Good u :: rest ->
     int_ (strip t) = Ok n -> float_ (strip u) = Raise e ->
     _read_trace_ascii_block (Some h) w
     = Raises e
         (after_events
            [EWrite h SWE_POIN_q true; ESleep f0_2; ERead h true;
             EWrite h FREQ_STAR_q true; ESleep f0_2; ERead h true]
            rest w)) /\
  (forall a t b u c v n x e rest,
     wire w = Good a :: Good t :: Good b :: Good u :: Good c :: Good v
              :: rest ->
     int_ (strip t) = Ok n -> float_ (strip u) = Ok x ->
     float_ (strip v) = Raise e ->
     _read_trace_ascii_block (Some h) w
     = Raises e
         (after_events
            [EWrite h SWE_POIN_q true; ESleep f0_2; ERead h true;
             EWrite h FREQ_STAR_q true; ESleep f0_2; ERead h true;
             EWrite h FREQ_STOP_q true; ESleep f0_2; ERead h true]
            rest w)).
Proof.
  intros Hc. unfold _read_trace_ascii_block. split; [|split].
  - intros a t e rest Hw Ht. do 3 io_step. rewrite Ht. reflexivity.
  - intros a t b u n e rest Hw Ht Hu.
    do 3 io_step. rewrite Ht, bind_lift_Ok.
    do 3 io_step. rewrite Hu. reflexivity.
  - intros a t b u c v n x e rest Hw Ht Hu Hv.
    do 3 io_step. rewrite Ht, bind_lift_Ok.
    do 3 io_step. rewrite Hu, bind_lift_Ok.
    do 3 io_step. rewrite Hv. reflexivity.
Qed.

(** The instrument answers the point count with ["3001.0"], which
    [int()] rejects: the read is over after one round trip. *)
Lemma trace_read_aborts_witness :
  _read_trace_ascii_block (Some 0)
    (world_of_viewer (connected SA1 0 viewer_init)
       [Good []; Good (lit "3001.0"); Good []] [])
  = Raises ValueError
      (after_events [EWrite 0 SWE_POIN_q true; ESleep f0_2; ERead 0 true]
         [Good []]
         (world_of_viewer (connected SA1 0 viewer_init)
            [Good []; Good (lit "3001.0"); Good []] [])).
Proof.
  apply (proj1 (trace_read_aborts 0
                  (world_of_viewer (connected SA1 0 viewer_init)
                     [Good []; Good (lit "3001.0"); Good []] [])
                  (conj eq_refl eq_refl))
           [] (lit "3001.0") ValueError [Good []]).
  - reflexivity.
  - vm_compute. reflexivity.
Defined.

Lemma lstrip_blank (sp : ascii -> bool) (x : str) :
  forallb sp x = true -> lstrip_by sp x = [].
Proof.
  induction x as [|c x IH]; [reflexivity|]. cbn [forallb lstrip_by].
  intros H. apply andb_prop in H as [Hc Hx]. rewrite Hc. auto.
Qed.

Lemma strip_blank (x : str) : forallb isspace x = true -> strip x = [].
Proof.
  intros H. unfold strip, strip_by. now rewrite (lstrip_blank _ _ H).
Qed.

(** X6. A trace reply that is blank is no error for the reader: it
    returns the empty trace on the empty axis (with the warning, unless
    the instrument declared zero points). The failure comes later:
    [_update_plot] on the empty trace raises [IndexError] out of
    [update_data], having already stored the empty arrays as the peak
    hold, which the next real trace therefore replaces. *)
Theorem blank_trace_reply (h : handle) (w : world)
    (a1 pts_t a2 start_t a3 stop_t a4 a5 raw_t : str) (tl : list io)
    (points : Z) (f_start f_stop : float) :
  calm h w ->
  wire w = [Good a1; Good pts_t; Good a2; Good start_t; Good a3;
            Good stop_t; Good a4; Good a5; Good raw_t] ++ tl ->
  int_ (strip pts_t) = Ok points ->
  float_ (strip start_t) = Ok f_start ->
  float_ (strip stop_t) = Ok f_stop ->
  forallb isspace raw_t = true ->
  _read_trace_ascii_block (Some h) w
  = Returns ([], [])
      (after_events
         (trace_query_events h ++
          if (0 =? points)%Z then []
          else [EPrint (points_warning points 0)])
         tl w) /\
  forall k w0,
    exists w1,
      _update_plot k [] [] w0 = Raises IndexError w1 /\
      log w1 = log w0 /\
      max_vals (sess k (app w1)) = Some [] /\
      forall f fs v vs,
        let w2 := world_of (_update_plot k (f :: fs) (v :: vs) w1) in
        max_freqs (sess k (app w2)) = Some (f :: fs) /\
        max_vals (sess k (app w2)) = Some (v :: vs).
Proof.
  intros Hc Hw Hp Hs He Hb. split.
  - unfold _read_trace_ascii_block. cbn [List.app] in Hw.
    do 3 io_step. rewrite Hp, bind_lift_Ok.
    do 3 io_step. rewrite Hs, bind_lift_Ok.
    do 3 io_step. rewrite He, bind_lift_Ok.
    do 5 io_step. rewrite (strip_blank _ Hb).
    change (decode_block []) with (@Ok (list float) []).
    rewrite bind_lift_Ok. cbn [length Z.of_nat].
    destruct (0 =? points)%Z; reflexivity.
  - intros k w0.
    destruct (hold (max_freqs (sess k (app w0))) (max_vals (sess k (app w0)))
                [] []) as [nf nv] eqn:Eh.
    assert (Hnv : nv = []).
    { unfold hold in Eh.
      destruct (max_vals _) as [held|]; [|congruence].
      destruct (max_freqs _) as [hf|]; [|congruence].
      destruct held; cbn in Eh; congruence. }
    subst nv.
    exists (with_app (upd_sess k (set_max (Some nf) (Some []))) w0).
    split; [|split; [reflexivity|split]].
    + unfold _update_plot, bind, attr, assign, modify, update_data.
      rewrite Eh. reflexivity.
    + cbn [app with_app]. rewrite sess_upd_same. reflexivity.
    + intros f fs v vs.
      destruct (update_plot_session k (f :: fs) (v :: vs)
                  (with_app (upd_sess k (set_max (Some nf) (Some []))) w0))
        as [Hf Hv].
      cbv zeta in Hf, Hv |- *. rewrite Hf, Hv.
      cbn [app with_app]. rewrite sess_upd_same. split; reflexivity.
Qed.

(** An instrument that declares three points and answers the trace query
    with a line feed. *)
Lemma blank_trace_reply_witness :
  _read_trace_ascii_block (Some 0)
    (world_of_viewer (connected SA1 0 viewer_init)
       [Good []; Good (lit "3"); Good []; Good (lit "0"); Good [];
        Good (lit "10"); Good []; Good []; Good ["010"]] [])
  = Returns ([], [])
      (after_events
         (trace_query_events 0 ++ [EPrint (points_warning 3 0)]) []
         (world_of_viewer (connected SA1 0 viewer_init)
            [Good []; Good (lit "3"); Good []; Good (lit "0"); Good [];
             Good (lit "10"); Good []; Good []; Good ["010"]] [])).
Proof.
  refine (proj1 (blank_trace_reply 0
            (world_of_viewer (connected SA1 0 viewer_init)
               [Good []; Good (lit "3"); Good []; Good (lit "0"); Good [];
                Good (lit "10"); Good []; Good []; Good ["010"]] [])
            [] (lit "3") [] (lit "0") [] (lit "10") [] [] ["010"] []
            3 (dec 0 0) (dec 10 0) _ _ _ _ _ _)).
  - split; reflexivity.
  - reflexivity.
  - vm_compute. reflexivity.
  - vm_compute. reflexivity.
  - vm_compute. reflexivity.
  - reflexivity.
Defined.

(** ** Sweep configuration: the commands *)

Lemma replace_plain (c : ascii) (by_ x : str) :
  forallb (fun d => negb (Ascii.eqb d c)) x = true -> replace c by_ x = x.
Proof.
  unfold replace. induction x as [|d x IH]; cbn [forallb flat_map];
    [reflexivity|].
  intros H. apply andb_prop in H as [Hd Hx].
  apply negb_true_iff in Hd. rewrite Hd, (IH Hx). reflexivity.
Qed.

Lemma digits_not (c : ascii) (ds : str) :
  is_digit c = false -> forallb is_digit ds = true ->
  forallb (fun d => negb (Ascii.eqb d c)) ds = true.
Proof.
  intros Hc H. rewrite forallb_forall in *. intros d Hd.
  apply negb_true_iff. apply (is_digit_not d c (H d Hd) Hc).
Qed.

Lemma span_digits_app (ds rest : str) :
  forallb is_digit ds = true ->
  match rest with c :: _ => is_digit c = false | [] => True end ->
  span_digits (ds ++ rest) = (ds, rest).
Proof.
  intros Hd Hr. induction ds as [|c ds IH]; cbn [List.app].
  - destruct rest as [|c r]; [reflexivity|]. cbn [span_digits].
    rewrite Hr. reflexivity.
  - cbn [forallb] in Hd. apply andb_prop in Hd as [Hc Hd].
    cbn [span_digits]. rewrite Hc, (IH Hd). reflexivity.
Qed.

Lemma drop_underscores_plain (x : str) (prev : bool) :
  forallb (fun c => negb (Ascii.eqb c "_")) x = true ->
  drop_underscores prev x = Some x.
Proof.
  revert prev. induction x as [|c x IH]; intros prev H; [reflexivity|].
  cbn [forallb] in H. apply andb_prop in H as [Hc Hx].
  apply negb_true_iff in Hc. cbn [drop_underscores].
  rewrite Hc, (IH _ Hx). reflexivity.
Qed.

Lemma digit_lower (c : ascii) : is_digit c = true -> lower c = c.
Proof.
  unfold is_digit, lower, between. intros H.
  apply andb_prop in H as [H1 H2].
  apply N.leb_le in H1. apply N.leb_le in H2.
  destruct (N.leb_spec 65 (code c)); [lia|reflexivity].
Qed.

(** [float()] of digits followed by an exponent of one digit, and of
    digits alone. *)
Lemma float_digits_exp (ds : str) (d : ascii) :
  ds <> [] -> forallb is_digit ds = true -> is_digit d = true ->
  float_ (ds ++ ["e"; d])
  = Ok (float_of_decimal false (digits_value ds) (digit_val d)).
Proof.
  intros Hne Hd Hdd.
  assert (Hall : forall c, In c (ds ++ ["e"; d]) ->
            isspace_num c = false /\ Ascii.eqb c "_" = false).
  { intros c Hc. apply in_app_or in Hc as [Hc|[<-|[<-|[]]]].
    - rewrite forallb_forall in Hd. split.
      + now apply is_digit_not_space, Hd.
      + apply is_digit_not; [now apply Hd|reflexivity].
    - split; reflexivity.
    - split; [now apply is_digit_not_space|now apply is_digit_not]. }
  destruct ds as [|c ds]; [congruence|].
  cbn [forallb] in Hd. apply andb_prop in Hd as [Hc Hds].
  unfold float_.
  change ((c :: ds) ++ ["e"; d]) with (c :: ds ++ ["e"; d]) in *.
  rewrite strip_cons by (now apply is_digit_not_space).
  rewrite rstrip_all.
  2:{ rewrite forallb_forall. intros x Hx. apply negb_true_iff.
      apply Hall. now right. }
  rewrite drop_underscores_plain.
  2:{ rewrite forallb_forall. intros x Hx. apply negb_true_iff.
      now apply Hall. }
  unfold take_sign.
  rewrite (is_digit_not c "-" Hc eq_refl), (is_digit_not c "+" Hc eq_refl).
  cbn [map]. rewrite (digit_lower c Hc).
  assert (E1 : str_eqb (c :: map lower (ds ++ ["e"; d])) (lit "inf") = false).
  { cbn [lit list_ascii_of_string str_eqb].
    rewrite (is_digit_not c "i" Hc eq_refl). reflexivity. }
  assert (E2 : str_eqb (c :: map lower (ds ++ ["e"; d])) (lit "infinity")
               = false).
  { cbn [lit list_ascii_of_string str_eqb].
    rewrite (is_digit_not c "i" Hc eq_refl). reflexivity. }
  assert (E3 : str_eqb (c :: map lower (ds ++ ["e"; d])) (lit "nan") = false).
  { cbn [lit list_ascii_of_string str_eqb].
    rewrite (is_digit_not c "n" Hc eq_refl). reflexivity. }
  rewrite E1, E2, E3. cbn [orb].
  unfold scan_decimal.
  change (c :: ds ++ ["e"; d]) with ((c :: ds) ++ ["e"; d]).
  rewrite span_digits_app;
    [|cbn [forallb]; rewrite Hc, Hds; reflexivity|reflexivity].
  change (Ascii.eqb "e" ".") with false. cbv iota.
  rewrite app_nil_r. cbn [List.app].
  change (Ascii.eqb (lower "e") "e") with true. cbv iota.
  unfold take_sign.
  rewrite (is_digit_not d "-" Hdd eq_refl), (is_digit_not d "+" Hdd eq_refl).
  cbn [span_digits]. rewrite Hdd.
  cbn [length Z.of_nat]. rewrite Z.sub_0_r.
  replace (digits_value [d]) with (digit_val d)
    by (unfold digits_value; cbn [fold_left]; lia).
  reflexivity.
Qed.

Lemma float_digits (ds : str) :
  ds <> [] -> forallb is_digit ds = true ->
  float_ ds = Ok (float_of_decimal false (digits_value ds) 0).
Proof.
  intros Hne Hd. unfold float_.
  rewrite digits_strip, digits_drop_underscores by exact Hd.
  destruct ds as [|c ds]; [congruence|].
  pose proof Hd as Hd'. cbn [forallb] in Hd'.
  apply andb_prop in Hd' as [Hc Hds].
  unfold take_sign.
  rewrite (is_digit_not c "-" Hc eq_refl), (is_digit_not c "+" Hc eq_refl).
  cbn [map]. rewrite (digit_lower c Hc).
  cbn [lit list_ascii_of_string str_eqb].
  rewrite (is_digit_not c "i" Hc eq_refl), (is_digit_not c "n" Hc eq_refl).
  cbn [andb orb].
  unfold scan_decimal.
  rewrite <- (app_nil_r (c :: ds)) at 1.
  rewrite span_digits_app by (exact Hd || exact I).
  rewrite !app_nil_r. reflexivity.
Qed.

(** X7. The bandwidth texts of [_configure_sa]: digits alone are that
    many hertz, digits followed by [k] are that number times [10^3] and
    digits followed by [M] that number times [10^6], each rounded once to
    a float. *)
Theorem bandwidth_suffix (ds : str) :
  ds <> [] -> forallb is_digit ds = true ->
  bandwidth_hz ds = Ok (float_of_decimal false (digits_value ds) 0) /\
  bandwidth_hz (ds ++ lit "k")
  = Ok (float_of_decimal false (digits_value ds) 3) /\
  bandwidth_hz (ds ++ lit "M")
  = Ok (float_of_decimal false (digits_value ds) 6).
Proof.
  intros Hne Hd. unfold bandwidth_hz.
  assert (Hk : replace "k" (lit "e3") ds = ds)
    by (apply replace_plain, digits_not; [reflexivity|exact Hd]).
  assert (Hm : replace "M" (lit "e6") ds = ds)
    by (apply replace_plain, digits_not; [reflexivity|exact Hd]).
  split; [|split].
  - rewrite Hk, Hm. now apply float_digits.
  - rewrite !replace_app, Hk, Hm.
    exact (float_digits_exp ds "3" Hne Hd eq_refl).
  - rewrite !replace_app, Hk, Hm.
    exact (float_digits_exp ds "6" Hne Hd eq_refl).
Qed.

(** The menu entries ["100k"] and ["3M"]. *)
Lemma bandwidth_suffix_witness :
  bandwidth_hz (lit "100k") = Ok (dec 1 5) /\
  bandwidth_hz (lit "3M") = Ok (dec 3 6).
Proof.
  split.
  - change (lit "100k") with (lit "100" ++ lit "k").
    rewrite (proj1 (proj2 (bandwidth_suffix (lit "100")
                             ltac:(discriminate) eq_refl))).
    vm_compute. reflexivity.
  - change (lit "3M") with (lit "3" ++ lit "M").
    rewrite (proj2 (proj2 (bandwidth_suffix (lit "3")
                             ltac:(discriminate) eq_refl))).
    vm_compute. reflexivity.
Defined.

(** X8. A configuration that meets no failure writes nine commands in
    this order: resolution bandwidth, start, stop, center, span, points,
    video bandwidth, detector, trace format, with a pause after each but
    the first; center and span are computed from start and stop in hertz.
    The video bandwidth text is converted right after the resolution
    bandwidth is written: if that conversion fails, the resolution
    bandwidth command is the only one the instrument receives. *)
Theorem configure_order (h : handle) (w : world)
    (start_mhz stop_mhz : float) (points : Z) (bw_res bw_vid : str)
    (rbw : scpi) :
  calm h w -> resolution_command bw_res = Ok rbw ->
  (forall vid a1 a2 a3 a4 a5 a6 a7 a8 a9 tl,
     bandwidth_hz bw_vid = Ok vid ->
     wire w = [Good a1; Good a2; Good a3; Good a4; Good a5; Good a6;
               Good a7; Good a8; Good a9] ++ tl ->
     _configure_sa (Some h) start_mhz stop_mhz points bw_res bw_vid w
     = Returns tt
         (after_events
            (configuration_events h rbw start_mhz stop_mhz points vid)
            tl w)) /\
  (forall e a tl,
     bandwidth_hz bw_vid = Raise e ->
     wire w = Good a :: tl ->
     _configure_sa (Some h) start_mhz stop_mhz points bw_res bw_vid w
     = Returns tt
         (after_events [EWrite h rbw true; EPrint (configuring_error e)]
            tl w)).
Proof.
  intros Hc Hr. unfold resolution_command in Hr.
  unfold _configure_sa, configuration_events. split.
  - intros vid a1 a2 a3 a4 a5 a6 a7 a8 a9 tl Hv Hw. cbn [List.app] in Hw.
    apply try_Returns.
    destruct (str_eqb bw_res (lit "auto")).
    + injection Hr as <-.
      io_step. rewrite Hv, bind_lift_Ok.
      do 15 io_step. rewrite sleep_fits by (vm_compute; reflexivity).
      reflexivity.
    + destruct (bandwidth_hz bw_res) as [res|]; [|discriminate].
      injection Hr as <-. rewrite bind_assoc, bind_lift_Ok.
      io_step. rewrite Hv, bind_lift_Ok.
      do 15 io_step. rewrite sleep_fits by (vm_compute; reflexivity).
      reflexivity.
  - intros e a tl Hv Hw.
    erewrite try_Raises.
    2:{ destruct (str_eqb bw_res (lit "auto")).
        - injection Hr as <-. io_step. rewrite Hv. reflexivity.
        - destruct (bandwidth_hz bw_res) as [res|]; [|discriminate].
          injection Hr as <-. rewrite bind_assoc, bind_lift_Ok.
          io_step. rewrite Hv. reflexivity. }
    reflexivity.
Qed.

(** The video bandwidth ["wide"] does not convert: of a configuration
    for 0 to 3000 MHz the instrument receives the resolution bandwidth
    of 10 kHz and nothing else. *)
Lemma configure_order_witness :
  _configure_sa (Some 0) (dec 0 0) (dec 3000 0) 3001 (lit "10k") (lit "wide")
    (world_of_viewer (connected SA1 0 viewer_init) [Good []; Good []] [])
  = Returns tt
      (after_events
         [EWrite 0 (BAND_RES (dec 1 4)) true;
          EPrint (configuring_error ValueError)]
         [Good []]
         (world_of_viewer (connected SA1 0 viewer_init)
            [Good []; Good []] [])).
Proof.
  apply (proj2 (configure_order 0
                  (world_of_viewer (connected SA1 0 viewer_init)
                     [Good []; Good []] [])
                  (dec 0 0) (dec 3000 0) 3001 (lit "10k") (lit "wide")
                  (BAND_RES (dec 1 4))
                  (conj eq_refl eq_refl)
                  ltac:(vm_compute; reflexivity))
           ValueError [] [Good []]).
  - vm_compute. reflexivity.
  - reflexivity.
Defined.

(** ** Single sweep: what is guarded *)




(** The two ways the sleep is refused, on the instrument's answers
    [8384883669.867977] and [inf]. *)
Lemma single_sweep_refusals :
  (exists w',
     _single_sweep (Some 0)
       (world_of_viewer (connected SA1 0 viewer_init)
          [Good []; Good []; Good []; Good (lit "8384883669.867977")] [])
     = Raises ValueError w') /\
  (exists w',
     _single_sweep (Some 0)
       (world_of_viewer (connected SA1 0 viewer_init)
          [Good []; Good []; Good []; Good (lit "inf")] [])
     = Raises OverflowError w').
Proof. split; eexists; vm_compute; reflexivity. Qed.

(** X10. Only the duration query of [_single_sweep] is guarded. A failure
    of the write of [":INIT:CONT OFF"] or of the trigger [":INIT"] is
    raised to the caller at once: nothing is queried and nothing is
    slept. *)
Theorem single_sweep_trigger_unguarded (h : handle) (w : world) :
  calm h w ->
  (wire w = [] ->
   _single_sweep (Some h) w
   = Raises VisaIOError (after_events [EWrite h INIT_CONT_OFF false] [] w)) /\
  (forall e rest,
     wire w = Bad e :: rest ->
     _single_sweep (Some h) w
     = Raises e (after_events [EWrite h INIT_CONT_OFF false] rest w)) /\
  (forall a e rest,
     wire w = Good a :: Bad e :: rest ->
     _single_sweep (Some h) w
     = Raises e
         (after_events
            [EWrite h INIT_CONT_OFF true; ESleep f0_1; EWrite h INIT false]
            rest w)).
Proof.
  intros Hc. unfold _single_sweep. split; [|split].
  - intros Hw. erewrite bind_Raises by (apply (write_silent h _ w Hc Hw)).
    destruct w. cbn in Hw. subst. reflexivity.
  - intros e rest Hw. io_step. reflexivity.
  - intros a e rest Hw. do 3 io_step. reflexivity.
Qed.

(** An instrument that accepts [":INIT:CONT OFF"] and rejects the
    trigger. *)
Lemma single_sweep_trigger_unguarded_witness :
  _single_sweep (Some 0)
    (world_of_viewer (connected SA1 0 viewer_init)
       [Good []; Bad VisaIOError; Good []] [])
  = Raises VisaIOError
      (after_events
         [EWrite 0 INIT_CONT_OFF true; ESleep f0_1; EWrite 0 INIT false]
         [Good []]
         (world_of_viewer (connected SA1 0 viewer_init)
            [Good []; Bad VisaIOError; Good []] [])).
Proof.
  apply (proj2 (proj2 (single_sweep_trigger_unguarded 0
                         (world_of_viewer (connected SA1 0 viewer_init)
                            [Good []; Bad VisaIOError; Good []] [])
                         (conj eq_refl eq_refl)))
           [] VisaIOError [Good []]).
  reflexivity.
Defined.

(** ** The sweep thread *)

Lemma bind_inv {A B} (m : M A) (f : A -> M B) (w w' : world) (b : B) :
  bind m f w = Returns b w' ->
  exists a w1, m w = Returns a w1 /\ f a w1 = Returns b w'.
Proof.
  unfold bind. destruct (m w) as [a w1|e w1|w1]; [eauto|discriminate..].
Qed.

Lemma finishes_settings (k : sid) : finishes (settings k).
Proof. unfold settings. finish. Qed.

Lemma finishes_single_sweep (i : option handle) : finishes (_single_sweep i).
Proof. unfold _single_sweep. finish. Qed.

#[local] Hint Resolve finishes_settings finishes_single_sweep : finishes.

Lemma finishes_message_and_button (k : sid) (a b : M unit) :
  finishes a -> finishes b -> finishes (message_and_button k a b).
Proof. intros Ha Hb. destruct k; cbn; finish. Qed.

Lemma finishes_do_sweep_body (k : sid) :
  finishes
    ('(start_val, stop_val, pts, bw_res, bw_vid) <- settings k ;;
     after k (cb_ui (set_sweeping true)) ;;
     i <- self_inst k ;;
     _configure_sa i start_val stop_val pts bw_res bw_vid ;;
     i <- self_inst k ;;
     _single_sweep i ;;
     i <- self_inst k ;;
     tr <- _read_trace_ascii_block i ;;
     after k (cb_update_plot (fst tr) (snd tr)) ;;
     message_and_button k
       (after k (cb_ui (set_message "Sweep completed" false)))
       (after k (cb_ui (set_sweeping false)))).
Proof.
  apply finishes_bind; [auto with finishes|].
  intros [[[[a b] c] d] e]. finish.
  apply finishes_message_and_button; auto with finishes.
Qed.

(** Whenever [_read_trace_ascii_block] returns, the axis is the
    [linspace] of as many points as values were decoded. *)
Lemma read_trace_returns (i : option handle) (w w' : world)
    (f v : list float) :
  _read_trace_ascii_block i w = Returns (f, v) w' ->
  exists a b, f = Np.linspace a b (length v).
Proof.
  unfold _read_trace_ascii_block. intros H.
  repeat (apply bind_inv in H as (? & ? & _ & H)).
  unfold ret in H. injection H as <- <- _. eauto.
Qed.

Lemma after_closing (k : sid) (message : string) (is_error : bool)
    (w : world) :
  message_and_button k
    (after k (cb_ui (set_message message is_error)))
    (after k (cb_ui (set_sweeping false))) w
  = Returns tt (after_events (rev (closing k message is_error)) (wire w) w).
Proof. destruct k, w; reflexivity. Qed.

(** X11. While the window stays open, the thread body [do_sweep] never
    raises, whatever the instrument does and whichever buttons of the
    panels are pressed meanwhile. It ends by posting either the plot
    update (with an axis as long as the amplitudes) followed by the
    message "Sweep completed" and the release of the sweep button, or the
    message "Sweep error" and the release of the button followed by the
    error dialog. The button is released on every path. *)
Theorem sweep_thread_outcome (k : sid) (w : world) :
  window_stays w ->
  exists w',
    do_sweep k w = Returns tt w' /\
    ((exists f v rest,
        log w' = closing k "Sweep completed" false
                 ++ EAfter k (cb_update_plot f v) :: rest /\
        length f = length v) \/
     (exists e rest,
        log w' = EAfter k (cb_ui (showerror_exn e))
                 :: closing k "Sweep error" true ++ rest)).
Proof.
  intros _. unfold do_sweep, try_except.
  match goal with
  | |- context [match ?body w with _ => _ end] =>
      pose proof (finishes_do_sweep_body k w) as Hfin;
      destruct (body w) as [[] w1|e w1|w1] eqn:E
  end.
  - eexists. split; [reflexivity|]. left.
    apply bind_inv in E as ([[[[a b] c] d] e0] & ? & _ & E).
    do 6 (apply bind_inv in E as (? & ? & _ & E)).
    apply bind_inv in E as ([f v] & w8 & Ht & E).
    apply bind_inv in E as ([] & w9 & Ha & E).
    rewrite after_closing in E. injection E as <-.
    injection Ha as <-.
    destruct (read_trace_returns _ _ _ _ _ Ht) as [fa [fb ->]].
    exists (Np.linspace fa fb (length v)), v. eexists.
    split; [|apply linspace_length].
    cbn [log after_events]. rewrite rev_involutive. reflexivity.
  - unfold bind. rewrite after_closing.
    eexists. split; [reflexivity|]. right. exists e. eexists.
    cbn [log emit after_events after record modify].
    rewrite rev_involutive. reflexivity.
  - exfalso. exact (Hfin w1 eq_refl).
Qed.

(** A sweep of the first analyzer during which the peak hold is reset
    and the address of the second analyzer is entered. *)
Lemma sweep_thread_outcome_witness :
  let w := world_of_viewer (connected SA1 0 viewer_init)
             (repeat (Good []) 12)
             [[click_reset SA1]; []; [click_connect SA2 "192.168.60.71"]] in
  exists w',
    do_sweep SA1 w = Returns tt w' /\
    ((exists f v rest,
        log w' = closing SA1 "Sweep completed" false
                 ++ EAfter SA1 (cb_update_plot f v) :: rest /\
        length f = length v) \/
     (exists e rest,
        log w' = EAfter SA1 (cb_ui (showerror_exn e))
                 :: closing SA1 "Sweep error" true ++ rest)).
Proof.
  cbv zeta.
  apply (sweep_thread_outcome SA1
           (world_of_viewer (connected SA1 0 viewer_init)
              (repeat (Good []) 12)
              [[click_reset SA1]; [];
               [click_connect SA2 "192.168.60.71"]])).
  split; [intros []|].
  repeat constructor; cbn; intuition discriminate.
Defined.

(** X12. Settings are checked before the instrument is touched: when a
    frequency field or the point count does not convert, [do_sweep] posts
    the error message, the release of the button and the error dialog,
    and that is all; nothing is written, no answer is used up, the main
    thread is not given a turn and the button is never shown as
    sweeping. *)
Theorem sweep_invalid_settings (k : sid) (w : world) (e : exn) :
  let p := sa_panel (sess k (app w)) in
  _get_freq_range_for_panel p = Raise e \/
  (exists range, _get_freq_range_for_panel p = Ok range /\
                 int_ (points_var p) = Raise e) ->
  e = ValueError /\
  do_sweep k w
  = Returns tt
      (after_events
         (rev (closing k "Sweep error" true)
          ++ [EAfter k (cb_ui (showerror_exn e))])
         (wire w) w).
Proof.
  cbv zeta. intros H.
  assert (Hs : settings k w = Raises e w /\ e = ValueError).
  { unfold settings. unfold bind at 1. unfold attr at 1.
    destruct H as [H|[range [H1 H2]]].
    - rewrite H. split; [reflexivity|].
      unfold _get_freq_range_for_panel, entry_float in H.
      destruct (freq_mode _);
        repeat match type of H with
               | rbind (float_ ?x) _ = _ =>
                   let E := fresh "E" in
                   destruct (float_ x) eqn:E; cbn [rbind] in H;
                   [|injection H as <-;
                     exact (float_raises_ValueError _ _ E)]
               end; discriminate.
    - rewrite H1. cbn [lift]. unfold bind, ret. rewrite H2.
      split; [reflexivity|].
      unfold int_ in H2.
      destruct (drop_underscores _ _); [|congruence].
      destruct (take_sign _) as [neg body].
      destruct body; [congruence|].
      destruct (forallb is_digit _); congruence. }
  destruct Hs as [Hs He]. split; [exact He|].
  unfold do_sweep. erewrite try_Raises.
  2:{ apply bind_Raises. exact Hs. }
  unfold bind. rewrite after_closing.
  cbn [after record modify]. unfold after_events, emit. cbn.
  rewrite rev_app_distr, rev_involutive. reflexivity.
Qed.

(** A stop field that reads ["3 GHz"], on the second analyzer. *)
Lemma sweep_invalid_settings_witness :
  let v := upd_sess SA2
             (fun x =>
                {| inst := Some 0; continuous := continuous x;
                   max_vals := max_vals x; max_freqs := max_freqs x;
                   sa_panel := panel_with start_stop (lit "0") (lit "3 GHz");
                   line_max := line_max x |})
             viewer_init in
  let w := world_of_viewer v [Good []; Good []] [] in
  ValueError = ValueError /\
  do_sweep SA2 w
  = Returns tt
      (after_events
         [EAfter SA2 (cb_ui (set_sweeping false));
          EAfter SA2 (cb_ui (set_message "Sweep error" true));
          EAfter SA2 (cb_ui (showerror_exn ValueError))]
         [Good []; Good []] w).
Proof.
  cbv zeta.
  apply (sweep_invalid_settings SA2
           (world_of_viewer
              (upd_sess SA2
                 (fun x =>
                    {| inst := Some 0; continuous := continuous x;
                       max_vals := max_vals x; max_freqs := max_freqs x;
                       sa_panel :=
                         panel_with start_stop (lit "0") (lit "3 GHz");
                       line_max := line_max x |})
                 viewer_init)
              [Good []; Good []] [])
           ValueError).
  left. vm_compute. reflexivity.
Defined.

(** ** Workers while the main thread is idle *)

Lemma quiet_refl (w : world) : arrivals w = [] -> quiet w w.
Proof. intros H. repeat split; auto. Qed.

Lemma quiet_trans (w1 w2 w3 : world) :
  quiet w1 w2 -> quiet w2 w3 -> quiet w1 w3.
Proof.
  intros (A1 & B1 & C1 & D1 & E1) (A2 & B2 & C2 & D2 & E2).
  repeat split; try congruence. lia.
Qed.

Lemma quietly_bind {A B} (m : M A) (f : A -> M B) :
  quietly m -> (forall a, quietly (f a)) -> quietly (bind m f).
Proof.
  intros Hm Hf w Hw. destruct (Hm w Hw) as [Hfin Hq].
  unfold bind. destruct (m w) as [a w1|e w1|w1]; cbn [world_of] in Hq.
  - destruct (Hf a w1 (proj1 Hq)) as [Hfin' Hq'].
    split; [exact Hfin'|]. eapply quiet_trans; eassumption.
  - split; [discriminate|exact Hq].
  - exfalso. exact (Hfin w1 eq_refl).
Qed.

Lemma quietly_try {A} (m : M A) (g : exn -> M A) :
  quietly m -> (forall e, quietly (g e)) -> quietly (try_except m g).
Proof.
  intros Hm Hg w Hw. destruct (Hm w Hw) as [Hfin Hq].
  unfold try_except. destruct (m w) as [a w1|e w1|w1]; cbn [world_of] in Hq.
  - split; [discriminate|exact Hq].
  - destruct (Hg e w1 (proj1 Hq)) as [Hfin' Hq'].
    split; [exact Hfin'|]. eapply quiet_trans; eassumption.
  - exfalso. exact (Hfin w1 eq_refl).
Qed.

Lemma quietly_step {A} (m : M A) :
  finishes m ->
  (forall w, arrivals w = [] -> quiet w (world_of (m w))) -> quietly m.
Proof. intros Hf Hq w Hw. split; [intros w'; apply Hf|auto]. Qed.

Lemma quietly_ret {A} (a : A) : quietly (ret a).
Proof. apply quietly_step; [auto with finishes|]. apply quiet_refl. Qed.

Lemma quietly_raise {A} (e : exn) : quietly (@raise A e).
Proof. apply quietly_step; [auto with finishes|]. apply quiet_refl. Qed.

Lemma quietly_lift {A} (r : result A) : quietly (lift r).
Proof. destruct r; [apply quietly_ret|apply quietly_raise]. Qed.

Lemma quietly_attr {A} (k : sid) (f : session -> A) : quietly (attr k f).
Proof. apply quietly_step; [auto with finishes|]. apply quiet_refl. Qed.

Lemma quietly_record (e : event) : quietly (record e).
Proof.
  apply quietly_step; [apply finishes_modify|].
  intros w Hw. repeat split; auto.
Qed.

Lemma quietly_print (p : printed) : quietly (print p).
Proof. apply quietly_record. Qed.

Lemma quietly_after (k : sid) (c : callback) : quietly (after k c).
Proof. apply quietly_record. Qed.

Lemma quietly_sleep (d : float) : quietly (sleep d).
Proof.
  apply quietly_step; [auto with finishes|].
  intros w Hw.
  destruct (sleep_cases d w) as [->|[->| ->]]; repeat split; auto.
Qed.

Lemma quietly_yield : quietly yield.
Proof.
  apply quietly_step; [auto with finishes|].
  intros w Hw. unfold yield. rewrite Hw. now apply quiet_refl.
Qed.

Lemma answer_quiet (w : world) :
  arrivals w = [] -> quiet w (snd (answer w)).
Proof.
  intros Hw. unfold answer. destruct (wire w) as [|a rest] eqn:E.
  - now apply quiet_refl.
  - repeat split; auto. cbn. rewrite E. cbn. lia.
Qed.

Lemma quietly_raw_write (h : handle) (c : scpi) : quietly (raw_write h c).
Proof.
  apply quietly_step; [auto with finishes|].
  intros w Hw. unfold raw_write.
  destruct (is_closed h w); [repeat split; auto|].
  pose proof (answer_quiet w Hw) as Hq.
  destruct (answer w) as [[t|e] w1]; exact Hq.
Qed.

Lemma quietly_raw_read (h : handle) : quietly (raw_read h).
Proof.
  apply quietly_step; [auto with finishes|].
  intros w Hw. unfold raw_read.
  destruct (is_closed h w); [repeat split; auto|].
  pose proof (answer_quiet w Hw) as Hq.
  destruct (answer w) as [[t|e] w1]; exact Hq.
Qed.

Lemma quietly_raw_get_timeout (h : handle) : quietly (raw_get_timeout h).
Proof.
  apply quietly_step; [auto with finishes|].
  intros w Hw. unfold raw_get_timeout.
  destruct (is_closed h w); now apply quiet_refl.
Qed.

Lemma quietly_on_inst {A} (i : option handle) (f : handle -> M A) :
  (forall h, quietly (f h)) -> quietly (on_inst i f).
Proof.
  intros Hf. unfold on_inst. apply quietly_bind; [apply quietly_yield|].
  intros _. destruct i; [apply Hf|apply quietly_raise].
Qed.

Lemma quietly_write (i : option handle) (c : scpi) : quietly (write i c).
Proof. apply quietly_on_inst. intros h. apply quietly_raw_write. Qed.

Lemma quietly_read (i : option handle) : quietly (read i).
Proof. apply quietly_on_inst. apply quietly_raw_read. Qed.

Lemma quietly_get_timeout (i : option handle) : quietly (get_timeout i).
Proof. apply quietly_on_inst. apply quietly_raw_get_timeout. Qed.

Lemma quietly_self_inst (k : sid) : quietly (self_inst k).
Proof.
  unfold self_inst. apply quietly_bind; [apply quietly_yield|].
  intros _. apply quietly_attr.
Qed.

Lemma quietly_self_continuous (k : sid) : quietly (self_continuous k).
Proof.
  unfold self_continuous. apply quietly_bind; [apply quietly_yield|].
  intros _. apply quietly_attr.
Qed.

(** One rule of the above, chosen by the shape of the code. *)
Ltac hush1 :=
  lazymatch goal with
  | |- quietly (bind _ _) => apply quietly_bind; [|intros ?]
  | |- quietly (try_except _ _) => apply quietly_try; [|intros ?]
  | |- quietly (ret _) => apply quietly_ret
  | |- quietly (raise _) => apply quietly_raise
  | |- quietly (lift _) => apply quietly_lift
  | |- quietly (attr _ _) => apply quietly_attr
  | |- quietly (sleep _) => apply quietly_sleep
  | |- quietly (print _) => apply quietly_print
  | |- quietly (after _ _) => apply quietly_after
  | |- quietly (write _ _) => apply quietly_write
  | |- quietly (read _) => apply quietly_read
  | |- quietly (get_timeout _) => apply quietly_get_timeout
  | |- quietly (self_inst _) => apply quietly_self_inst
  | |- quietly (self_continuous _) => apply quietly_self_continuous
  | |- quietly (if ?b then _ else _) => destruct b
  | |- quietly (match ?x with _ => _ end) => destruct x
  end.

Ltac hush := repeat hush1.

Lemma quietly_settings (k : sid) : quietly (settings k).
Proof. unfold settings. hush. Qed.

Lemma quietly_configure_sa (i : option handle) (start_mhz stop_mhz : float)
    (points : Z) (bw_res bw_vid : str) :
  quietly (_configure_sa i start_mhz stop_mhz points bw_res bw_vid).
Proof. unfold _configure_sa. hush. Qed.

Lemma quietly_single_sweep (i : option handle) : quietly (_single_sweep i).
Proof. unfold _single_sweep. hush. Qed.

Lemma quietly_read_trace (i : option handle) :
  quietly (_read_trace_ascii_block i).
Proof. unfold _read_trace_ascii_block. hush. Qed.

Lemma quietly_iteration (k : sid) : quietly (iteration k).
Proof. unfold iteration. hush. apply quietly_read_trace. Qed.

Lemma quietly_do_sweep (k : sid) : quietly (do_sweep k).
Proof.
  unfold do_sweep. apply quietly_try.
  - apply quietly_bind; [apply quietly_settings|].
    intros [[[[a b] c] d] e].
    hush; try apply quietly_configure_sa; try apply quietly_single_sweep;
      try apply quietly_read_trace.
    destruct k; cbn [message_and_button]; hush.
  - intros e. destruct k; cbn [message_and_button]; hush.
Qed.

Lemma do_sweep_returns (k : sid) (w : world) :
  exists w', do_sweep k w = Returns tt w'.
Proof.
  unfold do_sweep, try_except.
  match goal with
  | |- context [match ?body w with _ => _ end] =>
      pose proof (finishes_do_sweep_body k w) as Hfin;
      destruct (body w) as [[] w1|e w1|w1]
  end.
  - eauto.
  - unfold bind. rewrite after_closing. eexists. reflexivity.
  - exfalso. exact (Hfin w1 eq_refl).
Qed.

(** X13. The sweep thread writes no attribute of the viewer: with the
    main thread idle, the attributes, the closed transports and the
    timeouts are after [do_sweep] what they were before. What it has to
    say it posts with [self.after]. *)
Theorem worker_sweep_idle (k : sid) (w : world) :
  arrivals w = [] ->
  exists w',
    do_sweep k w = Returns tt w' /\
    app w' = app w /\ closed w' = closed w /\ timeouts w' = timeouts w.
Proof.
  intros Hw. destruct (do_sweep_returns k w) as [w' H].
  exists w'. split; [exact H|].
  pose proof (proj2 (quietly_do_sweep k w Hw)) as Q. rewrite H in Q.
  destruct Q as (_ & B & C & D & _). auto.
Qed.

(** A sweep against an instrument that does not answer. *)
Lemma worker_sweep_idle_witness :
  exists w',
    do_sweep SA1 (world_of_viewer (connected SA1 0 viewer_init) [] [])
    = Returns tt w' /\
    app w' = connected SA1 0 viewer_init /\ closed w' = [] /\
    timeouts w' = [].
Proof.
  apply (worker_sweep_idle SA1
           (world_of_viewer (connected SA1 0 viewer_init) [] [])).
  reflexivity.
Defined.

(** ** The continuous thread left to itself *)

Lemma self_inst_idle (k : sid) (w : world) :
  arrivals w = [] -> self_inst k w = Returns (inst (sess k (app w))) w.
Proof. intros H. unfold self_inst, bind, yield. rewrite H. reflexivity. Qed.

Lemma self_continuous_idle (k : sid) (w : world) :
  arrivals w = [] ->
  self_continuous k w = Returns (continuous (sess k (app w))) w.
Proof.
  intros H. unfold self_continuous, bind, yield. rewrite H. reflexivity.
Qed.

(** A write that returns has used up one answer. *)
Lemma write_consumes (i : option handle) (c : scpi) (w w' : world) :
  arrivals w = [] -> write i c w = Returns tt w' ->
  length (wire w') < length (wire w).
Proof.
  intros Hw. unfold write, on_inst, bind, yield. rewrite Hw.
  destruct i as [h|]; [|discriminate].
  unfold raw_write, answer.
  destruct (is_closed h w); [discriminate|].
  destruct (wire w) as [|[t|e] rest]; try discriminate.
  intros H. injection H as <-. cbn. lia.
Qed.

Lemma iteration_consumes (k : sid) (w w' : world) :
  arrivals w = [] -> iteration k w = Returns tt w' ->
  quiet w w' /\ length (wire w') < length (wire w).
Proof.
  intros Hw H.
  pose proof (proj2 (quietly_iteration k w Hw)) as Hq.
  rewrite H in Hq. split; [exact Hq|].
  unfold iteration in H.
  apply bind_inv in H as (i & w1 & H1 & H).
  rewrite (self_inst_idle k w Hw) in H1. injection H1 as <- <-.
  apply bind_inv in H as ([] & w2 & H2 & H).
  pose proof (write_consumes _ _ _ _ Hw H2) as Hlt.
  pose proof (proj2 (quietly_write (inst (sess k (app w))) INIT w Hw)) as Hq2.
  rewrite H2 in Hq2. cbn [world_of] in Hq2.
  match type of H with
  | ?rest w2 = _ =>
      assert (Hr : quietly rest) by (hush; apply quietly_read_trace)
  end.
  pose proof (proj2 (Hr w2 (proj1 Hq2))) as Hq3.
  rewrite H in Hq3. cbn [world_of] in Hq3.
  destruct Hq3 as (_ & _ & _ & _ & Hle). lia.
Qed.

Lemma finishes_iteration (k : sid) : finishes (iteration k).
Proof. unfold iteration. finish. Qed.

Lemma while_loop_idle (k : sid) (fuel n : nat) (w : world) :
  arrivals w = [] -> length (wire w) < fuel ->
  exists w', while_loop k fuel n w = Returns tt w' /\ quiet w w'.
Proof.
  revert n w. induction fuel as [|fuel IH]; intros n w Hw Hl; [lia|].
  cbn [while_loop].
  rewrite (bind_Returns _ (self_continuous_idle k w Hw)).
  destruct (continuous (sess k (app w)));
    [|eexists; split; [reflexivity|now apply quiet_refl]].
  rewrite (bind_Returns _ (self_inst_idle k w Hw)).
  destruct (inst (sess k (app w))) as [h|];
    [|eexists; split; [reflexivity|now apply quiet_refl]].
  unfold bind at 1. unfold try_except. unfold bind at 1.
  destruct (iteration k w) as [[] w1|e w1|w1] eqn:E.
  - destruct (iteration_consumes k w w1 Hw E) as [Hq Hlt].
    cbn [ret].
    destruct (IH (S n) w1 (proj1 Hq)) as [w' [H1 H2]]; [lia|].
    exists w'. split; [exact H1|]. eapply quiet_trans; eassumption.
  - pose proof (proj2 (quietly_iteration k w Hw)) as Hq.
    rewrite E in Hq. cbn [world_of] in Hq.
    unfold print, record, modify. unfold bind at 1.
    rewrite (bind_Returns _ (sleep_fits f0_5 _ eq_refl)).
    eexists. split; [reflexivity|].
    destruct Hq as (A1 & B1 & C1 & D1 & E1). repeat split; assumption.
  - exfalso. exact (finishes_iteration k w w1 E).
Qed.

Lemma quiet_step {A B} (m : M A) (f : A -> M B) (w0 w : world)
    (P : outcome B -> Prop) :
  quietly m -> quiet w0 w ->
  (forall e w1, quiet w0 w1 -> P (Raises e w1)) ->
  (forall a w1, quiet w0 w1 -> P (f a w1)) ->
  P (bind m f w).
Proof.
  intros Hm Hq Hr Hk. destruct (Hm w (proj1 Hq)) as [Hfin Hq1].
  unfold bind. destruct (m w) as [a w1|e w1|w1]; cbn [world_of] in Hq1.
  - apply Hk. eapply quiet_trans; eassumption.
  - apply Hr. eapply quiet_trans; eassumption.
  - exfalso. exact (Hfin w1 eq_refl).
Qed.

Lemma get_timeout_idle (h : handle) (w : world) :
  arrivals w = [] -> is_closed h w = false ->
  get_timeout (Some h) w = Returns (lookup_timeout h (timeouts w)) w.
Proof.
  intros Hw Hc. unfold get_timeout, on_inst, bind, yield. rewrite Hw.
  unfold raw_get_timeout. rewrite Hc. reflexivity.
Qed.

Lemma set_timeout_idle (h : handle) (ms : Z) (w : world) :
  arrivals w = [] -> is_closed h w = false ->
  set_timeout (Some h) ms w
  = Returns tt (emit (ESetTimeout h ms)
                  (with_timeouts ((h, ms) :: timeouts w) w)).
Proof.
  intros Hw Hc. unfold set_timeout, on_inst, bind, yield. rewrite Hw.
  unfold raw_set_timeout. rewrite Hc. reflexivity.
Qed.

Lemma is_closed_quiet (h : handle) (w w' : world) :
  quiet w w' -> is_closed h w' = is_closed h w.
Proof. intros (_ & _ & C & _). unfold is_closed. now rewrite C. Qed.

(** The guarded part of [do_continuous] while the main thread is idle:
    whether it returns or raises, the attributes are as before and the
    timeout of the transport is the one found. *)
Lemma continuous_body_idle (k : sid) (h : handle) (fuel : nat) (w : world) :
  calm h w -> inst (sess k (app w)) = Some h -> length (wire w) < fuel ->
  match
    ('(start_val, stop_val, pts, bw_res, bw_vid) <- settings k ;;
     i <- self_inst k ;;
     _configure_sa i start_val stop_val pts bw_res bw_vid ;;
     i <- self_inst k ;;
     write i INIT_CONT_OFF ;;
     sleep f0_3 ;;
     i <- self_inst k ;;
     original_timeout <- get_timeout i ;;
     i <- self_inst k ;;
     set_timeout i 30000 ;;
     while_loop k fuel 0 ;;
     i <- self_inst k ;;
     set_timeout i original_timeout) w
  with
  | Returns _ w1 | Raises _ w1 =>
      arrivals w1 = [] /\ app w1 = app w /\ closed w1 = closed w /\
      lookup_timeout h (timeouts w1) = lookup_timeout h (timeouts w)
  | Unfinished _ => False
  end.
Proof.
  intros [Hw Hc] Hi Hl.
  assert (Hraise : forall e w1, quiet w w1 ->
            match @Raises unit e w1 with
            | Returns _ w1 | Raises _ w1 =>
                arrivals w1 = [] /\ app w1 = app w /\ closed w1 = closed w /\
                lookup_timeout h (timeouts w1) = lookup_timeout h (timeouts w)
            | Unfinished _ => False
            end).
  { intros e w1 (A1 & B1 & C1 & D1 & _). rewrite D1. auto. }
  apply (quiet_step _ _ w w); [apply quietly_settings|now apply quiet_refl
                              |exact Hraise|].
  intros [[[[a b] c] d] e0] w1 Q1.
  apply (quiet_step _ _ w w1); [apply quietly_self_inst|exact Q1
                               |exact Hraise|].
  intros i1 w2 Q2.
  apply (quiet_step _ _ w w2); [apply quietly_configure_sa|exact Q2
                               |exact Hraise|].
  intros _ w3 Q3.
  apply (quiet_step _ _ w w3); [apply quietly_self_inst|exact Q3
                               |exact Hraise|].
  intros i2 w4 Q4.
  apply (quiet_step _ _ w w4); [apply quietly_write|exact Q4
                               |exact Hraise|].
  intros _ w5 Q5.
  apply (quiet_step _ _ w w5); [apply quietly_sleep|exact Q5
                               |exact Hraise|].
  intros _ w6 Q6.
  pose proof Q6 as (A6 & B6 & C6 & D6 & E6).
  assert (Hi6 : inst (sess k (app w6)) = Some h) by (now rewrite B6).
  assert (Hc6 : is_closed h w6 = false)
    by (now rewrite (is_closed_quiet h w w6 Q6)).
  rewrite (bind_Returns _ (self_inst_idle k w6 A6)), Hi6.
  rewrite (bind_Returns _ (get_timeout_idle h w6 A6 Hc6)).
  rewrite (bind_Returns _ (self_inst_idle k w6 A6)), Hi6.
  rewrite (bind_Returns _ (set_timeout_idle h 30000 w6 A6 Hc6)).
  set (w7 := emit _ _).
  destruct (while_loop_idle k fuel 0 w7) as [w8 [H8 Q8]];
    [exact A6|cbn; lia|].
  rewrite (bind_Returns _ H8).
  pose proof Q8 as (A8 & B8 & C8 & D8 & E8).
  assert (Hi8 : inst (sess k (app w8)) = Some h) by (now rewrite B8).
  assert (Hc8 : is_closed h w8 = false).
  { rewrite (is_closed_quiet h w7 w8 Q8). exact Hc6. }
  rewrite (bind_Returns _ (self_inst_idle k w8 A8)), Hi8.
  rewrite (set_timeout_idle h _ w8 A8 Hc8).
  cbn [timeouts emit with_timeouts arrivals app closed lookup_timeout].
  rewrite Nat.eqb_refl.
  repeat split; try congruence.
  - rewrite B8. exact B6.
  - rewrite C8. exact C6.
Qed.

Lemma restore_idle (k : sid) (w : world) :
  arrivals w = [] ->
  exists w',
    restore k w = Returns tt w' /\
    app w' = upd_sess k (set_continuous false) (app w) /\
    closed w' = closed w /\ timeouts w' = timeouts w.
Proof.
  intros Hw. unfold restore.
  assert (Hq : quietly
            (try_except (i <- self_inst k ;; write i INIT_CONT_OFF)
               (fun _ => ret tt))) by hush.
  destruct (Hq w Hw) as [Hfin Q]. unfold bind at 1.
  destruct (try_except _ _ w) as [[] w1|e w1|w1] eqn:E.
  - cbn [world_of] in Q. destruct Q as (A1 & B1 & C1 & D1 & _).
    eexists. split; [reflexivity|]. cbn. rewrite B1. auto.
  - exfalso. unfold try_except in E.
    destruct ((i <- self_inst k ;; write i INIT_CONT_OFF) w);
      discriminate.
  - exfalso. exact (Hfin w1 eq_refl).
Qed.

(** X15. A continuous run left to itself: the main thread is idle and
    the session holds an open transport. Every pass of the loop that
    does not end it has used up an answer of the instrument, so with
    more fuel than answers the run ends; it returns, the transport has
    the timeout it had before the run (30000 ms only meanwhile), nothing
    was closed, and of the attributes of the viewer only the running
    flag changed: it is clear. *)
Theorem continuous_idle_run (k : sid) (h : handle) (fuel : nat) (w : world) :
  calm h w -> inst (sess k (app w)) = Some h -> length (wire w) < fuel ->
  exists w',
    do_continuous k fuel w = Returns tt w' /\
    app w' = upd_sess k (set_continuous false) (app w) /\
    closed w' = closed w /\
    lookup_timeout h (timeouts w') = lookup_timeout h (timeouts w).
Proof.
  intros Hc Hi Hl.
  pose proof (continuous_body_idle k h fuel w Hc Hi Hl) as Hb.
  unfold do_continuous, try_finally, try_except.
  match type of Hb with
  | match ?body w with _ => _ end =>
      destruct (body w) as [[] w1|e w1|w1]; [| |contradiction]
  end.
  - destruct Hb as (A1 & B1 & C1 & D1).
    destruct (restore_idle k w1 A1) as (w' & R1 & R2 & R3 & R4).
    exists w'. unfold bind. rewrite R1. cbn [ret].
    repeat split; congruence.
  - destruct Hb as (A1 & B1 & C1 & D1).
    destruct (restore_idle k
                (emit (EAfter k (cb_ui (set_message "Sweep error" true)))
                   (emit (EPrint (setup_error e)) w1)) A1)
      as (w' & R1 & R2 & R3 & R4).
    exists w'. unfold bind, print, after, record, modify.
    unfold bind in R1. rewrite R1. cbn [ret].
    cbn [app emit closed timeouts] in R2, R3, R4.
    repeat split; congruence.
Qed.

(** A run against an instrument that gives ten acknowledgements and
    then falls silent, with fuel for eleven passes. *)
Lemma continuous_idle_run_witness :
  let w := world_of_viewer (running SA1 (connected SA1 0 viewer_init))
             (repeat (Good []) 10) [] in
  exists w',
    do_continuous SA1 11 w = Returns tt w' /\
    app w' = upd_sess SA1 (set_continuous false) (app w) /\
    closed w' = closed w /\
    lookup_timeout 0 (timeouts w') = lookup_timeout 0 (timeouts w).
Proof.
  cbv zeta.
  apply (continuous_idle_run SA1 0 11
           (world_of_viewer (running SA1 (connected SA1 0 viewer_init))
              (repeat (Good []) 10) [])).
  - split; reflexivity.
  - reflexivity.
  - simpl. lia.
Defined.

Lemma self_inst_calm (k : sid) (h : handle) (w : world) :
  calm h w -> inst (sess k (app w)) = Some h ->
  self_inst k w = Returns (Some h) w.
Proof.
  intros [Hw _] Hi. rewrite self_inst_idle by exact Hw. now rewrite Hi.
Qed.

(** A read of [self.inst] in a calm world, as a step of a script. *)
Ltac inst_step :=
  erewrite bind_Returns by (eapply self_inst_calm; calm_side).

(** X14. In the continuous loop the guard around the duration covers the
    read only. A failed write of [":SWE:TIME?"] fails the pass (and so
    ends the loop), where [_single_sweep] would go on with 1.5 seconds;
    a failed read is absorbed, the pass sleeps [max(1.5, 1.2 * 1.5)] and
    goes on to read the trace. *)
Theorem iteration_guard (k : sid) (h : handle) (w : world) :
  calm h w -> inst (sess k (app w)) = Some h ->
  (forall a e rest,
     wire w = Good a :: Bad e :: rest ->
     iteration k w
     = Raises e
         (after_events [EWrite h INIT true; EWrite h SWE_TIME_q false]
            rest w)) /\
  (forall a b e rest,
     wire w = Good a :: Good b :: Bad e :: rest ->
     iteration k w
     = (tr <- _read_trace_ascii_block (Some h) ;;
        after k (cb_update_plot (fst tr) (snd tr)))
         (after_events
            [EWrite h INIT true; EWrite h SWE_TIME_q true; ESleep f0_2;
             ERead h false; ESleep (max_ f1_5 (fmul f1_5 f1_2))]
            rest w)).
Proof.
  intros Hc Hi. unfold iteration. split.
  - intros a e rest Hw.
    inst_step. io_step. inst_step. io_step. reflexivity.
  - intros a b e rest Hw.
    inst_step. io_step. inst_step. do 2 io_step.
    erewrite bind_Returns;
      [|erewrite try_Raises;
        [reflexivity|inst_step; io_step; reflexivity]].
    io_step. inst_step. reflexivity.
Qed.

(** The trigger is accepted, the duration query is rejected. *)
Lemma iteration_guard_witness :
  iteration SA1
    (world_of_viewer (running SA1 (connected SA1 0 viewer_init))
       [Good []; Bad VisaIOError] [])
  = Raises VisaIOError
      (after_events [EWrite 0 INIT true; EWrite 0 SWE_TIME_q false] []
         (world_of_viewer (running SA1 (connected SA1 0 viewer_init))
            [Good []; Bad VisaIOError] [])).
Proof.
  apply (proj1 (iteration_guard SA1 0
                  (world_of_viewer (running SA1 (connected SA1 0 viewer_init))
                     [Good []; Bad VisaIOError] [])
                  (conj eq_refl eq_refl) eq_refl)
           [] VisaIOError []).
  reflexivity.
Defined.

(** X16. Two presses of the continuous button on a connected session put
    the running flag back where it was and start exactly one thread,
    also when the flag was set before: a quick stop and restart leaves a
    second thread started while the flag that should stop the first is
    set again. *)
Theorem toggle_twice (k : sid) (h : handle) (w : world) :
  inst (sess k (app w)) = Some h ->
  exists w',
    (toggle_continuous k ;; toggle_continuous k) w = Returns tt w' /\
    app w' = app w /\
    log w' =
      (if continuous (sess k (app w))
       then [ESpawn k continuous_thread;
             EUi k (set_continuous_active true);
             EUi k (set_continuous_active false)]
       else [EUi k (set_continuous_active false);
             ESpawn k continuous_thread;
             EUi k (set_continuous_active true)]) ++ log w.
Proof.
  intros Hi.
  destruct w as [[r [i1 c1 mv1 mf1 p1 l1] [i2 c2 mv2 mf2 p2 l2]]
                 wi cl ti fr ar lg].
  destruct k; cbn in Hi; subst.
  - destruct c1; eexists; (split; [reflexivity|]); split; reflexivity.
  - destruct c2; eexists; (split; [reflexivity|]); split; reflexivity.
Qed.

(** Two presses while the first analyzer runs. *)
Lemma toggle_twice_witness :
  let w := world_of_viewer (running SA1 (connected SA1 0 viewer_init))
             [] [] in
  exists w',
    (toggle_continuous SA1 ;; toggle_continuous SA1) w = Returns tt w' /\
    app w' = app w /\
    log w' =
      (if continuous (sess SA1 (app w))
       then [ESpawn SA1 continuous_thread;
             EUi SA1 (set_continuous_active true);
             EUi SA1 (set_continuous_active false)]
       else [EUi SA1 (set_continuous_active false);
             ESpawn SA1 continuous_thread;
             EUi SA1 (set_continuous_active true)]) ++ log w.
Proof.
  cbv zeta.
  apply (toggle_twice SA1 0
           (world_of_viewer (running SA1 (connected SA1 0 viewer_init))
              [] [])).
  reflexivity.
Defined.

(** ** Connecting *)

(** Every way the wire may go on answering. *)
Ltac wires :=
  repeat match goal with
         | |- context [match ?l with [] => _ | _ :: _ => _ end] =>
             is_var l; destruct l as [|[?|?] ?]; cbn
         end.

(** X17. [_get_rm] either returns with a resource manager in place or
    raises [RuntimeError] with none in place; it raises nothing else and
    leaves the sessions alone. With a manager in place it does nothing at
    all. Without one, it returns having reported the backend it uses,
    after the failure of the default one if it is the second; and it
    raises only after both backends were tried and reported: the two
    answers it used up were failures, and the two failure notes are the
    last things printed. *)
Theorem get_rm_outcome (w : world) :
  match _get_rm w with
  | Returns _ w' =>
      rm (app w') = true /\
      sa1 (app w') = sa1 (app w) /\ sa2 (app w') = sa2 (app w) /\
      (rm (app w) = true /\ w' = w \/
       rm (app w) = false /\
       (log w' = EPrint (rm_note "Using default VISA ResourceManager()")
                 :: log w \/
        log w' = EPrint (rm_note "Using pyvisa-py ResourceManager('@py')")
                 :: EPrint (rm_note "default ResourceManager() failed")
                 :: log w))
  | Raises e w' =>
      e = RuntimeError /\ rm (app w) = false /\ rm (app w') = false /\
      sa1 (app w') = sa1 (app w) /\ sa2 (app w') = sa2 (app w) /\
      log w' = EPrint (rm_note "pyvisa-py ResourceManager('@py') failed")
               :: EPrint (rm_note "default ResourceManager() failed")
               :: log w /\
      wire w' = skipn 2 (wire w) /\
      (forall a, In a (firstn 2 (wire w)) -> exists e', a = Bad e')
  | Unfinished _ => False
  end /\
  (rm (app w) = true -> _get_rm w = Returns tt w).
Proof.
  unfold _get_rm.
  destruct w as [[r s1 s2] wi cl ti fr ar lg]. cbn [app rm].
  destruct r.
  - cbn. auto 10.
  - split; [|discriminate].
    unfold try_except, bind, library_call, answer, modify, print, record,
      modify, ret, raise. cbn.
    wires; repeat split; auto 10;
      try (intros ? [<-|[<-|[]]]; eauto; fail);
      try (intros ? [<-|[]]; eauto; fail);
      try (intros ? []).
Qed.

Lemma sleep_f2 (w : world) : sleep f2 w = Returns tt (emit (ESleep f2) w).
Proof. apply sleep_fits. vm_compute. reflexivity. Qed.

Lemma sleep_f0_5 (w : world) :
  sleep f0_5 w = Returns tt (emit (ESleep f0_5) w).
Proof. apply sleep_fits. vm_compute. reflexivity. Qed.

(** Running a handler of the main thread on every wire. *)
Ltac run_main :=
  repeat first
    [ rewrite sleep_f2 | rewrite sleep_f0_5
    | progress cbv -[sleep f2 f0_5 Nat.eqb existsb strip]
    | match goal with
      | |- context [match ?l with [] => _ | _ :: _ => _ end] =>
          is_var l; destruct l as [|[?|?] ?]
      | |- context [if existsb ?f ?l then _ else _] =>
          let E := fresh "E" in destruct (existsb f l) eqn:E
      end ].

(** The identification is the last of the answers used up: two of
    them stand before it when a manager was in place, four or five when
    one had to be made. *)
Ltac last_answer :=
  first
    [ eexists _, [_; _], _; split; reflexivity
    | eexists _, [_; _; _; _], _; split; reflexivity
    | eexists _, [_; _; _; _; _], _; split; reflexivity ].

(** The two states in which [connect] leaves a session that held no
    transport. *)
Lemma connect_fresh_spec (k : sid) (ip : string) (w : world) :
  ip <> EmptyString -> inst (sess k (app w)) = None ->
  exists w',
    connect k ip w = Returns tt w' /\
    closed w' = closed w /\
    sess (other k) (app w') = sess (other k) (app w) /\
    ((inst (sess k (app w')) = Some (fresh w) /\
      fresh w' = S (fresh w) /\
      is_closed (fresh w) w' = false /\
      lookup_timeout (fresh w) (timeouts w') = 120000%Z /\
      exists t before rest,
        wire w = before ++ Good t :: wire w' /\
        log w' = EUi k (set_message "Connected successfully" false)
                 :: EUi k (set_connected true (strip t))
                 :: EPrint (connect_note k "Device ID")
                 :: ERead (fresh w) true :: rest) \/
     (inst (sess k (app w')) = None /\
      exists e rest,
        log w' = EUi k (showerror_exn e)
                 :: EUi k (set_message "Connection failed" true)
                 :: EUi k (set_connected false [])
                 :: EPrint (connection_error k e) :: rest)).
Proof.
  intros Hip Hi. unfold connect.
  destruct (String.eqb_spec ip ""); [contradiction|].
  destruct w as [[r s1 s2] wi cl ti fr ar lg].
  unfold bind at 1. unfold attr at 1. cbn [app] in *. rewrite Hi.
  unfold is_closed.
  destruct k; cbn [sess other sa1 sa2] in Hi |- *.
  - destruct s1 as [i1 c1 mv1 mf1 p1 l1]. cbn in Hi. subst i1.
    unfold try_except, _get_rm.
    destruct r; run_main;
      (eexists; split; [reflexivity|]; cbn;
       split; [reflexivity|]; split; [reflexivity|];
       first [ left; rewrite ?Nat.eqb_refl;
               do 4 (split; [solve [eauto]|]); last_answer
             | right; split; [reflexivity|]; eauto ]).
  - destruct s2 as [i1 c1 mv1 mf1 p1 l1]. cbn in Hi. subst i1.
    unfold try_except, _get_rm.
    destruct r; run_main;
      (eexists; split; [reflexivity|]; cbn;
       split; [reflexivity|]; split; [reflexivity|];
       first [ left; rewrite ?Nat.eqb_refl;
               do 4 (split; [solve [eauto]|]); last_answer
             | right; split; [reflexivity|]; eauto ]).
Qed.

(** X18. [connect] on a session without transport, with a non-empty
    address, returns in one of two states. Connected: the session holds
    the transport just opened, which is open and has a timeout of
    120000 ms, and the panel shows the identification, stripped: the
    text of the last answer used up, which the read on the new transport
    returned just before. Disconnected: the session holds nothing and
    the error is shown in a dialog. In both nothing was closed (a
    transport opened before the failure stays open) and the other
    session is as before. *)
Theorem connect_fresh (k : sid) (ip : string) (w : world) :
  ip <> EmptyString -> inst (sess k (app w)) = None ->
  exists w',
    connect k ip w = Returns tt w' /\
    closed w' = closed w /\
    sess (other k) (app w') = sess (other k) (app w) /\
    ((inst (sess k (app w')) = Some (fresh w) /\
      fresh w' = S (fresh w) /\
      is_closed (fresh w) w' = false /\
      lookup_timeout (fresh w) (timeouts w') = 120000%Z /\
      exists t before rest,
        wire w = before ++ Good t :: wire w' /\
        log w' = EUi k (set_message "Connected successfully" false)
                 :: EUi k (set_connected true (strip t))
                 :: EPrint (connect_note k "Device ID")
                 :: ERead (fresh w) true :: rest) \/
     (inst (sess k (app w')) = None /\
      exists e rest,
        log w' = EUi k (showerror_exn e)
                 :: EUi k (set_message "Connection failed" true)
                 :: EUi k (set_connected false [])
                 :: EPrint (connection_error k e) :: rest)).
Proof. exact (connect_fresh_spec k ip w). Qed.

(** A first connect of the first analyzer on a new viewer. *)
Lemma connect_fresh_witness :
  let w := world_of_viewer viewer_init
             [Good []; Good []; Good []; Good []; Good (lit "Rigol ")] [] in
  exists w',
    connect1 "192.168.60.70" w = Returns tt w' /\
    closed w' = closed w /\
    sess SA2 (app w') = sess SA2 (app w) /\
    ((inst (sess SA1 (app w')) = Some (fresh w) /\
      fresh w' = S (fresh w) /\
      is_closed (fresh w) w' = false /\
      lookup_timeout (fresh w) (timeouts w') = 120000%Z /\
      exists t before rest,
        wire w = before ++ Good t :: wire w' /\
        log w' = EUi SA1 (set_message "Connected successfully" false)
                 :: EUi SA1 (set_connected true (strip t))
                 :: EPrint (connect_note SA1 "Device ID")
                 :: ERead (fresh w) true :: rest) \/
     (inst (sess SA1 (app w')) = None /\
      exists e rest,
        log w' = EUi SA1 (showerror_exn e)
                 :: EUi SA1 (set_message "Connection failed" true)
                 :: EUi SA1 (set_connected false [])
                 :: EPrint (connection_error SA1 e) :: rest)).
Proof.
  cbv zeta.
  apply (connect_fresh SA1 "192.168.60.70"
           (world_of_viewer viewer_init
              [Good []; Good []; Good []; Good []; Good (lit "Rigol ")] [])).
  - discriminate.
  - reflexivity.
Defined.

(** X19. [connect] always returns: no failure of a transport or of the
    backends escapes the handler, in any state and for any address. It
    never changes an attribute of the other session. *)
Theorem connect_contained (k : sid) (ip : string) (w : world) :
  exists w',
    connect k ip w = Returns tt w' /\
    sess (other k) (app w') = sess (other k) (app w).
Proof.
  destruct (String.eqb_spec ip "") as [->|Hip].
  - eexists. split; reflexivity.
  - destruct (inst (sess k (app w))) as [h|] eqn:Hi.
    + unfold connect. rewrite (proj2 (String.eqb_neq _ _) Hip).
      unfold bind at 1. unfold attr at 1. rewrite Hi.
      destruct w as [[r s1 s2] wi cl ti fr ar lg].
      destruct k; run_main; (eexists; split; reflexivity).
    + destruct (connect_fresh_spec k ip w Hip Hi) as [w' [H1 [_ [H2 _]]]].
      eauto.
Qed.

(** X20. The panel strips the address before it calls the viewer, and
    the viewer refuses an empty address before anything else: with a
    blank entry the connect button only shows the error dialog, and a
    connected session stays connected. *)
Theorem blank_address_refused (k : sid) (ip_entry : str) (w : world) :
  forallb isspace ip_entry = true ->
  _handle_connect k ip_entry w
  = Returns tt (emit (EUi k (showerror "Please enter a valid IP address")) w).
Proof.
  intros H. unfold _handle_connect, strip, strip_by.
  rewrite (lstrip_blank _ _ H). reflexivity.
Qed.

(** An address entry of two blanks, on a connected session. *)
Lemma blank_address_refused_witness :
  _handle_connect SA1 (lit "  ")
    (world_of_viewer (connected SA1 0 viewer_init) [] [])
  = Returns tt
      (emit (EUi SA1 (showerror "Please enter a valid IP address"))
         (world_of_viewer (connected SA1 0 viewer_init) [] [])).
Proof.
  apply (blank_address_refused SA1 (lit "  ")
           (world_of_viewer (connected SA1 0 viewer_init) [] [])).
  reflexivity.
Defined.

(** X21. The identification shown by [set_connected] is never longer
    than 33 characters and always starts with the first 30 of the
    identification: one of at most 30 characters is shown whole, a
    longer one is cut to 30 and followed by three dots. *)
Theorem display_idn_bounds (idn : str) :
  length (display_idn idn) <= 33 /\
  firstn 30 (display_idn idn) = firstn 30 idn /\
  (length idn <= 30 -> display_idn idn = idn) /\
  (30 < length idn ->
   length (display_idn idn) = 33 /\
   skipn 30 (display_idn idn) = lit "...").
Proof.
  unfold display_idn.
  destruct (Nat.ltb_spec 30 (length idn)) as [H|H].
  - assert (Hl : length (firstn 30 idn) = 30)
      by (rewrite length_firstn; lia).
    assert (Hd : length (lit "...") = 3) by reflexivity.
    repeat split.
    + rewrite length_app, Hl, Hd. lia.
    + rewrite firstn_app, Hl, Nat.sub_diag, firstn_firstn.
      change (Nat.min 30 30) with 30.
      change (firstn 0 (lit "...")) with (@nil ascii).
      apply app_nil_r.
    + lia.
    + rewrite length_app, Hl, Hd. reflexivity.
    + rewrite skipn_app, Hl, Nat.sub_diag.
      rewrite (skipn_all2 (firstn 30 idn)) by lia. reflexivity.
  - repeat split; try lia; reflexivity.
Qed.

(** [connect] on a session that holds a transport lets go of it and
    opens nothing. *)
Lemma connect_held (k : sid) (ip : string) (h : handle) (w : world) :
  ip <> EmptyString -> inst (sess k (app w)) = Some h ->
  exists w',
    connect k ip w = Returns tt w' /\
    inst (sess k (app w')) = None /\ fresh w' = fresh w /\
    exists rest, log w' = EUi k plot_clear
                          :: EUi k (set_message "Disconnected" false) :: rest.
Proof.
  intros Hip Hi. unfold connect. rewrite (proj2 (String.eqb_neq _ _) Hip).
  unfold bind at 1. unfold attr at 1. rewrite Hi.
  destruct w as [[r s1 s2] wi cl ti fr ar lg].
  destruct k; run_main; (eexists; split; [reflexivity|]); cbn; eauto.
Qed.

(** X22. [_reset_network] always returns. Afterwards both running flags
    are clear, no peak hold is kept and the panels are as they were; a
    session holds no transport or the one it held. The latter happens:
    when closing the transport of the first analyzer fails, the
    assignment of [None] in the same guarded block is skipped, so the
    session keeps the transport while its panel is told "not connected",
    and the next press of the connect button does not connect but takes
    the disconnect branch (nothing is opened). *)
Theorem reset_network_outcome (w : world) :
  exists w',
    _reset_network w = Returns tt w' /\
    (forall k,
       continuous (sess k (app w')) = false /\
       max_vals (sess k (app w')) = None /\
       max_freqs (sess k (app w')) = None /\
       line_max (sess k (app w')) = false /\
       sa_panel (sess k (app w')) = sa_panel (sess k (app w)) /\
       (inst (sess k (app w')) = None \/
        inst (sess k (app w')) = inst (sess k (app w)))) /\
    (forall h e rest,
       inst (sa1 (app w)) = Some h -> is_closed h w = false ->
       wire w = Bad e :: rest ->
       inst (sa1 (app w')) = Some h /\
       In (EUi SA1 (set_connected false [])) (log w') /\
       forall ip,
         ip <> EmptyString ->
         exists w'',
           connect1 ip w' = Returns tt w'' /\
           inst (sa1 (app w'')) = None /\ fresh w'' = fresh w').
Proof.
  assert (H : exists w',
    _reset_network w = Returns tt w' /\
    (forall k,
       continuous (sess k (app w')) = false /\
       max_vals (sess k (app w')) = None /\
       max_freqs (sess k (app w')) = None /\
       line_max (sess k (app w')) = false /\
       sa_panel (sess k (app w')) = sa_panel (sess k (app w)) /\
       (inst (sess k (app w')) = None \/
        inst (sess k (app w')) = inst (sess k (app w)))) /\
    (forall h e rest,
       inst (sa1 (app w)) = Some h -> is_closed h w = false ->
       wire w = Bad e :: rest ->
       inst (sa1 (app w')) = Some h /\
       In (EUi SA1 (set_connected false [])) (log w'))).
  { destruct w as [[r [i1 c1 mv1 mf1 p1 l1] [i2 c2 mv2 mf2 p2 l2]]
                   wi cl ti fr ar lg].
    unfold _reset_network, reset_inst.
    destruct i1 as [h1|], i2 as [h2|], r; run_main;
      (eexists; split; [reflexivity|]; split;
       [ intros []; cbn; auto 10
       | intros ? ? ? Hi Hc Hw; cbn in Hi, Hc, Hw |- *;
         try discriminate; try congruence;
         injection Hi as <-; try congruence;
         auto 20 ]). }
  destruct H as (w' & H1 & H2 & H3).
  exists w'. split; [exact H1|]. split; [exact H2|].
  intros h e rest Hi Hc Hw. destruct (H3 h e rest Hi Hc Hw) as [Hh Hin].
  split; [exact Hh|]. split; [exact Hin|].
  intros ip Hip.
  destruct (connect_held SA1 ip h w' Hip Hh) as (w'' & C1 & C2 & C3 & _).
  exists w''. auto.
Qed.

(** ** Peak hold and NaN *)

Lemma maximum1_nan (x y : float) :
  is_nan (Np.maximum1 x y) = is_nan x || is_nan y.
Proof.
  unfold Np.maximum1.
  destruct x as [s|s| |s m e], y as [s'|s'| |s' m' e'];
    try reflexivity; cbn [is_nan orb];
    match goal with
    | |- is_nan (if ?b || false then _ else _) = _ =>
        destruct b; reflexivity
    end.
Qed.

(** X23. A NaN sticks to the peak hold: when a held array of the same
    length is updated, the new held amplitude at an index is NaN exactly
    when the held one or the incoming one is. *)
Theorem peak_hold_keeps_nan (k : sid) (freqs vals held held_freqs : list float)
    (i : nat) (w : world) :
  max_vals (sess k (app w)) = Some held ->
  max_freqs (sess k (app w)) = Some held_freqs ->
  length held = length vals -> i < length vals ->
  exists new,
    max_vals (sess k (app (world_of (_update_plot k freqs vals w))))
    = Some new /\
    is_nan (nth i new S754_nan)
    = is_nan (nth i held S754_nan) || is_nan (nth i vals S754_nan).
Proof.
  intros Hh Hf Hl Hi.
  destruct (update_plot_session k freqs vals w) as [_ Hv]. cbv zeta in Hv.
  rewrite Hv. unfold hold. rewrite Hh, Hf, Hl, Nat.eqb_refl. cbn [snd].
  eexists. split; [reflexivity|].
  rewrite maximum_nth by lia. apply maximum1_nan.
Qed.

(** A held trace whose second amplitude is NaN, updated with numbers. *)
Lemma peak_hold_keeps_nan_witness :
  let w := world_of_viewer
             (upd_sess SA1
                (set_max (Some [dec 10 0; dec 20 0])
                         (Some [dec 1 0; S754_nan]))
                viewer_init) [] [] in
  exists new,
    max_vals (sess SA1 (app (world_of
                (_update_plot SA1 [dec 10 0; dec 20 0] [dec 5 0; dec 7 0] w))))
    = Some new /\
    is_nan (nth 1 new S754_nan)
    = is_nan (nth 1 [dec 1 0; S754_nan] S754_nan)
      || is_nan (nth 1 [dec 5 0; dec 7 0] S754_nan).
Proof.
  cbv zeta.
  apply (peak_hold_keeps_nan SA1 [dec 10 0; dec 20 0] [dec 5 0; dec 7 0]
           [dec 1 0; S754_nan] [dec 10 0; dec 20 0] 1
           (world_of_viewer
              (upd_sess SA1
                 (set_max (Some [dec 10 0; dec 20 0])
                          (Some [dec 1 0; S754_nan]))
                 viewer_init) [] [])).
  - reflexivity.
  - reflexivity.
  - reflexivity.
  - simpl. lia.
Defined.

(** ** The layout of the plots *)

(** X28. When a drag of the divider configures new heights, they add up
    to the heights read, both exceed 150 pixels, the first plot has
    grown by the distance the pointer moved since the last step, which
    is at least 2 pixels, and a drag was under way in split view. In a
    full-screen mode and after the release a drag configures nothing. *)
Theorem divider_drag_conserves (y_root h1 h2 : Z) (s : Layout.layout) :
  match snd (Layout._on_divider_drag y_root (h1, h2) s) with
  | Some (n1, n2) =>
      (n1 + n2 = h1 + h2)%Z /\ (150 < n1)%Z /\ (150 < n2)%Z /\
      (n1 - h1 = y_root - Layout.divider_start_y s)%Z /\
      (2 <= Z.abs (n1 - h1))%Z /\
      Layout.divider_dragging s = true /\ Layout.fullscreen_mode s = None
  | None => True
  end /\
  (forall m, snd (Layout._on_divider_drag y_root (h1, h2)
                    (fst (Layout._toggle_fullscreen (Some m) s))) = None) /\
  snd (Layout._on_divider_drag y_root (h1, h2)
         (Layout._on_divider_release s)) = None.
Proof.
  split; [|split].
  - unfold Layout._on_divider_drag.
    destruct (Layout.divider_dragging s); cbn [negb orb]; [|exact I].
    destruct (Layout.fullscreen_mode s); [exact I|].
    destruct (Z.ltb_spec (Z.abs (y_root - Layout.divider_start_y s)) 2);
      [exact I|].
    cbn [fst snd].
    set (delta := (y_root - Layout.divider_start_y s)%Z) in *.
    destruct (Z.ltb_spec 150 (Z.max 150 (h1 + delta)));
      cbn [andb]; [|exact I].
    destruct (Z.ltb_spec 150 (Z.max 150 (h2 - delta)));
      cbn [snd]; [|exact I].
    repeat split; lia.
  - intros m. unfold Layout._toggle_fullscreen, Layout._on_divider_drag.
    destruct (Layout.fullscreen_mode s) as [a|] eqn:E.
    + destruct (a =? m)%Z; cbn [fst].
      * rewrite E. now rewrite orb_true_r.
      * destruct (m =? 1)%Z; [|destruct (m =? 2)%Z]; cbn;
          now rewrite orb_true_r.
    + destruct (m =? 1)%Z; [|destruct (m =? 2)%Z]; cbn;
        now rewrite orb_true_r.
  - reflexivity.
Qed.

(** ** The plot: marker and zoom *)

Import SpectrumPlot.

Lemma fleb_total (x y : float) :
  is_nan x = false -> is_nan y = false -> fleb x y = false ->
  fleb y x = true.
Proof.
  intros Hx Hy. destruct (SFcompare_total x y Hx Hy) as [c Hc].
  unfold fleb, SFleb. rewrite Hc, (SFcompare_antisym _ _ _ Hc).
  destruct c; cbn; congruence.
Qed.

Lemma fleb_trans (x y z : float) :
  fleb x y = true -> fleb y z = true -> fleb x z = true.
Proof.
  unfold fleb, SFleb, SFcompare.
  destruct x as [sx|sx| |sx mx ex], y as [sy|sy| |sy my ey],
           z as [sz|sz| |sz mz ez];
    try discriminate; try reflexivity;
    try (destruct sx, sy, sz; try discriminate; try reflexivity; fail).
  all: try (destruct sx, sy; try discriminate; try reflexivity; fail).
  all: try (destruct sy, sz; try discriminate; try reflexivity; fail).
  all: try (destruct sx, sz; try discriminate; try reflexivity; fail).
  destruct sx, sy, sz; try discriminate; try reflexivity;
    change (PosDef.Pos.compare_cont Eq) with Pos.compare;
    destruct (Z.compare_spec ex ey), (Z.compare_spec ey ez),
             (Z.compare_spec ex ez);
    try discriminate; try reflexivity; try lia; subst;
    destruct (Pos.compare_spec mx my), (Pos.compare_spec my mz),
             (Pos.compare_spec mx mz);
    cbn; try discriminate; try reflexivity; try lia.
Qed.

Lemma argmin_from_min (l : list float) :
  forall best bi i,
    is_nan best = false -> Forall (fun v => is_nan v = false) l ->
    exists m,
      (argmin_from best bi i l = bi /\ m = best \/
       i <= argmin_from best bi i l /\
       nth_error l (argmin_from best bi i l - i) = Some m) /\
      fleb m best = true /\ Forall (fun v => fleb m v = true) l.
Proof.
  induction l as [|v l IH]; intros best bi i Hb Hl.
  - exists best. split; [left; split; reflexivity|].
    split; [now apply fleb_refl|constructor].
  - inversion Hl as [|? ? Hv Hl']; subst.
    cbn [argmin_from]. rewrite Hb.
    destruct (fleb best v) eqn:E; cbn [negb].
    + destruct (IH best bi (S i) Hb Hl') as (m & Hm & Hmb & Hall).
      exists m. split; [|split; [exact Hmb|]].
      * destruct Hm as [Hm|[Hle Hn]]; [left; exact Hm|right].
        split; [lia|].
        replace (argmin_from best bi (S i) l - i)
          with (S (argmin_from best bi (S i) l - S i)) by lia.
        exact Hn.
      * constructor; [|exact Hall]. exact (fleb_trans _ _ _ Hmb E).
    + destruct (IH v i (S i) Hv Hl') as (m & Hm & Hmv & Hall).
      pose proof (fleb_total _ _ Hb Hv E) as Hvb.
      exists m. split; [|split].
      * right. destruct Hm as [[-> ->]|[Hle Hn]].
        -- split; [lia|]. rewrite Nat.sub_diag. reflexivity.
        -- split; [lia|].
           replace (argmin_from v i (S i) l - i)
             with (S (argmin_from v i (S i) l - S i)) by lia.
           exact Hn.
      * exact (fleb_trans _ _ _ Hmv Hvb).
      * constructor; assumption.
Qed.

(** [np.argmin] of an array without NaN is the index of a least
    element. *)
Lemma argmin_min (a : list float) :
  a <> [] -> Forall (fun v => is_nan v = false) a ->
  exists i m,
    argmin a = Ok i /\ nth_error a i = Some m /\
    Forall (fun v => fleb m v = true) a.
Proof.
  intros Hne Ha. destruct a as [|v a]; [congruence|].
  inversion Ha as [|? ? Hv Ha']; subst.
  destruct (argmin_from_min a v 0 1 Hv Ha') as (m & Hm & Hmv & Hall).
  exists (argmin_from v 0 1 a), m.
  split; [reflexivity|]. split.
  - destruct Hm as [[-> ->]|[Hle Hn]]; [reflexivity|].
    destruct (argmin_from v 0 1 a) as [|r]; [lia|].
    cbn [nth_error]. now rewrite Nat.sub_succ, Nat.sub_0_r in Hn.
  - constructor; assumption.
Qed.

Lemma nth_error_map_some {A B} (f : A -> B) (l : list A) (i : nat) (b : B) :
  nth_error (map f l) i = Some b ->
  exists a, nth_error l i = Some a /\ b = f a.
Proof.
  rewrite nth_error_map. destruct (nth_error l i) as [a|]; [|discriminate].
  intros [= <-]. eauto.
Qed.

Lemma nth_error_same_length {A B} (l : list A) (l' : list B) (i : nat) (a : A) :
  length l' = length l -> nth_error l i = Some a ->
  exists b, nth_error l' i = Some b.
Proof.
  intros Hl Hn.
  assert (Hi : i < length l) by (apply nth_error_Some; congruence).
  destruct (nth_error l' i) as [b|] eqn:E; [eauto|].
  apply nth_error_None in E. lia.
Qed.

(** X24. A marker placed inside the span of the axis snaps to a sample:
    [_update_marker] sets [marker_x] to a frequency of the trace that is
    as near to the requested position as any other, and reports that
    frequency with the current and the held amplitude of the same
    index. *)
Theorem marker_snaps (p : plot) (x lo hi : float) (freqs vals : list float) :
  current_freqs p = Some freqs -> current_vals p = Some vals ->
  length vals = length freqs ->
  match current_max_vals p with
  | Some mv => length mv = length freqs
  | None => True
  end ->
  Forall (fun f => is_nan (fabs (fsub f x)) = false) freqs ->
  first freqs = Ok lo -> last freqs = Ok hi ->
  fltb x lo = false -> fltb hi x = false ->
  exists i f v,
    nth_error freqs i = Some f /\ nth_error vals i = Some v /\
    _update_marker x p
    = done (ask (on_marker_update f v
                   (match current_max_vals p with
                    | Some mv => nth_error mv i
                    | None => None
                    end))
              (set_marker (Some f) true true p)) /\
    Forall (fun g => fleb (fabs (fsub f x)) (fabs (fsub g x)) = true) freqs.
Proof.
  intros Hf Hv Hlen Hmax Hnan Hlo Hhi Hx1 Hx2.
  assert (Hne : map (fun f => fabs (fsub f x)) freqs <> []).
  { destruct freqs; [discriminate|discriminate]. }
  destruct (argmin_min _ Hne) as (i & m & Hi & Hm & Hall).
  { rewrite Forall_map. exact Hnan. }
  apply nth_error_map_some in Hm as (f & Hfi & ->).
  destruct (nth_error_same_length freqs vals i f Hlen Hfi) as [v Hvi].
  exists i, f, v. split; [exact Hfi|]. split; [exact Hvi|]. split.
  - unfold _update_marker. rewrite Hf, Hv, Hlo. cbn [try_].
    rewrite Hx1, Hhi. cbn [try_]. rewrite Hx2, Hi. cbn [try_].
    unfold item. rewrite Hfi, Hvi. cbn [try_].
    destruct (current_max_vals p) as [mv|]; [|reflexivity].
    destruct (nth_error_same_length freqs mv i f Hmax Hfi) as [u Hu].
    rewrite Hu. reflexivity.
  - rewrite Forall_map in Hall. exact Hall.
Qed.

(** A trace at 1, 2 and 3 MHz and a click at 2.4 MHz: the marker goes
    to 2 MHz. *)
Lemma marker_snaps_witness :
  let p := set_data (Some [dec 1 0; dec 2 0; dec 3 0])
             (Some [dec 5 0; dec 6 0; dec 7 0]) None init in
  exists i f v,
    nth_error [dec 1 0; dec 2 0; dec 3 0] i = Some f /\
    nth_error [dec 5 0; dec 6 0; dec 7 0] i = Some v /\
    _update_marker (dec 24 (-1)) p
    = done (ask (on_marker_update f v
                   (match current_max_vals p with
                    | Some mv => nth_error mv i
                    | None => None
                    end))
              (set_marker (Some f) true true p)) /\
    Forall (fun g => fleb (fabs (fsub f (dec 24 (-1))))
                       (fabs (fsub g (dec 24 (-1)))) = true)
           [dec 1 0; dec 2 0; dec 3 0].
Proof.
  cbv zeta.
  apply (marker_snaps
           (set_data (Some [dec 1 0; dec 2 0; dec 3 0])
              (Some [dec 5 0; dec 6 0; dec 7 0]) None init)
           (dec 24 (-1)) (dec 1 0) (dec 3 0)
           [dec 1 0; dec 2 0; dec 3 0] [dec 5 0; dec 6 0; dec 7 0]).
  - reflexivity.
  - reflexivity.
  - reflexivity.
  - exact I.
  - repeat constructor; vm_compute; reflexivity.
  - reflexivity.
  - reflexivity.
  - vm_compute. reflexivity.
  - vm_compute. reflexivity.
Defined.

(** The three ways [_update_marker] ends. *)
Lemma update_marker_cases (x : float) (p : plot) :
  (exists e, _update_marker x p = failed e p) \/
  _update_marker x p = done p \/
  exists f v mv,
    _update_marker x p
    = done (ask (on_marker_update f v mv) (set_marker (Some f) true true p)).
Proof.
  unfold _update_marker.
  destruct (current_freqs p) as [freqs|]; [|auto].
  destruct (current_vals p) as [vals|]; [|auto].
  destruct (first freqs) as [lo|e]; cbn [try_]; [|eauto].
  destruct (fltb x lo); [auto|].
  destruct (SpectrumPlot.last freqs) as [hi|e]; cbn [try_]; [|eauto].
  destruct (fltb hi x); [auto|].
  destruct (argmin _) as [idx|e]; cbn [try_]; [|eauto].
  destruct (item freqs idx) as [f|e]; cbn [try_]; [|eauto].
  destruct (item vals idx) as [v|e]; cbn [try_]; [|eauto].
  destruct (current_max_vals p) as [mv|]; cbn [try_]; [|eauto 10].
  destruct (item mv idx) as [u|e]; cbn [rbind try_]; eauto 10.
Qed.

(** The marker code touches nothing of the zoom. *)
Lemma update_marker_zoom (x : float) (p : plot) :
  let q := state_of (_update_marker x p) in
  zoom_history q = zoom_history p /\ original_xlim q = original_xlim p /\
  original_ylim q = original_ylim p /\ zoom_dragging q = zoom_dragging p /\
  zoom_start q = zoom_start p /\ zoom_rect q = zoom_rect p /\
  current_freqs q = current_freqs p.
Proof.
  cbv zeta.
  destruct (update_marker_cases x p) as [[e ->]|[->|(f & v & mv & ->)]];
    cbn; auto 10.
Qed.

Lemma zoom_ok_marker (x : float) (p : plot) :
  zoom_ok p = true -> zoom_ok (state_of (_update_marker x p)) = true.
Proof.
  destruct (update_marker_zoom x p) as (A & B & C & D & E & F & _).
  cbv zeta in *. unfold zoom_ok. now rewrite A, B, C, D, E, F.
Qed.

Lemma zoom_ok_perform (p : plot) (o : operation) :
  zoom_ok p = true -> zoom_ok (perform p o) = true.
Proof.
  intros H. destruct o as [ev|ev|ev view|f v mf mv| | |]; unfold perform.
  - unfold _on_click. destruct ev as [|b x y]; [exact H|].
    destruct (current_freqs p); [|exact H].
    destruct (b =? 3)%Z.
    + cbn. unfold zoom_ok in *. cbn.
      destruct (is_none (original_xlim p)), (is_none (original_ylim p)),
        (is_nil (zoom_history p)), (zoom_rect p); cbn in *;
        try discriminate; reflexivity.
    + apply zoom_ok_marker. exact H.
  - unfold _on_motion. destruct ev as [|b x y]; [exact H|].
    destruct (current_freqs p); [|exact H].
    destruct (zoom_dragging p) eqn:Ez, (zoom_start p) eqn:Es;
      try (destruct (dragging p); [apply zoom_ok_marker|]; exact H).
    cbn. unfold zoom_ok in *. cbn. rewrite Ez, Es in *. cbn in *.
    destruct (is_none (original_xlim p)), (is_none (original_ylim p)),
      (is_nil (zoom_history p)); cbn in *; try discriminate; reflexivity.
  - unfold _on_release.
    destruct (zoom_dragging p) eqn:Ez, (zoom_start p) as [[x0 y0]|] eqn:Es,
      ev as [|b x y]; cbn [state_of];
      try (unfold zoom_ok in *; cbn; rewrite ?Ez, ?Es in *; exact H).
    destruct (fltb f0_01 _).
    + unfold zoom_ok in *. cbn.
      destruct (original_xlim p), (original_ylim p), (zoom_history p);
        cbn in *; try discriminate; try reflexivity.
      all: destruct l; reflexivity.
    + unfold zoom_ok in *. cbn.
      destruct (is_none (original_xlim p)), (is_none (original_ylim p)),
        (is_nil (zoom_history p)); cbn in *; try discriminate; reflexivity.
  - unfold update_data, try_.
    destruct (first f); [|exact H]. destruct (SpectrumPlot.last f); [|exact H].
    match goal with
    | |- context [marker_x ?q] => set (p5 := q)
    end.
    assert (H5 : zoom_ok p5 = true).
    { subst p5. cbn [set_data previous_freq_range].
      destruct (previous_freq_range p) as [[plo phi]|]; [|exact H].
      destruct (fltb f0_1 _ || fltb f0_1 _); [|exact H].
      unfold zoom_ok in *. cbn.
      destruct (zoom_dragging p), (zoom_start p), (zoom_rect p);
        cbn in *; try discriminate;
        rewrite ?andb_false_r in H; try discriminate; reflexivity. }
    destruct (marker_x p5); [apply zoom_ok_marker|]; exact H5.
  - unfold _reset_zoom, and_then, try_.
    destruct (original_xlim p).
    + unfold zoom_ok in *. cbn.
      destruct (zoom_dragging p), (zoom_start p), (zoom_rect p);
        cbn in *; try discriminate;
        rewrite ?andb_false_r in H; try discriminate; reflexivity.
    + destruct (current_freqs p) as [fr|].
      * destruct (first fr); [|exact H].
        destruct (SpectrumPlot.last fr); [|exact H].
        unfold zoom_ok in *. cbn.
        destruct (zoom_dragging p), (zoom_start p), (zoom_rect p);
          cbn in *; try discriminate;
          rewrite ?andb_false_r in H; try discriminate; reflexivity.
      * unfold zoom_ok in *. cbn.
        destruct (zoom_dragging p), (zoom_start p), (zoom_rect p);
          cbn in *; try discriminate;
          rewrite ?andb_false_r in H; try discriminate; reflexivity.
  - unfold zoom_ok in *. cbn.
    destruct (zoom_dragging p), (zoom_start p), (zoom_rect p);
      cbn in *; try discriminate;
      rewrite ?andb_false_r in H; try discriminate; reflexivity.
  - exact H.
Qed.

(** X25. However the plot is used (clicks, motions, releases, new
    traces, resets, clears, in any order from a new plot), its zoom
    attributes stay consistent: an original view is remembered exactly
    while the zoom history is not empty, a zoom drag is under way
    exactly while its start point is known, and a rubber band exists
    only during a zoom drag. *)
Theorem zoom_bookkeeping (ops : list operation) :
  zoom_ok (fold_left perform ops init) = true.
Proof.
  assert (H : forall p, zoom_ok p = true ->
                        zoom_ok (fold_left perform ops p) = true).
  { induction ops as [|o ops IH]; intros p Hp; [exact Hp|].
    cbn [fold_left]. apply IH. now apply zoom_ok_perform. }
  apply H. reflexivity.
Qed.

(** Mouse operations never forget the original view. *)
Lemma mouse_keeps_original (p : plot) (o : operation) (l : lim) :
  is_mouse o = true -> original_xlim p = Some l ->
  original_xlim (perform p o) = Some l.
Proof.
  intros Hm Hl. destruct o as [ev|ev|ev view|f v mf mv| | |];
    try discriminate; unfold perform.
  - unfold _on_click. destruct ev as [|b x y]; [exact Hl|].
    destruct (current_freqs p); [|exact Hl].
    destruct (b =? 3)%Z; [exact Hl|].
    rewrite (proj1 (proj2 (update_marker_zoom x _))). exact Hl.
  - unfold _on_motion. destruct ev as [|b x y]; [exact Hl|].
    destruct (current_freqs p); [|exact Hl].
    destruct (zoom_dragging p), (zoom_start p);
      try (destruct (dragging p);
           [rewrite (proj1 (proj2 (update_marker_zoom x _)))|]; exact Hl).
    exact Hl.
  - unfold _on_release.
    destruct (zoom_dragging p), (zoom_start p) as [[x0 y0]|],
      ev as [|b x y]; cbn [state_of]; try exact Hl.
    destruct (fltb f0_01 _); cbn; rewrite ?Hl; reflexivity.
Qed.

Lemma mice_keep_original (ops : list operation) (p : plot) (l : lim) :
  forallb is_mouse ops = true -> original_xlim p = Some l ->
  original_xlim (fold_left perform ops p) = Some l.
Proof.
  revert p. induction ops as [|o ops IH]; intros p Hm Hl; [exact Hl|].
  cbn [forallb] in Hm. apply andb_prop in Hm as [Ho Hm].
  cbn [fold_left]. apply IH; [exact Hm|]. now apply mouse_keeps_original.
Qed.

(** X26. The first zoom that takes effect asks for the dragged
    rectangle as limits and remembers the view it replaces. Whatever
    mouse operations follow, further zooms included, [_reset_zoom] asks
    for the x-limits of that first view again, sets the y-limits to the
    fixed range (not to the remembered ones) and forgets the history. *)
Theorem reset_zoom_restores (p : plot) (b : Z) (x y x0 y0 : float)
    (view : lim * lim) (ops : list operation) :
  original_xlim p = None ->
  zoom_dragging p = true -> zoom_start p = Some (x0, y0) ->
  fltb f0_01 (fabs (fsub (max_ x0 x) (min_ x0 x))) = true ->
  forallb is_mouse ops = true ->
  let p1 := perform p (release (inside b x y) view) in
  let p2 := fold_left perform ops p1 in
  requests p1 = set_ylim (min_ y0 y, max_ y0 y)
                :: set_xlim (min_ x0 x, max_ x0 x) :: requests p /\
  exists q,
    _reset_zoom p2 = done q /\
    requests q = set_ylim (YMIN_DBM, YMAX_DBM)
                 :: set_xlim (fst view) :: requests p2 /\
    zoom_history q = [] /\ original_xlim q = None /\
    original_ylim q = None.
Proof.
  intros Ho Hz Hs Hbig Hm. cbv zeta.
  assert (H1 : original_xlim (perform p (release (inside b x y) view))
               = Some (fst view) /\
               requests (perform p (release (inside b x y) view))
               = set_ylim (min_ y0 y, max_ y0 y)
                 :: set_xlim (min_ x0 x, max_ x0 x) :: requests p).
  { unfold perform, _on_release. rewrite Hz, Hs, Hbig, Ho.
    split; reflexivity. }
  destruct H1 as [H1 H1'].
  split; [exact H1'|].
  pose proof (mice_keep_original ops _ _ Hm H1) as H2.
  unfold _reset_zoom. rewrite H2. cbn [and_then].
  eexists. split; [reflexivity|]. cbn. auto.
Qed.

(** A zoom from (1, -80) to (2, -20) on a plot that shows 0 to 3 MHz,
    then a click and a second zoom, then the reset. *)
Lemma reset_zoom_restores_witness :
  let view := ((dec 0 0, dec 3 0), (YMIN_DBM, YMAX_DBM)) in
  let p := state_of
             (_on_click (inside 3 (dec 1 0) (float_of_Z (-80)))
                (set_data (Some [dec 0 0; dec 3 0])
                   (Some [dec 5 0; dec 6 0]) None init)) in
  let ops := [click (inside 3 (dec 12 (-1)) (float_of_Z (-60)));
              release (inside 3 (dec 15 (-1)) (float_of_Z (-40)))
                ((dec 1 0, dec 2 0), (float_of_Z (-80), float_of_Z (-20)))] in
  let p1 := perform p (release (inside 3 (dec 2 0) (float_of_Z (-20))) view) in
  let p2 := fold_left perform ops p1 in
  requests p1
  = set_ylim (min_ (float_of_Z (-80)) (float_of_Z (-20)),
              max_ (float_of_Z (-80)) (float_of_Z (-20)))
    :: set_xlim (min_ (dec 1 0) (dec 2 0), max_ (dec 1 0) (dec 2 0))
    :: requests p /\
  exists q,
    _reset_zoom p2 = done q /\
    requests q = set_ylim (YMIN_DBM, YMAX_DBM)
                 :: set_xlim (fst view) :: requests p2 /\
    zoom_history q = [] /\ original_xlim q = None /\
    original_ylim q = None.
Proof.
  cbv zeta.
  apply (reset_zoom_restores
           (state_of
              (_on_click (inside 3 (dec 1 0) (float_of_Z (-80)))
                 (set_data (Some [dec 0 0; dec 3 0])
                    (Some [dec 5 0; dec 6 0]) None init)))
           3 (dec 2 0) (float_of_Z (-20)) (dec 1 0) (float_of_Z (-80))
           ((dec 0 0, dec 3 0), (YMIN_DBM, YMAX_DBM))
           [click (inside 3 (dec 12 (-1)) (float_of_Z (-60)));
            release (inside 3 (dec 15 (-1)) (float_of_Z (-40)))
              ((dec 1 0, dec 2 0), (float_of_Z (-80), float_of_Z (-20)))]).
  - reflexivity.
  - reflexivity.
  - reflexivity.
  - vm_compute. reflexivity.
  - reflexivity.
Defined.

(** X27. A zoom drag whose button is released outside the axes is not
    over: the release only clears the marker drag, and the next release
    inside the axes, of whichever button, completes the zoom from the
    old start point. *)
Theorem zoom_outlives_outside_release (p : plot) (x0 y0 : float)
    (view : lim * lim) :
  current_freqs p <> None ->
  let p1 := perform p (click (inside 3 x0 y0)) in
  let p2 := perform p1 (release outside view) in
  zoom_dragging p2 = true /\ zoom_start p2 = Some (x0, y0) /\
  dragging p2 = false /\ requests p2 = requests p /\
  forall b x y view',
    fltb f0_01 (fabs (fsub (max_ x0 x) (min_ x0 x))) = true ->
    let p3 := perform p2 (release (inside b x y) view') in
    requests p3 = set_ylim (min_ y0 y, max_ y0 y)
                  :: set_xlim (min_ x0 x, max_ x0 x) :: requests p /\
    zoom_dragging p3 = false.
Proof.
  intros Hd. cbv zeta.
  assert (H1 : perform p (click (inside 3 x0 y0))
               = set_drag (dragging p) true (Some (x0, y0)) (zoom_rect p) p).
  { unfold perform, _on_click.
    destruct (current_freqs p); [reflexivity|congruence]. }
  rewrite H1. unfold perform, _on_release. cbn.
  do 4 (split; [reflexivity|]).
  intros b x y view' Hbig. rewrite Hbig. cbn. split; reflexivity.
Qed.

(** A right press at (1, -80) on a plot with a trace, released outside
    the axes. *)
Lemma zoom_outlives_outside_release_witness :
  let p := set_data (Some [dec 0 0; dec 3 0]) (Some [dec 5 0; dec 6 0])
             None init in
  let view := ((dec 0 0, dec 3 0), (YMIN_DBM, YMAX_DBM)) in
  let p1 := perform p (click (inside 3 (dec 1 0) (float_of_Z (-80)))) in
  let p2 := perform p1 (release outside view) in
  zoom_dragging p2 = true /\
  zoom_start p2 = Some (dec 1 0, float_of_Z (-80)) /\
  dragging p2 = false /\ requests p2 = requests p /\
  forall b x y view',
    fltb f0_01 (fabs (fsub (max_ (dec 1 0) x) (min_ (dec 1 0) x))) = true ->
    let p3 := perform p2 (release (inside b x y) view') in
    requests p3 = set_ylim (min_ (float_of_Z (-80)) y,
                            max_ (float_of_Z (-80)) y)
                  :: set_xlim (min_ (dec 1 0) x, max_ (dec 1 0) x)
                  :: requests p /\
    zoom_dragging p3 = false.
Proof.
  cbv zeta.
  apply (zoom_outlives_outside_release
           (set_data (Some [dec 0 0; dec 3 0]) (Some [dec 5 0; dec 6 0])
              None init)
           (dec 1 0) (float_of_Z (-80))
           ((dec 0 0, dec 3 0), (YMIN_DBM, YMAX_DBM))).
  discriminate.
Defined.
